(** * funyu / hunyu: a line-oriented markup parser

    A shallow embedding of [funyu.py] and of its sibling [hunyu.py]:
    the inline span scanner ([String.__init__] with [findClose] and
    [procStr] in funyu, the [splitter] regular expression in hunyu), the
    block state machine ([Block.feed] and the [feed] method of every block
    class), the metadata block and the document drivers ([Funyu], [Hunyu]),
    the writers ([as_funyu], [as_hunyu] and [as_html] of the blocks and of
    the documents, with [indent]) and the texts of the exceptions.

    Python objects are mutated in place and methods either return or raise:
    a method is modelled as a function from the object's state to its new
    state paired with an [outcome]; a constructor that may raise returns a
    [result]. *)

From Stdlib Require Import Ascii String Strings.Byte.
From Stdlib Require Import List Bool Arith ZArith Lia.
Import ListNotations.

Set Implicit Arguments.

(** ** Python strings

    A Python [str] is modelled as the list of its characters, a character
    being a code point below 256. *)

Definition str := list ascii.

Inductive str_literal := LitNil | LitCons (c : ascii) (s : str_literal).

Fixpoint literal_of_bytes (l : list Byte.byte) : str_literal :=
  match l with
  | [] => LitNil
  | b :: l' => LitCons (ascii_of_byte b) (literal_of_bytes l')
  end.

Fixpoint bytes_of_literal (s : str_literal) : list Byte.byte :=
  match s with
  | LitNil => []
  | LitCons c s' => byte_of_ascii c :: bytes_of_literal s'
  end.

Declare Scope str_scope.
Delimit Scope str_scope with str.
#[warnings="-via-type-remapping,-via-type-mismatch"]
String Notation str literal_of_bytes bytes_of_literal
  (via str_literal mapping [[nil] => LitNil, [cons] => LitCons]) : str_scope.
Open Scope str_scope.
Open Scope list_scope.

Module Py.

Definition LF : ascii := "010"%char.
Definition CR : ascii := "013"%char.
Definition TAB : ascii := "009"%char.
Definition QUOTE : ascii := "034"%char.

(** [s[a:b]] and [s[a:]] for non-negative indices. *)
Definition slice (s : str) (a b : nat) : str := firstn (b - a) (skipn a s).

(** [s.startswith(prefix)] *)
Fixpoint startswith (s prefix : str) {struct prefix} : bool :=
  match prefix, s with
  | [], _ => true
  | _ :: _, [] => false
  | p :: prefix', c :: s' => Ascii.eqb c p && startswith s' prefix'
  end.

(** [s == t] *)
Fixpoint eqb (s t : str) : bool :=
  match s, t with
  | [], [] => true
  | c :: s', d :: t' => Ascii.eqb c d && eqb s' t'
  | _, _ => false
  end.

(** [sub in s] *)
Fixpoint contains (sub s : str) : bool :=
  startswith s sub ||
  match s with
  | [] => false
  | _ :: s' => contains sub s'
  end.

(** [c.isspace()] on the code points below 256: the ASCII white space,
    the separators 0x1c-0x1f, NEL (0x85) and the no-break space (0xa0). *)
Definition isspace (c : ascii) : bool :=
  let n := nat_of_ascii c in
  ((9 <=? n) && (n <=? 13)) || ((28 <=? n) && (n <=? 32))
  || (n =? 133) || (n =? 160).

Fixpoint lstrip (s : str) : str :=
  match s with
  | c :: s' => if isspace c then lstrip s' else s
  | [] => []
  end.

Definition rstrip (s : str) : str := rev (lstrip (rev s)).

(** [s.strip()] *)
Definition strip (s : str) : str := rstrip (lstrip s).

(** [s.split(sep)] for a separator of one character. *)
Fixpoint split_from (sep : ascii) (s cur : str) : list str :=
  match s with
  | [] => [cur]
  | c :: s' =>
      if Ascii.eqb c sep then cur :: split_from sep s' []
      else split_from sep s' (cur ++ [c])
  end.

Definition split (sep : ascii) (s : str) : list str := split_from sep s [].

(** [sep.join(items)] *)
Fixpoint join (sep : str) (items : list str) : str :=
  match items with
  | [] => []
  | [x] => x
  | x :: rest => x ++ sep ++ join sep rest
  end.

(** The line boundaries of [str.splitlines] below 256. *)
Definition islinebreak (c : ascii) : bool :=
  let n := nat_of_ascii c in
  ((10 <=? n) && (n <=? 13)) || ((28 <=? n) && (n <=? 30)) || (n =? 133).

(** [s.splitlines()]: [after_cr] remembers that the previous character
    was a carriage return that closed a line, so that the line feed of a
    CR LF pair is not a second boundary. *)
Fixpoint splitlines_from (s cur : str) (after_cr : bool) : list str :=
  match s with
  | [] => match cur with [] => [] | _ => [cur] end
  | c :: s' =>
      if after_cr && Ascii.eqb c LF then splitlines_from s' [] false
      else if islinebreak c then cur :: splitlines_from s' [] (Ascii.eqb c CR)
      else splitlines_from s' (cur ++ [c]) false
  end.

Definition splitlines (s : str) : list str := splitlines_from s [] false.

End Py.

(** ** Exceptions, results and outcomes

    [SyntaxError] is [FunyuSyntaxError] ([HunyuSyntaxError] in hunyu.py,
    whose class has no [line_number] attribute: it stays [None] there). *)

Inductive exn :=
| SyntaxError (message : str) (line_number : option nat) (line_string : option str)
| EndOfBlock (remain : option str)
| ValueError (message : str)
| IndexError
| AssertionError.

Inductive result (A : Type) :=
| Ok (a : A)
| Raise (e : exn).
Arguments Ok {A} a.
Arguments Raise {A} e.

Definition bind {A B : Type} (c : result A) (k : A -> result B) : result B :=
  match c with
  | Ok a => k a
  | Raise e => Raise e
  end.

Notation "x <- c ;; k" := (bind c (fun x => k))
  (at level 61, c at next level, right associativity).

(** What a method call does besides changing its object: it returns
    ([Return]) or raises. *)
Definition outcome := result unit.
Notation "'Return'" := (Ok tt).

(** [FunyuSyntaxError(message)]: the constructor sets [line_number = None]. *)
Definition syntax_error (message : str) : exn := SyntaxError message None None.

(** [str(e)] for a [FunyuSyntaxError]: the line number as decimal digits is
    left to the caller, the model keeps the number itself. *)

(** ** Regular expressions: the fragment of [re] the two patterns use,
    matched by backtracking as [re] does (alternatives left to right,
    [.*] greedy, longest first). *)

Module Re.

Inductive regex :=
| Lit (s : str)                    (* literal characters *)
| DotStar                          (* .*   ([.] is any character but a line feed) *)
| Cat (r1 r2 : regex)
| Alt (r1 r2 : regex)              (* r1|r2 *)
| Group (name : string) (r : regex).   (* (?P<name>r) *)

Definition groups := list (string * str).

(** Greedy [.*] on the rest [s] of the subject, then the continuation
    [k]; gives back one character at a time while [k] fails. *)
Fixpoint dotstar {R : Type} (s : str) (k : str -> option R) : option R :=
  match s with
  | [] => k []
  | c :: s' =>
      if Ascii.eqb c Py.LF then k s
      else match dotstar s' k with
           | Some r => Some r
           | None => k s
           end
  end.

(** [rmatch r s g k]: match [r] at the start of [s], then [k] on what is
    left and the groups captured so far. *)
Fixpoint rmatch {R : Type} (r : regex) (s : str) (g : groups)
    (k : str -> groups -> option R) : option R :=
  match r with
  | Lit l => if Py.startswith s l then k (skipn (length l) s) g else None
  | DotStar => dotstar s (fun s' => k s' g)
  | Cat r1 r2 => rmatch r1 s g (fun s' g' => rmatch r2 s' g' k)
  | Alt r1 r2 =>
      match rmatch r1 s g k with
      | Some x => Some x
      | None => rmatch r2 s g k
      end
  | Group name r1 =>
      rmatch r1 s g
        (fun s' g' => k s' ((name, firstn (length s - length s') s) :: g'))
  end.

(** A match object: [start()], [end()] and the named groups. *)
Record Match := { m_start : nat; m_end : nat; m_groups : groups }.

(** [match.group(name)], [None] for a group that took no part. *)
Fixpoint lookup (name : string) (g : groups) : option str :=
  match g with
  | [] => None
  | (n, t) :: g' => if String.eqb n name then Some t else lookup name g'
  end.

Definition group (m : Match) (name : string) : option str :=
  lookup name (m_groups m).

(** A match of [r] that starts exactly at [pos]; [s] is [string[pos:]]. *)
Definition match_at (r : regex) (s : str) (pos : nat) : option Match :=
  rmatch r s [] (fun s' g =>
    Some {| m_start := pos; m_end := pos + (length s - length s'); m_groups := g |}).

(** The leftmost match at or after [pos]; [s] is [string[pos:]]. *)
Fixpoint search_from (r : regex) (s : str) (pos : nat) : option Match :=
  match match_at r s pos with
  | Some m => Some m
  | None =>
      match s with
      | [] => None
      | _ :: s' => search_from r s' (S pos)
      end
  end.

(** [r.search(string)] *)
Definition search (r : regex) (string : str) : option Match :=
  search_from r string 0.

(** [r.finditer(string)]: the successive non-overlapping matches, each
    search resuming where the previous match ended.  Both patterns of this
    program match at least four characters, so no match is empty and
    [fuel] above the length of the string is never used up. *)
Fixpoint finditer_from (fuel : nat) (r : regex) (string : str) (pos : nat)
    : list Match :=
  match fuel with
  | 0 => []
  | S fuel' =>
      match search_from r (skipn pos string) pos with
      | None => []
      | Some m => m :: finditer_from fuel' r string (m_end m)
      end
  end.

Definition finditer (r : regex) (string : str) : list Match :=
  finditer_from (S (length string)) r string 0.

End Re.

(** ** Inline elements

    The entries of [String.elements]: a plain [str] ([Text]) or an object
    of a subclass of [String], which carries the [elements] its own
    [String.__init__] built, and its further attributes. *)

#[warnings="-register-all"]
Inductive elem :=
| Text (s : str)
| Keyword (elements : list elem)
| Emphasis (elements : list elem)
| Code (elements : list elem) (text : str)
| Link (elements : list elem) (uri : str)
| ImageLink (elements : list elem) (uri : str) (alt : str).

(** The three bracket pairs of [procStr]. *)
Inductive bracket := BKeyword | BEmphasis | BCode.

Definition opening (b : bracket) : str :=
  match b with BKeyword => "[[" | BEmphasis => "<<" | BCode => "{{" end.

Definition closing (b : bracket) : str :=
  match b with BKeyword => "]]" | BEmphasis => ">>" | BCode => "}}" end.

(** [datetime.date] *)
Record date := { year : Z; month : Z; day : Z }.

(** The two functions of Python's library the program calls and this file
    does not define: [urlparse.urlparse(uri).scheme] and
    [datetime.datetime.strptime(s, '%Y-%m-%d').date()], which gives the
    date or raises [ValueError] with a message on a malformed one. *)
Class PyLib := {
  urlparse_scheme : str -> str;
  strptime_date : str -> date + str
}.

(** A text between double quotes, as the HTML templates have it. *)
Definition quoted (s : str) : str := [Py.QUOTE] ++ s ++ [Py.QUOTE].

Definition text_of (t : option str) : str :=
  match t with Some s => s | None => [] end.

Definition opt_eqb (t : option str) (s : str) : bool :=
  match t with Some u => Py.eqb u s | None => false end.

(** The message of every error the inline scanner raises. *)
Definition close_bracket_message : str := "inline element is required close bracket.".
Definition link_in_link_message : str := "link element can't including link.".

(** ** funyu.py: the inline scanner *)

Module funyu.

(** [String.link], the pattern
    [\[(?P<linktype>IMG:|)(?P<linktext>.* )\]\((?P<linkuri>.* )\)]
    (written here with a blank after each star). *)
Definition link : Re.regex :=
  Re.Cat (Re.Lit "[")
 (Re.Cat (Re.Group "linktype" (Re.Alt (Re.Lit "IMG:") (Re.Lit "")))
 (Re.Cat (Re.Group "linktext" Re.DotStar)
 (Re.Cat (Re.Lit "](")
 (Re.Cat (Re.Group "linkuri" Re.DotStar)
         (Re.Lit ")"))))).

(** The loop of [findClose]: [suffix] is [string[i:]]. *)
Fixpoint findClose_for (suffix : str) (i : nat) (level : Z) (start end_ : str)
    : result nat :=
  match suffix with
  | [] => Raise (syntax_error close_bracket_message)
  | _ :: rest =>
      let level :=
        if Py.startswith suffix start then (level + 1)%Z
        else if Py.startswith suffix end_ then (level - 1)%Z
        else level in
      if (level =? -1)%Z then Ok i
      else findClose_for rest (S i) level start end_
  end.

Definition findClose (string start end_ : str) : result nat :=
  findClose_for string 0 0%Z start end_.

(** [key in ('[[', '<<', '{{')], and which of the three it is. *)
Definition bracket_of (key : str) : option bracket :=
  if Py.eqb key "[[" then Some BKeyword
  else if Py.eqb key "<<" then Some BEmphasis
  else if Py.eqb key "{{" then Some BCode
  else None.

Section Scanner.

(** [String.__init__] of the nested objects. *)
Variable String_ : str -> result (list elem).

(** [Keyword(text)], [Emphasis(text)], [Code(text)]: the first two are
    [String.__init__(text)], [Code] is [String.__init__('')] and keeps
    the text. *)
Definition span (b : bracket) (text : str) : result elem :=
  match b with
  | BKeyword => elements <- String_ text ;; Ok (Keyword elements)
  | BEmphasis => elements <- String_ text ;; Ok (Emphasis elements)
  | BCode => elements <- String_ "" ;; Ok (Code elements text)
  end.

(** After the loop of [procStr]: the text left over, unless empty. *)
Definition procStr_remain (string : str) (last : nat) (elements : list elem)
    : list elem :=
  match skipn last string with
  | [] => elements
  | remain => elements ++ [Text remain]
  end.

(** The [while i < len(string)] loop of [procStr]; [i] grows at every
    turn, so [fuel = len(string)] turns are enough. *)
Fixpoint procStr_while (fuel : nat) (string : str) (i last : nat)
    (elements : list elem) : result (list elem) :=
  match fuel with
  | 0 => Ok (procStr_remain string last elements)
  | S fuel' =>
      if i <? length string then
        let key := Py.slice string i (i + 2) in
        match bracket_of key with
        | Some b =>
            let elements := elements ++ [Text (Py.slice string last i)] in
            let i := i + 2 in
            n <- findClose (skipn i string) (opening b) (closing b) ;;
            let end_ := i + n in
            e <- span b (Py.slice string i end_) ;;
            let elements := elements ++ [e] in
            let i := end_ + 2 in
            let last := i in
            procStr_while fuel' string (i + 1) last elements
        | None => procStr_while fuel' string (i + 1) last elements
        end
      else Ok (procStr_remain string last elements)
  end.

Definition procStr (string : str) (elements : list elem) : result (list elem) :=
  procStr_while (length string) string 0 0 elements.

(** [Link(text, uri)] and [ImageLink(alt, uri)]. *)
Definition Link_init (text uri : str) : result elem :=
  elements <- String_ text ;; Ok (Link elements uri).

Definition ImageLink_init (alt uri : str) : result elem :=
  elements <- String_ "" ;; Ok (ImageLink elements uri alt).

(** The [for match in self.link.finditer(string)] loop and the final
    [procStr(string[done:])]. *)
Fixpoint String_for (matches : list Re.Match) (string : str) (done : nat)
    (elements : list elem) : result (list elem) :=
  match matches with
  | [] => procStr (skipn done string) elements
  | m :: matches' =>
      elements <- procStr (Py.slice string done (Re.m_start m)) elements ;;
      let done := Re.m_end m in
      let link_init :=
        if opt_eqb (Re.group m "linktype") "IMG:" then ImageLink_init
        else Link_init in
      match Re.search link (text_of (Re.group m "linktext")) with
      | Some _ => Raise (syntax_error link_in_link_message)
      | None =>
          e <- link_init (Py.strip (text_of (Re.group m "linktext")))
                         (Py.strip (text_of (Re.group m "linkuri"))) ;;
          String_for matches' string done (elements ++ [e])
      end
  end.

Definition String_body (string : str) : result (list elem) :=
  String_for (Re.finditer link string) string 0 [].

End Scanner.

(** [String.__init__]: a nested object is built from a strictly shorter
    string, so [fuel = len(string)] levels of nesting are enough; at
    [fuel = 0] the string is empty and nothing is nested. *)
Fixpoint String_fuel (fuel : nat) (string : str) : result (list elem) :=
  match fuel with
  | 0 => String_body (fun _ => Ok []) string
  | S fuel' => String_body (String_fuel fuel') string
  end.

Definition String_init (string : str) : result (list elem) :=
  String_fuel (length string) string.

(** [as_funyu] and [as_html] of [String] and of its subclasses;
    [String_as_funyu] is [String.as_funyu] on the object's elements. *)
Fixpoint as_funyu (e : elem) : str :=
  let String_as_funyu := fun elements => concat (map as_funyu elements) in
  match e with
  | Text s => s
  | Keyword elements => "[[" ++ String_as_funyu elements ++ "]]"
  | Emphasis elements => "<<" ++ String_as_funyu elements ++ ">>"
  | Code _ text => "{{" ++ text ++ "}}"
  | Link elements uri => "[" ++ String_as_funyu elements ++ "](" ++ uri ++ ")"
  | ImageLink _ uri alt => "[IMG: " ++ alt ++ "](" ++ uri ++ ")"
  end.

Definition String_as_funyu (elements : list elem) : str :=
  concat (map as_funyu elements).

Fixpoint as_html `{PyLib} (e : elem) : str :=
  let String_as_html := fun elements => concat (map as_html elements) in
  match e with
  | Text s => s
  | Keyword elements => "<strong>" ++ String_as_html elements ++ "</strong>"
  | Emphasis elements => "<em>" ++ String_as_html elements ++ "</em>"
  | Code _ text => "<code>" ++ text ++ "</code>"
  | Link elements uri =>
      match urlparse_scheme uri with
      | [] => "<a href=" ++ quoted uri ++ ">" ++ String_as_html elements ++ "</a>"
      | _ => "<a href=" ++ quoted uri ++ " target=" ++ quoted "_blank" ++ ">"
             ++ String_as_html elements ++ "</a>"
      end
  | ImageLink _ uri alt =>
      match urlparse_scheme uri with
      | [] => "<a href=" ++ quoted uri ++ "><img src=" ++ quoted uri
              ++ " alt=" ++ quoted alt ++ "></a>"
      | _ => "<a href=" ++ quoted uri ++ " target=" ++ quoted "_blank"
             ++ "><img src=" ++ quoted uri ++ " alt=" ++ quoted alt ++ "></a>"
      end
  end.

Definition String_as_html `{PyLib} (elements : list elem) : str :=
  concat (map as_html elements).

(** [Line.as_funyu] and [Line.as_html]. *)
Definition Line_as_funyu (elements : list elem) : str :=
  String_as_funyu elements ++ [Py.LF].

Definition Line_as_html `{PyLib} (elements : list elem) : str :=
  String_as_html elements ++ "<br>" ++ [Py.LF].

End funyu.

(** ** hunyu.py: the inline scanner *)

Module hunyu.

(** [String.splitter], the alternation of
    [\[\[(?P<keyword>.* )\]\]], [<<(?P<emphasis>.* )>>],
    [{{(?P<code>.* )}}] and the link pattern of funyu
    (written here with a blank after each star). *)
Definition splitter : Re.regex :=
  Re.Alt (Re.Cat (Re.Lit "[[") (Re.Cat (Re.Group "keyword" Re.DotStar) (Re.Lit "]]")))
 (Re.Alt (Re.Cat (Re.Lit "<<") (Re.Cat (Re.Group "emphasis" Re.DotStar) (Re.Lit ">>")))
 (Re.Alt (Re.Cat (Re.Lit "{{") (Re.Cat (Re.Group "code" Re.DotStar) (Re.Lit "}}")))
         funyu.link)).

Section Scanner.

Variable String_ : str -> result (list elem).

(** The element a match of [splitter] stands for: the [if]/[elif] chain
    on the groups that are not [None]; [None] here when no branch
    applies and nothing is appended. *)
Definition element_of (m : Re.Match) : result (option elem) :=
  match Re.group m "keyword" with
  | Some text => elements <- String_ text ;; Ok (Some (Keyword elements))
  | None =>
  match Re.group m "emphasis" with
  | Some text => elements <- String_ text ;; Ok (Some (Emphasis elements))
  | None =>
  match Re.group m "code" with
  | Some text => elements <- String_ "" ;; Ok (Some (Code elements text))
  | None =>
  match Re.group m "linktype" with
  | Some linktype =>
      if Py.eqb linktype "IMG:" then
        elements <- String_ "" ;;
        Ok (Some (ImageLink elements
                    (Py.strip (text_of (Re.group m "linkuri")))
                    (Py.strip (text_of (Re.group m "linktext")))))
      else
        elements <- String_ (Py.strip (text_of (Re.group m "linktext"))) ;;
        Ok (Some (Link elements (Py.strip (text_of (Re.group m "linkuri")))))
  | None => Ok None
  end end end end.

(** The [for match in self.splitter.finditer(string)] loop and the
    final [self.elements.append(string[done:])]. *)
Fixpoint String_for (matches : list Re.Match) (string : str) (done : nat)
    (elements : list elem) : result (list elem) :=
  match matches with
  | [] => Ok (elements ++ [Text (skipn done string)])
  | m :: matches' =>
      let elements := elements ++ [Text (Py.slice string done (Re.m_start m))] in
      let done := Re.m_end m in
      e <- element_of m ;;
      let elements :=
        match e with Some e => elements ++ [e] | None => elements end in
      String_for matches' string done elements
  end.

Definition String_body (string : str) : result (list elem) :=
  String_for (Re.finditer splitter string) string 0 [].

End Scanner.

(** [String.__init__]; as in funyu, a nested object is built from a
    strictly shorter string. *)
Fixpoint String_fuel (fuel : nat) (string : str) : result (list elem) :=
  match fuel with
  | 0 => String_body (fun _ => Ok []) string
  | S fuel' => String_body (String_fuel fuel') string
  end.

Definition String_init (string : str) : result (list elem) :=
  String_fuel (length string) string.

(** [as_hunyu] and [as_html]; [Link.as_html] renders its text with
    [super().as_hunyu()]. *)
Fixpoint as_hunyu (e : elem) : str :=
  let String_as_hunyu := fun elements => concat (map as_hunyu elements) in
  match e with
  | Text s => s
  | Keyword elements => "[[" ++ String_as_hunyu elements ++ "]]"
  | Emphasis elements => "<<" ++ String_as_hunyu elements ++ ">>"
  | Code _ text => "{{" ++ text ++ "}}"
  | Link elements uri => "[" ++ String_as_hunyu elements ++ "](" ++ uri ++ ")"
  | ImageLink _ uri alt => "[IMG: " ++ alt ++ "](" ++ uri ++ ")"
  end.

Definition String_as_hunyu (elements : list elem) : str :=
  concat (map as_hunyu elements).

Fixpoint as_html `{PyLib} (e : elem) : str :=
  let String_as_html := fun elements => concat (map as_html elements) in
  match e with
  | Text s => s
  | Keyword elements => "<strong>" ++ String_as_html elements ++ "</strong>"
  | Emphasis elements => "<em>" ++ String_as_html elements ++ "</em>"
  | Code _ text => "<code>" ++ text ++ "</code>"
  | Link elements uri =>
      match urlparse_scheme uri with
      | [] => "<a href=" ++ quoted uri ++ ">" ++ String_as_hunyu elements ++ "</a>"
      | _ => "<a href=" ++ quoted uri ++ " target=" ++ quoted "_blank" ++ ">"
             ++ String_as_hunyu elements ++ "</a>"
      end
  | ImageLink _ uri alt =>
      match urlparse_scheme uri with
      | [] => "<a href=" ++ quoted uri ++ "><img src=" ++ quoted uri
              ++ " alt=" ++ quoted alt ++ "></a>"
      | _ => "<a href=" ++ quoted uri ++ " target=" ++ quoted "_blank"
             ++ "><img src=" ++ quoted uri ++ " alt=" ++ quoted alt ++ "></a>"
      end
  end.

Definition String_as_html `{PyLib} (elements : list elem) : str :=
  concat (map as_html elements).

Definition Line_as_hunyu (elements : list elem) : str :=
  String_as_hunyu elements ++ [Py.LF].

Definition Line_as_html `{PyLib} (elements : list elem) : str :=
  String_as_html elements ++ "<br>" ++ [Py.LF].

End hunyu.

(** ** Blocks

    The block classes are the same in the two files, up to the name of the
    syntax error class and the inline scanner [Line(line)] runs; they are
    embedded once, over that scanner. *)

(** A [Line] object: the elements its [String.__init__] built. *)
Definition Line := list elem.

#[warnings="-register-all"]
Inductive block :=
| Paragraph (ended : bool) (elements : list Line)
| Section (ended : bool) (level : Z) (title : str) (elements : list block)
| PostScript (ended : bool) (level : Z) (date_ : date) (elements : list block)
| CodeBlock (ended : bool) (type : option str) (elements : list str)
| EmbeddedHTML (ended : bool) (elements : list str).

(** [MetaData(Block, dict)]: the [ended] flag and the dict, its entries in
    insertion order. *)
Record MetaData := { ended : bool; items : list (str * str) }.

(** [d[key] = value]: an existing key keeps its place. *)
Fixpoint dict_set (key value : str) (d : list (str * str)) : list (str * str) :=
  match d with
  | [] => [(key, value)]
  | (k, v) :: d' =>
      if Py.eqb k key then (k, value) :: d'
      else (k, v) :: dict_set key value d'
  end.

(** [d[key]] *)
Fixpoint dict_get (key : str) (d : list (str * str)) : option str :=
  match d with
  | [] => None
  | (k, v) :: d' => if Py.eqb k key then Some v else dict_get key d'
  end.

Definition is_Paragraph (b : block) : bool :=
  match b with Paragraph _ _ => true | _ => false end.

(** [line.replace(old, new)] for [old] of one character. *)
Definition replace (old : ascii) (new : str) (line : str) : str :=
  flat_map (fun c => if Ascii.eqb c old then new else [c]) line.

Definition metadata_colon_message : str :=
  "metadata block expects key-value separated by semicolon.".
Definition key_required_message : str := "key is required.".
Definition code_tab_message : str :=
  "in code block, lines should be starts with tab character.".
Definition html_tab_message : str :=
  "in embedded html, lines should be starts with tab character.".
Definition line_break_message : str := "line argument can't include line break.".

Module Blocks.
Section Blocks.

Context `{PyLib}.

(** [String.__init__] of the file at hand. *)
Variable String_init : str -> result (list elem).

(** [MetaData.feed] *)
Definition MetaData_feed (self : MetaData) (line : str) : MetaData * outcome :=
  if ended self then (self, Raise (EndOfBlock (Some line)))
  else if Py.eqb (Py.strip line) "" then
    ({| ended := true; items := items self |}, Raise (EndOfBlock None))
  else if negb (Py.contains ":" line) then
    (self, Raise (syntax_error metadata_colon_message))
  else
    let items_ := Py.split ":" line in
    let key := Py.strip (hd [] items_) in
    let value := Py.strip (Py.join ":" (tl items_)) in
    if Py.eqb key "" then (self, Raise (syntax_error key_required_message))
    else ({| ended := ended self; items := dict_set key value (items self) |},
          Return).

(** [MetaData.as_funyu] ([as_hunyu] in hunyu.py) *)
Definition MetaData_as_funyu (self : MetaData) : str :=
  Py.join [Py.LF] (map (fun kv => fst kv ++ ": " ++ snd kv) (items self))
  ++ [Py.LF].

(** [Paragraph.feed] *)
Definition Paragraph_feed (ended : bool) (elements : list Line) (line : str)
    : block * outcome :=
  if Py.eqb (Py.strip line) "" || ended then
    (Paragraph true elements, Raise (EndOfBlock (Some line)))
  else
    match String_init line with
    | Ok l => (Paragraph ended (elements ++ [l]), Return)
    | Raise e => (Paragraph ended elements, Raise e)
    end.

(** [CodeBlock.feed] *)
Definition CodeBlock_feed (ended : bool) (type : option str)
    (elements : list str) (line : str) : block * outcome :=
  if ended then (CodeBlock ended type elements, Raise (EndOfBlock (Some line)))
  else if Py.eqb line "```" then
    (CodeBlock true type elements, Raise (EndOfBlock None))
  else if negb (Py.eqb line "") && negb (Py.startswith line [Py.TAB]) then
    (CodeBlock ended type elements, Raise (syntax_error code_tab_message))
  else
    let line := skipn 1 line in
    let line := replace "&" "&amp;" line in
    let line := replace "<" "&lt;" line in
    let line := replace ">" "&gt;" line in
    (CodeBlock ended type (elements ++ [line]), Return).

(** [EmbeddedHTML.feed] *)
Definition EmbeddedHTML_feed (ended : bool) (elements : list str) (line : str)
    : block * outcome :=
  if ended then (EmbeddedHTML ended elements, Raise (EndOfBlock (Some line)))
  else if Py.startswith line ")))" then
    (EmbeddedHTML true elements, Raise (EndOfBlock None))
  else if negb (Py.eqb line "") && negb (Py.startswith line [Py.TAB]) then
    (EmbeddedHTML ended elements, Raise (syntax_error html_tab_message))
  else (EmbeddedHTML ended (elements ++ [skipn 1 line]), Return).

Section Dispatch.

(** The [feed] method of the children, by dynamic dispatch. *)
Variable feed : block -> str -> block * outcome.

(** [self.elements[-1].feed(line)], [IndexError] on no element. *)
Fixpoint feed_last (elements : list block) (line : str)
    : list block * outcome :=
  match elements with
  | [] => ([], Raise IndexError)
  | [b] => let (b', o) := feed b line in ([b'], o)
  | b :: rest => let (rest', o) := feed_last rest line in (b :: rest', o)
  end.

(** [self.elements[-1]] is there and is not a [Paragraph]. *)
Definition last_is_open_child (elements : list block) : bool :=
  match rev elements with
  | [] => false
  | b :: _ => negb (is_Paragraph b)
  end.

(** The second half of [Block.feed]: the triggers of new blocks, and
    otherwise the last element once more, then a new paragraph. *)
Definition Block_feed_new (level : Z) (elements : list block) (line : str)
    : list block * outcome :=
  if Py.startswith line "-- " then
    if (1 <=? level + 1)%Z then
      (elements ++ [Section false (level + 1) (Py.strip (skipn 3 line)) []],
       Return)
    else (elements, Raise AssertionError)
  else if Py.startswith line "```" then
    let type :=
      match Py.strip (skipn 4 line) with
      | [] => None
      | t => Some t
      end in
    (elements ++ [CodeBlock false type []], Return)
  else if Py.startswith line "p.s. " then
    match strptime_date (Py.strip (skipn 5 line)) with
    | inr message => (elements, Raise (ValueError message))
    | inl d =>
        if (1 <=? level + 1)%Z then
          (elements ++ [PostScript false (level + 1) d []], Return)
        else (elements, Raise AssertionError)
    end
  else if Py.eqb (Py.strip line) "(((" then
    (elements ++ [EmbeddedHTML false []], Return)
  else
    let (elements, o) := feed_last elements line in
    match o with
    | Ok _ => (elements, Return)
    | Raise (EndOfBlock _) | Raise IndexError =>
        if negb (Py.eqb (Py.strip line) "") then
          feed_last (elements ++ [Paragraph false []]) line
        else (elements, Return)
    | Raise e => (elements, Raise e)
    end.

(** [Block.feed] *)
Definition Block_feed (level : Z) (elements : list block) (line : str)
    : list block * outcome :=
  if last_is_open_child elements then
    let (elements', o) := feed_last elements line in
    match o with
    | Ok _ => (elements', Return)
    | Raise (EndOfBlock None) => (elements', Return)
    | Raise (EndOfBlock (Some _)) => Block_feed_new level elements' line
    | Raise e => (elements', Raise e)
    end
  else Block_feed_new level elements line.

(** [Section.feed] and [PostScript.feed], which are the same. *)
Definition container_feed (ended : bool) (level : Z)
    (elements : list block) (line : str) : bool * list block * outcome :=
  if (negb (Py.eqb (Py.strip line) "") && negb (Py.startswith line [Py.TAB]))
     || ended then
    (true, elements, Raise (EndOfBlock (Some line)))
  else
    let (elements', o) := Block_feed level elements (skipn 1 line) in
    (ended, elements', o).

(** The [feed] of a block, by its class. *)
Definition feed_body (b : block) (line : str) : block * outcome :=
  match b with
  | Paragraph ended elements => Paragraph_feed ended elements line
  | Section ended level title elements =>
      let '(ended', elements', o) := container_feed ended level elements line in
      (Section ended' level title elements', o)
  | PostScript ended level d elements =>
      let '(ended', elements', o) := container_feed ended level elements line in
      (PostScript ended' level d elements', o)
  | CodeBlock ended type elements => CodeBlock_feed ended type elements line
  | EmbeddedHTML ended elements => EmbeddedHTML_feed ended elements line
  end.

End Dispatch.

(** How deep blocks are nested in a block. *)
Fixpoint height (b : block) : nat :=
  match b with
  | Section _ _ _ elements | PostScript _ _ _ elements =>
      S (fold_right (fun c h => Nat.max (height c) h) 0 elements)
  | _ => 0
  end.

(** The dynamic dispatch [b.feed(line)]: [fuel] bounds the nesting of the
    calls, which follow the nesting of the blocks; a block of height 0
    calls no other. *)
Fixpoint feed_fuel (fuel : nat) (b : block) (line : str) : block * outcome :=
  match fuel with
  | 0 => feed_body (fun c _ => (c, Return)) b line
  | S fuel' => feed_body (feed_fuel fuel') b line
  end.

Definition feed (b : block) (line : str) : block * outcome :=
  feed_fuel (height b) b line.

End Blocks.
End Blocks.

(** ** The document drivers *)

(** [Funyu(Block)]: the attributes of the object. *)
Record Funyu := {
  level : Z;
  elements : list block;
  metadata : MetaData;
  line_number : nat
}.

(** [Hunyu(Block)], which has no [line_number]. *)
Record Hunyu := {
  h_level : Z;
  h_elements : list block;
  h_metadata : MetaData
}.

Section Drivers.

Context `{PyLib}.

(** [MetaData()] *)
Definition MetaData_init : MetaData := {| ended := false; items := [] |}.

(** [Funyu(initial_level)] *)
Definition Funyu_init (initial_level : Z) : Funyu :=
  {| level := initial_level - 1; elements := [];
     metadata := MetaData_init; line_number := 0 |}.

(** The [try] block of [Funyu.feed], before its [except FunyuSyntaxError]. *)
Definition Funyu_feed_line (self : Funyu) (line : str) : Funyu * outcome :=
  if ended (metadata self) then
    let (elements', o) :=
      Blocks.Block_feed (Blocks.feed funyu.String_init)
        (level self) (elements self) line in
    ({| level := level self; elements := elements';
        metadata := metadata self; line_number := line_number self |}, o)
  else
    let (metadata', o) := Blocks.MetaData_feed (metadata self) line in
    let self' := {| level := level self; elements := elements self;
                    metadata := metadata'; line_number := line_number self |} in
    match o with
    | Raise (EndOfBlock _) => (self', Return)
    | _ => (self', o)
    end.

(** [Funyu.feed] *)
Definition Funyu_feed (self : Funyu) (line : str) : Funyu * outcome :=
  let self := {| level := level self; elements := elements self;
                 metadata := metadata self;
                 line_number := line_number self + 1 |} in
  if Py.contains [Py.LF] line then (self, Raise (ValueError line_break_message))
  else
    let (self', o) := Funyu_feed_line self line in
    match o with
    | Raise (SyntaxError message _ _) =>
        (self', Raise (SyntaxError message (Some (line_number self')) (Some line)))
    | _ => (self', o)
    end.

(** The loop of [Funyu.parse] over the lines: an exception ends it. *)
Fixpoint Funyu_feed_all (self : Funyu) (lines : list str) : Funyu * outcome :=
  match lines with
  | [] => (self, Return)
  | line :: lines' =>
      match Funyu_feed self line with
      | (self', Ok _) => Funyu_feed_all self' lines'
      | (self', Raise e) => (self', Raise e)
      end
  end.

(** [Funyu.parse] *)
Definition Funyu_parse (self : Funyu) (string : str) : Funyu * outcome :=
  Funyu_feed_all self (Py.splitlines string).

(** [Hunyu(initial_level)] *)
Definition Hunyu_init (initial_level : Z) : Hunyu :=
  {| h_level := initial_level - 1; h_elements := [];
     h_metadata := MetaData_init |}.

(** [Hunyu.feed] *)
Definition Hunyu_feed (self : Hunyu) (line : str) : Hunyu * outcome :=
  if Py.contains [Py.LF] line then (self, Raise (ValueError line_break_message))
  else if ended (h_metadata self) then
    let (elements', o) :=
      Blocks.Block_feed (Blocks.feed hunyu.String_init)
        (h_level self) (h_elements self) line in
    ({| h_level := h_level self; h_elements := elements';
        h_metadata := h_metadata self |}, o)
  else
    let (metadata', o) := Blocks.MetaData_feed (h_metadata self) line in
    let self' := {| h_level := h_level self; h_elements := h_elements self;
                    h_metadata := metadata' |} in
    match o with
    | Raise (EndOfBlock _) => (self', Return)
    | _ => (self', o)
    end.

Fixpoint Hunyu_feed_all (self : Hunyu) (lines : list str) : Hunyu * outcome :=
  match lines with
  | [] => (self, Return)
  | line :: lines' =>
      match Hunyu_feed self line with
      | (self', Ok _) => Hunyu_feed_all self' lines'
      | (self', Raise e) => (self', Raise e)
      end
  end.

(** [Hunyu.parse] *)
Definition Hunyu_parse (self : Hunyu) (string : str) : Hunyu * outcome :=
  Hunyu_feed_all self (Py.splitlines string).

End Drivers.

(** ** Rendering

    [as_funyu] ([as_hunyu] in hunyu.py) and [as_html] of the blocks and of
    the documents, which are the same in the two files up to the renderers
    of a [Line]. *)

(** [str(n)] and ['{0}'.format(n)] for an integer: its decimal digits. *)
Fixpoint digits (d : Decimal.uint) : str :=
  match d with
  | Decimal.Nil => []
  | Decimal.D0 d' => "0"%char :: digits d'
  | Decimal.D1 d' => "1"%char :: digits d'
  | Decimal.D2 d' => "2"%char :: digits d'
  | Decimal.D3 d' => "3"%char :: digits d'
  | Decimal.D4 d' => "4"%char :: digits d'
  | Decimal.D5 d' => "5"%char :: digits d'
  | Decimal.D6 d' => "6"%char :: digits d'
  | Decimal.D7 d' => "7"%char :: digits d'
  | Decimal.D8 d' => "8"%char :: digits d'
  | Decimal.D9 d' => "9"%char :: digits d'
  end.

Definition str_of_nat (n : nat) : str := digits (Nat.to_uint n).

Definition str_of_Z (z : Z) : str :=
  match Z.to_int z with
  | Decimal.Pos d => digits d
  | Decimal.Neg d => "-"%char :: digits d
  end.

(** [FunyuSyntaxError.__str__] *)
Definition FunyuSyntaxError_str (message : str) (line_number : option nat) : str :=
  match line_number with
  | Some n => "line " ++ str_of_nat n ++ ": " ++ message
  | None => message
  end.

(** [EndOfBlock.__str__] *)
Definition EndOfBlock_str (remain : option str) : str :=
  match remain with
  | Some (c :: s) => c :: s
  | _ => []
  end.

(** [indent(string)] *)
Definition indent (string : str) : str :=
  Py.join [Py.LF]
    (map (fun line => match line with [] => [] | _ => Py.TAB :: line end)
       (Py.split Py.LF string)).

(** [s.replace(old, new)] for [old] not empty: the occurrences of [old]
    from left to right, none overlapping another; [skip] counts the
    characters of an occurrence still to pass over. *)
Fixpoint replace_from (old new s : str) (skip : nat) : str :=
  match s with
  | [] => []
  | c :: s' =>
      match skip with
      | S skip' => replace_from old new s' skip'
      | O =>
          if Py.startswith s old then new ++ replace_from old new s' (length old - 1)
          else c :: replace_from old new s' 0
      end
  end.

Definition replace_str (old new s : str) : str := replace_from old new s 0.

(** [date.isoformat()], for the years [datetime.date] has (1 to 9999):
    four digits, two and two. *)
Definition zfill (width : nat) (s : str) : str :=
  repeat "0"%char (width - length s) ++ s.

Definition isoformat (d : date) : str :=
  zfill 4 (str_of_Z (year d)) ++ "-" ++ zfill 2 (str_of_Z (month d))
  ++ "-" ++ zfill 2 (str_of_Z (day d)).

Module Render.
Section Render.

(** [Line.as_funyu] (or [Line.as_hunyu]) and [Line.as_html] of the file
    at hand. *)
Variable Line_as_markup : list elem -> str.
Variable Line_as_html : list elem -> str.

(** [as_funyu] of a block, by its class. *)
Fixpoint as_markup (b : block) : str :=
  match b with
  | Paragraph _ elements => concat (map Line_as_markup elements)
  | Section _ _ title elements =>
      replace_str ([Py.LF; Py.TAB; Py.LF]) ([Py.LF; Py.LF])
        ("-- " ++ title ++ [Py.LF] ++ indent (concat (map as_markup elements)))
  | PostScript _ _ d elements =>
      "p.s. " ++ isoformat d ++ [Py.LF] ++ indent (concat (map as_markup elements))
  | CodeBlock _ type elements =>
      "```" ++ match type with Some t => " " ++ t | None => [] end ++ [Py.LF]
      ++ indent (Py.join [Py.LF] elements) ++ [Py.LF] ++ "```" ++ [Py.LF]
  | EmbeddedHTML _ elements =>
      "(((" ++ [Py.LF] ++ indent (Py.join [Py.LF] elements) ++ [Py.LF]
      ++ ")))" ++ [Py.LF]
  end.

(** [as_html] of a block, by its class. *)
Fixpoint as_html (b : block) : str :=
  match b with
  | Paragraph _ elements =>
      "<p>" ++ [Py.LF] ++ concat (map Line_as_html elements) ++ "</p>" ++ [Py.LF]
  | Section _ level title elements =>
      "<section>" ++ [Py.LF]
      ++ "<h" ++ str_of_Z (Z.min level 6) ++ ">" ++ title
      ++ "</h" ++ str_of_Z (Z.min level 6) ++ ">" ++ [Py.LF]
      ++ concat (map as_html elements) ++ "</section>" ++ [Py.LF]
  | PostScript _ _ d elements =>
      "<ins>" ++ [Py.LF] ++ "<b>p.s. <date>" ++ isoformat d ++ "</date></b><br>"
      ++ [Py.LF] ++ concat (map as_html elements) ++ "</ins>" ++ [Py.LF]
  | CodeBlock _ type elements =>
      "<pre class=" ++ quoted ("code" ++ match type with
                                         | Some t => " code_" ++ t
                                         | None => []
                                         end)
      ++ ">" ++ [Py.LF] ++ Py.join [Py.LF] elements ++ [Py.LF]
      ++ "</pre>" ++ [Py.LF]
  | EmbeddedHTML _ elements => Py.join [Py.LF] elements ++ [Py.LF]
  end.

End Render.
End Render.

Section Documents.

Context `{PyLib}.

(** [Funyu.as_funyu] and [Funyu.as_html] *)
Definition Funyu_as_funyu (self : Funyu) : str :=
  Blocks.MetaData_as_funyu (metadata self) ++ [Py.LF]
  ++ concat (map (Render.as_markup funyu.Line_as_funyu) (elements self)).

Definition Funyu_as_html (self : Funyu) : str :=
  concat (map (Render.as_html funyu.Line_as_html) (elements self)).

(** [Hunyu.as_hunyu] and [Hunyu.as_html] *)
Definition Hunyu_as_hunyu (self : Hunyu) : str :=
  Blocks.MetaData_as_funyu (h_metadata self) ++ [Py.LF]
  ++ concat (map (Render.as_markup hunyu.Line_as_hunyu) (h_elements self)).

Definition Hunyu_as_html (self : Hunyu) : str :=
  concat (map (Render.as_html hunyu.Line_as_html) (h_elements self)).

End Documents.

(** An instance of the library functions for closed examples: no URI has a
    scheme, no date is well formed. *)
#[export] Instance example_lib : PyLib :=
  {| urlparse_scheme := fun _ => [];
     strptime_date := fun _ => inr "malformed date" |}.

(** ** The vocabulary of the properties *)

Definition blank (line : str) : Prop := Forall (fun c => Py.isspace c = true) line.

Definition three_lines : str :=
  "title: test" ++ [Py.LF] ++ [Py.LF] ++ "[[opend".

(** A string that [strip] leaves as it is. *)
Definition trimmed (s : str) : Prop :=
  Py.lstrip s = s /\ Py.lstrip (rev s) = rev s.

(** No line boundary of [splitlines] in a string. *)
Definition nolb (s : str) : Prop := Forall (fun c => Py.islinebreak c = false) s.

(** What [MetaData.feed] stores for the lines of [splitlines]: a key that
    is trimmed, not empty and without colon, a trimmed value, and no line
    boundary in either. *)
Definition item_ok (kv : str * str) : Prop :=
  fst kv <> [] /\ trimmed (fst kv) /\ ~ In ":"%char (fst kv) /\ nolb (fst kv)
  /\ trimmed (snd kv) /\ nolb (snd kv).

Definition dict_ok (d : list (str * str)) : Prop :=
  Forall item_ok d /\ NoDup (map fst d).

(** The line [MetaData.as_funyu] writes for an entry. *)
Definition item_line (kv : str * str) : str := fst kv ++ ": " ++ snd kv.

(** How far [.*] may go: not past a line feed. *)
Definition reach (n : nat) (s : str) : Prop :=
  n <= length s /\ ~ In Py.LF (firstn n s).

(** The first characters of the opening delimiters. *)
Definition is_opener (c : ascii) : bool :=
  Ascii.eqb c "[" || Ascii.eqb c "<" || Ascii.eqb c "{".

(** The characters of the inline markup, and the line feed. *)
Definition is_markup (c : ascii) : bool :=
  is_opener c || Ascii.eqb c "]" || Ascii.eqb c ">" || Ascii.eqb c "}"
  || Ascii.eqb c "(" || Ascii.eqb c ")" || Ascii.eqb c Py.LF.

(** A text that opens no inline element. *)
Definition no_opener (s : str) : Prop := Forall (fun c => is_opener c = false) s.

(** A text of one line without any character of the inline markup. *)
Definition plain (s : str) : Prop := Forall (fun c => is_markup c = false) s.

(** What one turn of the loop of [findClose] adds to the level. *)
Definition delta (start end_ suffix : str) : Z :=
  if Py.startswith suffix start then 1%Z
  else if Py.startswith suffix end_ then (-1)%Z
  else 0%Z.

(** The nesting depth after the character of index [i]: the opening
    delimiters at the indices up to [i], less the closing ones. *)
Fixpoint depth (start end_ s : str) (i : nat) : Z :=
  match s with
  | [] => 0%Z
  | _ :: s' =>
      Z.add (delta start end_ s)
        match i with
        | O => 0%Z
        | S i' => depth start end_ s' i'
        end
  end.

(** The link pattern after its bracket and its type. *)
Definition link_tail : Re.regex :=
  Re.Cat (Re.Group "linktext" Re.DotStar)
 (Re.Cat (Re.Lit "](")
 (Re.Cat (Re.Group "linkuri" Re.DotStar)
         (Re.Lit ")"))).

(** The text of a link ends after [n] characters of [w] and its URI after
    [n2] more: both on one line, the first followed by a closing bracket
    and an opening parenthesis, the second by a closing parenthesis. *)
Definition tail_at (w : str) (n n2 : nat) : Prop :=
  reach n w /\ Py.startswith (skipn n w) "](" = true
  /\ reach n2 (skipn (n + 2) w)
  /\ Py.startswith (skipn n2 (skipn (n + 2) w)) ")" = true.

(** A text that holds a link pattern. *)
Definition holds_link (text : str) : Prop :=
  exists a b c d : str,
    text = a ++ "[" ++ b ++ "](" ++ c ++ ")" ++ d
    /\ ~ In Py.LF b /\ ~ In Py.LF c.

(** What [procStr] leaves of a text: the text, unless it is empty. *)
Definition text_elements (s : str) : list elem :=
  match s with [] => [] | _ => [Text s] end.

(** The span funyu builds for a plain content, and the one hunyu builds. *)
Definition funyu_span (b : bracket) (body : str) : elem :=
  match b with
  | BKeyword => Keyword (text_elements body)
  | BEmphasis => Emphasis (text_elements body)
  | BCode => Code [] body
  end.


(** The line [pre], an opening delimiter, [body], the closing delimiter,
    [post]. *)
Definition span_line (pre : str) (b : bracket) (body post : str) : str :=
  pre ++ opening b ++ body ++ closing b ++ post.

(** One alternative of hunyu's pattern: a span between two delimiters. *)
Definition bracketed (o : str) (name : string) (cl : str) : Re.regex :=
  Re.Cat (Re.Lit o) (Re.Cat (Re.Group name Re.DotStar) (Re.Lit cl)).

(** The name of the group hunyu's pattern has for a bracket. *)
Definition group_name (b : bracket) : string :=
  match b with
  | BKeyword => "keyword"
  | BEmphasis => "emphasis"
  | BCode => "code"
  end.


(** The two exceptions [Block.feed] catches from its last element. *)
Definition is_signal (e : exn) : bool :=
  match e with
  | EndOfBlock _ | IndexError => true
  | _ => false
  end.

(** An outcome that is none of the two. *)
Definition no_signal (o : outcome) : Prop :=
  match o with
  | Raise e => is_signal e = false
  | Ok _ => True
  end.

(** Blocks no higher than a bound. *)
Definition lowest (bound : nat) (elements : list block) : Prop :=
  Forall (fun c => Blocks.height c <= bound) elements.

(** A pattern that starts, in each of its alternatives, with a literal
    character: it matches no empty text. *)
Fixpoint guarded (r : Re.regex) : bool :=
  match r with
  | Re.Cat (Re.Lit (_ :: _)) _ => true
  | Re.Alt r1 r2 => guarded r1 && guarded r2
  | _ => false
  end.

(** Groups of at most [bound] characters. *)
Definition bounded (bound : nat) (g : Re.groups) : Prop :=
  Forall (fun nt : string * str => length (snd nt) <= bound) g.

(** A match in a string [s] that is not empty, whose groups are shorter
    than [s]. *)
Definition short (s : str) (m : Re.Match) : Prop :=
  0 < length s
  /\ forall name t, Re.group m name = Some t -> length t < length s.

(** An outcome that is a return or the end of a block. *)
Definition quiet (o : outcome) : Prop :=
  match o with
  | Ok _ | Raise (EndOfBlock _) => True
  | Raise _ => False
  end.

(** The entity [CodeBlock.feed] writes for a character. *)
Definition html_escape (c : ascii) : str :=
  if Ascii.eqb c "&" then "&amp;"
  else if Ascii.eqb c "<" then "&lt;"
  else if Ascii.eqb c ">" then "&gt;"
  else [c].

(** A text that opens and closes no tag. *)
Definition tagless (s : str) : Prop := ~ In "<"%char s /\ ~ In ">"%char s.

(** What [indent] makes of a line. *)
Definition indented (line : str) : str :=
  match line with [] => [] | _ => Py.TAB :: line end.

(** A line that opens no block: it starts with none of the markers of
    [Block.feed] and is not the marker of embedded HTML. *)
Definition no_trigger (line : str) : Prop :=
  Py.startswith line "-- " = false /\ Py.startswith line "```" = false
  /\ Py.startswith line "p.s. " = false /\ Py.strip line <> "(((".

(** The driver once it has counted a call. *)
Definition counted (self : Funyu) : Funyu :=
  {| level := level self; elements := elements self;
     metadata := metadata self; line_number := line_number self + 1 |}.

(** The driver with other elements. *)
Definition with_elements (self : Funyu) (elements' : list block) : Funyu :=
  {| level := level self; elements := elements';
     metadata := metadata self; line_number := line_number self |}.

Definition h_with_elements (self : Hunyu) (elements' : list block) : Hunyu :=
  {| h_level := h_level self; h_elements := elements';
     h_metadata := h_metadata self |}.

(** The lines [as_funyu] writes for a block of embedded HTML. *)
Definition embedded_lines (lines : list str) : list str :=
  match lines with [] => [[]] | _ => lines end.


(** The driver after [n] more calls that gave it other elements. *)
Definition advanced (self : Funyu) (n : nat) (elements' : list block) : Funyu :=
  {| level := level self; elements := elements';
     metadata := metadata self; line_number := line_number self + n |}.

(** The levels in a block whose parent has the level [parent]: a section
    and a postscript have one more than their parent, and at least 1, and
    so have their own elements, one more again. *)
#[warnings="-register-all"]
Inductive levelled : Z -> block -> Prop :=
| levelled_Paragraph (parent : Z) (ended : bool) (elements : list Line) :
    levelled parent (Paragraph ended elements)
| levelled_Section (parent : Z) (ended : bool) (title : str)
    (elements : list block) :
    (1 <= parent + 1)%Z -> Forall (levelled (parent + 1)) elements ->
    levelled parent (Section ended (parent + 1) title elements)
| levelled_PostScript (parent : Z) (ended : bool) (d : date)
    (elements : list block) :
    (1 <= parent + 1)%Z -> Forall (levelled (parent + 1)) elements ->
    levelled parent (PostScript ended (parent + 1) d elements)
| levelled_CodeBlock (parent : Z) (ended : bool) (type : option str)
    (elements : list str) :
    levelled parent (CodeBlock ended type elements)
| levelled_EmbeddedHTML (parent : Z) (ended : bool) (elements : list str) :
    levelled parent (EmbeddedHTML ended elements).

(** The errors of the input: a syntax error as its constructor builds it,
    and the [ValueError] of a malformed date. *)
Definition input_error (e : exn) : Prop :=
  (exists message, e = syntax_error message)
  \/ (exists message, e = ValueError message).

(** An outcome that is a return, a signal or an error of the input. *)
Definition sound (o : outcome) : Prop :=
  match o with
  | Ok _ => True
  | Raise e => is_signal e = true \/ input_error e
  end.

(** The exceptions funyu's driver lets out, and those of hunyu's. *)
Definition funyu_error (e : exn) : Prop :=
  (exists message n line, e = SyntaxError message (Some n) (Some line))
  \/ (exists message, e = ValueError message).

Definition hunyu_error (e : exn) : Prop :=
  (exists message, e = SyntaxError message None None)
  \/ (exists message, e = ValueError message).

(** The type of a code block as [Block.feed] reads it back from the line
    [as_funyu] writes: stripped, and none if nothing is left. *)
Definition reread_type (type : option str) : option str :=
  match type with
  | Some t => match Py.strip t with [] => None | u => Some u end
  | None => None
  end.

(** What [as_funyu] writes after the backquotes for the type. *)
Definition type_text (type : option str) : str :=
  match type with Some t => " " ++ t | None => [] end.

(** A line of text without link: it holds no line boundary, opens no
    block, is not blank, and the link pattern matches nowhere in it. *)
Definition text_line (l : str) : Prop :=
  nolb l /\ no_trigger l /\ ~ blank l /\ Re.search funyu.link l = None.

(** Lines, each closed by a line feed. *)
Definition unlines (lines : list str) : str :=
  concat (map (fun l => l ++ [Py.LF]) lines).

(** An outcome less the line a syntax error carries. *)
Definition erase_line (o : outcome) : outcome :=
  match o with
  | Raise (SyntaxError message _ _) => Raise (SyntaxError message None None)
  | _ => o
  end.

(** A document of funyu and one of hunyu that hold the same. *)
Definition same_document (f : Funyu) (h : Hunyu) : Prop :=
  level f = h_level h /\ elements f = h_elements h /\ metadata f = h_metadata h.

(** The text of a document: the lines of its metadata, a blank line, the
    lines of a paragraph. *)
Definition document_text (its : list (str * str)) (lines : list str) : str :=
  unlines (map item_line its) ++ [Py.LF] ++ unlines lines.

(** The line boundaries of [splitlines] other than the line feed: CR, VT,
    FF, FS, GS, RS and NEL. *)
Definition other_line_breaks : list ascii :=
  [Py.CR; "011"%char; "012"%char; "028"%char; "029"%char; "030"%char;
   "133"%char].

(** A metadata line whose value holds the character [c]. *)
Definition value_line (c : ascii) : str := "k: a" ++ [c] ++ "b".

(** * Properties *)

(** ** Python strings *)

Lemma eqb_refl (s : str) : Py.eqb s s = true.
Proof.
  induction s as [|c s IH]; simpl; [reflexivity|].
  now rewrite Ascii.eqb_refl.
Qed.

Lemma eqb_eq (s t : str) : Py.eqb s t = true <-> s = t.
Proof.
  split; [|intros ->; apply eqb_refl].
  revert t; induction s as [|c s IH]; intros [|d t]; simpl; try easy.
  rewrite andb_true_iff, Ascii.eqb_eq.
  intros [-> Hst]. f_equal. now apply IH.
Qed.

Lemma eqb_neq (s t : str) : Py.eqb s t = false <-> s <> t.
Proof.
  rewrite <- eqb_eq. destruct (Py.eqb s t); split; congruence.
Qed.


Lemma startswith_inv (s p : str) :
  Py.startswith s p = true -> exists rest, s = p ++ rest.
Proof.
  revert s; induction p as [|c p IH]; intros s; simpl.
  - intros _. now exists s.
  - destruct s as [|d s]; [discriminate|].
    rewrite andb_true_iff, Ascii.eqb_eq. intros [-> Hs].
    destruct (IH _ Hs) as [rest ->]. now exists rest.
Qed.

(** A string does not start with a non-empty prefix whose first character
    it does not start with. *)
Lemma startswith_head (c d : ascii) (s p : str) :
  c <> d -> Py.startswith (c :: s) (d :: p) = false.
Proof.
  intros Hcd. simpl. apply andb_false_iff. left. now apply Ascii.eqb_neq.
Qed.

Lemma contains_char (c : ascii) (s : str) :
  Py.contains [c] s = true <-> In c s.
Proof.
  induction s as [|d s IH]; simpl.
  - split; [discriminate|tauto].
  - rewrite andb_true_r, orb_true_iff, IH, Ascii.eqb_eq. intuition congruence.
Qed.

Lemma contains_char_false (c : ascii) (s : str) :
  Py.contains [c] s = false <-> ~ In c s.
Proof.
  rewrite <- contains_char. destruct (Py.contains [c] s); split; congruence.
Qed.

(** ** The document drivers *)

Section DriverFacts.

Context `{PyLib}.

(** [Funyu.feed] counts the call before anything else. *)
Lemma Funyu_feed_line_number (self : Funyu) (line : str) :
  line_number (fst (Funyu_feed self line)) = line_number self + 1.
Proof.
  unfold Funyu_feed.
  destruct (Py.contains [Py.LF] line); [reflexivity|].
  unfold Funyu_feed_line; simpl.
  destruct (ended (metadata self)).
  - destruct (Blocks.Block_feed _ _ _ _) as [els [u|[]]]; reflexivity.
  - destruct (Blocks.MetaData_feed _ _) as [m [u|[]]]; reflexivity.
Qed.

(** A syntax error leaves [Funyu.feed] with the number of the call and
    the line. *)
Lemma Funyu_feed_syntax_error (self self' : Funyu) (line message : str)
    (ln : option nat) (ls : option str) :
  Funyu_feed self line = (self', Raise (SyntaxError message ln ls)) ->
  ln = Some (line_number self + 1) /\ ls = Some line.
Proof.
  intros Hfeed.
  pose proof (Funyu_feed_line_number self line) as Hn.
  rewrite Hfeed in Hn; simpl in Hn.
  revert Hfeed. unfold Funyu_feed.
  destruct (Py.contains [Py.LF] line); [discriminate|].
  destruct (Funyu_feed_line _ line) as [s1 [u|e]]; [discriminate|].
  destruct e; intros Heq; inversion Heq; subst.
  split; [now rewrite Hn | reflexivity].
Qed.


(** A line with a line feed is refused once counted. *)
Lemma Funyu_feed_line_break (self : Funyu) (line : str) :
  In Py.LF line ->
  Funyu_feed self line
  = ({| level := level self; elements := elements self;
        metadata := metadata self; line_number := line_number self + 1 |},
     Raise (ValueError line_break_message)).
Proof.
  intros Hin. apply contains_char in Hin.
  unfold Funyu_feed. now rewrite Hin.
Qed.

End DriverFacts.


(** C9: a line that holds a line feed makes [feed] raise the
    [ValueError] of the precondition, whatever the state of the document,
    before any parsing: the elements and the metadata are as they were
    (in funyu only the line counter has moved). *)
Theorem feed_rejects_line_break `{PyLib} (f : Funyu) (h : Hunyu) (line : str) :
  In Py.LF line ->
  Funyu_feed f line
  = ({| level := level f; elements := elements f; metadata := metadata f;
        line_number := line_number f + 1 |},
     Raise (ValueError line_break_message))
  /\ Hunyu_feed h line = (h, Raise (ValueError line_break_message)).
Proof.
  intros Hin. split; [now apply Funyu_feed_line_break|].
  apply contains_char in Hin. unfold Hunyu_feed. now rewrite Hin.
Qed.

Lemma feed_rejects_line_break_witness :
  In Py.LF ("can not include " ++ [Py.LF] ++ ".")
  /\ Funyu_feed (H := example_lib) (Funyu_init 1) ("can not include " ++ [Py.LF] ++ ".")
     = ({| level := 0; elements := []; metadata := MetaData_init; line_number := 1 |},
        Raise (ValueError line_break_message))
  /\ Hunyu_feed (H := example_lib) (Hunyu_init 1) ("can not include " ++ [Py.LF] ++ ".")
     = (Hunyu_init 1, Raise (ValueError line_break_message)).
Proof.
  assert (Hin : In Py.LF ("can not include " ++ [Py.LF] ++ ".")).
  { apply contains_char. reflexivity. }
  split; [exact Hin|].
  exact (@feed_rejects_line_break example_lib (Funyu_init 1) (Hunyu_init 1) _ Hin).
Defined.

(** C9 fails as stated for the line breaks other than the line feed:
    [feed] tests for the line feed alone, so that a line that holds one of
    the other boundaries at which [splitlines] cuts is taken as one line,
    while the metadata block is open (the character goes into the value)
    and in the body (it goes into the paragraph), in funyu and in hunyu. *)
Lemma feed_accepts_other_line_breaks :
  Forall
    (fun c =>
       Py.islinebreak c = true
       /\ Py.splitlines (value_line c) = ["k: a"; "b"]
       /\ Funyu_feed (H := example_lib) (Funyu_init 1) (value_line c)
          = ({| level := 0; elements := [];
                metadata := {| ended := false;
                               items := [("k", "a" ++ [c] ++ "b")] |};
                line_number := 1 |}, Return)
       /\ Hunyu_feed (H := example_lib) (Hunyu_init 1) (value_line c)
          = ({| h_level := 0; h_elements := [];
                h_metadata := {| ended := false;
                                 items := [("k", "a" ++ [c] ++ "b")] |} |},
             Return)
       /\ Funyu_feed_all (H := example_lib) (Funyu_init 1) [""; "a" ++ [c] ++ "b"]
          = ({| level := 0;
                elements := [Paragraph false [[Text ("a" ++ [c] ++ "b")]]];
                metadata := {| ended := true; items := [] |};
                line_number := 2 |}, Return)
       /\ Hunyu_feed_all (H := example_lib) (Hunyu_init 1) [""; "a" ++ [c] ++ "b"]
          = ({| h_level := 0;
                h_elements := [Paragraph false [[Text ("a" ++ [c] ++ "b")]]];
                h_metadata := {| ended := true; items := [] |} |}, Return))
    other_line_breaks.
Proof. repeat constructor; vm_compute; reflexivity. Qed.

(** C10: in funyu a line rejected for its line feed has already been
    counted: the driver comes out of the rejected call changed, and a
    syntax error of the next call carries a number that counts the rejected
    line. *)
Theorem rejected_line_is_counted `{PyLib} (f : Funyu) (line : str) :
  In Py.LF line ->
  let f' := fst (Funyu_feed f line) in
  snd (Funyu_feed f line) = Raise (ValueError line_break_message)
  /\ line_number f' = line_number f + 1
  /\ f' <> f
  /\ forall (next message : str) (ln : option nat) (ls : option str),
       snd (Funyu_feed f' next) = Raise (SyntaxError message ln ls) ->
       ln = Some (line_number f + 2).
Proof.
  intros Hin f'.
  pose proof (Funyu_feed_line_break f line Hin) as Hf.
  subst f'. rewrite Hf; simpl.
  repeat split.
  - destruct f as [lv els md n]; simpl. intros Heq; inversion Heq; lia.
  - intros next message ln ls Hnext.
    destruct (Funyu_feed _ next) as [f2 o] eqn:Hfeed; simpl in Hnext; subst o.
    apply Funyu_feed_syntax_error in Hfeed. simpl in Hfeed.
    destruct Hfeed as [-> _]. f_equal; lia.
Qed.

Lemma rejected_line_is_counted_witness :
  let bad := "a" ++ [Py.LF] ++ "b" in
  let f' := fst (Funyu_feed (H := example_lib) (Funyu_init 1) bad) in
  line_number f' = 1
  /\ f' <> Funyu_init 1
  /\ Funyu_feed (H := example_lib) f' ":invalid syntax"
     = ({| level := 0; elements := []; metadata := MetaData_init; line_number := 2 |},
        Raise (SyntaxError key_required_message (Some 2) (Some ":invalid syntax"))).
Proof.
  intros bad f'.
  assert (Hin : In Py.LF bad) by (apply contains_char; reflexivity).
  destruct (@rejected_line_is_counted example_lib (Funyu_init 1) bad Hin)
    as (_ & Hn & Hneq & _).
  split; [exact Hn | split; [exact Hneq | reflexivity]].
Defined.

(** ** White space *)

Lemma lstrip_cases (s : str) :
  Py.lstrip s = [] \/ exists c t, Py.lstrip s = c :: t /\ Py.isspace c = false.
Proof.
  induction s as [|c s IH]; simpl; [now left|].
  destruct (Py.isspace c) eqn:Hc; [exact IH|].
  right. now exists c, s.
Qed.

Lemma lstrip_nil_iff (s : str) : Py.lstrip s = [] <-> blank s.
Proof.
  unfold blank. induction s as [|c s IH]; simpl.
  - split; [constructor|reflexivity].
  - destruct (Py.isspace c) eqn:Hc.
    + rewrite IH. split; [now constructor|now inversion 1].
    + split; [discriminate|]. inversion 1; congruence.
Qed.

Lemma lstrip_app_nonspace (s : str) (c : ascii) (t : str) :
  Py.isspace c = false -> Py.lstrip (s ++ c :: t) <> [].
Proof.
  intros Hc. induction s as [|d s IH]; simpl.
  - now rewrite Hc.
  - destruct (Py.isspace d); [exact IH|discriminate].
Qed.

Lemma strip_nil_iff (s : str) : Py.strip s = [] <-> blank s.
Proof.
  unfold Py.strip, Py.rstrip. rewrite <- lstrip_nil_iff. split.
  - intros Hrev.
    destruct (lstrip_cases s) as [Hnil|(c & t & Hs & Hc)]; [exact Hnil|].
    exfalso. rewrite Hs in Hrev. simpl in Hrev.
    apply (f_equal (@rev ascii)) in Hrev. rewrite rev_involutive in Hrev.
    simpl in Hrev. now apply (lstrip_app_nonspace (rev t) c []) in Hrev.
  - now intros ->.
Qed.

(** No opening marker of a block starts a blank line. *)
Lemma blank_no_trigger (line : str) :
  blank line ->
  Py.startswith line "-- " = false /\ Py.startswith line "```" = false
  /\ Py.startswith line "p.s. " = false.
Proof.
  intros Hb. destruct line as [|c line]; [now repeat split|].
  inversion Hb as [|? ? Hc _]; subst.
  repeat split; apply startswith_head; intros ->; discriminate.
Qed.

(** ** Blocks *)

Section BlockFacts.

Context `{PyLib}.
Variable String_init : str -> result (list elem).
Variable feed : block -> str -> block * outcome.

Lemma feed_last_app (before : list block) (b : block) (line : str) :
  Blocks.feed_last feed (before ++ [b]) line
  = (before ++ [fst (feed b line)], snd (feed b line)).
Proof.
  induction before as [|a before IH]; simpl.
  - now destruct (feed b line).
  - rewrite IH. now destruct before.
Qed.

Lemma last_is_open_child_app (before : list block) (b : block) :
  Blocks.last_is_open_child (before ++ [b]) = negb (is_Paragraph b).
Proof. unfold Blocks.last_is_open_child. now rewrite rev_unit. Qed.

End BlockFacts.

(** The dispatch on a paragraph is [Paragraph.feed]. *)
Lemma feed_Paragraph `{PyLib} (String_init : str -> result (list elem))
    (ended : bool) (elements : list Line) (line : str) :
  Blocks.feed String_init (Paragraph ended elements) line
  = Blocks.Paragraph_feed String_init ended elements line.
Proof. reflexivity. Qed.




(** C7, as the code has it: on a blank line, as on any line once ended,
    [Paragraph.feed] sets [ended] and raises the end-of-block signal with
    the line as its remainder; it is [Block.feed] of the parent that lets a
    blank remainder go and returns. *)
Theorem paragraph_end_of_block `{PyLib} (String_init : str -> result (list elem))
    (ended : bool) (elements : list Line) (line : str) :
  (blank line \/ ended = true ->
     Blocks.Paragraph_feed String_init ended elements line
     = (Paragraph true elements, Raise (EndOfBlock (Some line))))
  /\ (blank line ->
      forall (level : Z) (before : list block),
        Blocks.Block_feed (Blocks.feed String_init) level
          (before ++ [Paragraph ended elements]) line
        = (before ++ [Paragraph true elements], Return)).
Proof.
  assert (Hfeed : blank line \/ ended = true ->
    Blocks.Paragraph_feed String_init ended elements line
    = (Paragraph true elements, Raise (EndOfBlock (Some line)))).
  { intros Hend. unfold Blocks.Paragraph_feed.
    replace (Py.eqb (Py.strip line) "" || ended) with true; [reflexivity|].
    symmetry. apply orb_true_iff.
    destruct Hend as [Hb| ->]; [left|now right].
    apply eqb_eq. now apply strip_nil_iff. }
  split; [exact Hfeed|].
  intros Hb level before.
  destruct (blank_no_trigger Hb) as (Hs & Hc & Hp).
  assert (Hstrip : Py.strip line = []) by now apply strip_nil_iff.
  unfold Blocks.Block_feed. rewrite last_is_open_child_app. simpl.
  unfold Blocks.Block_feed_new. rewrite Hs, Hc, Hp, Hstrip.
  rewrite feed_last_app, feed_Paragraph, Hfeed by now left.
  reflexivity.
Qed.

Lemma paragraph_end_of_block_witness :
  Blocks.Paragraph_feed funyu.String_init false [[Text "hello"]] " "
  = (Paragraph true [[Text "hello"]], Raise (EndOfBlock (Some " ")))
  /\ Blocks.Block_feed (H := example_lib) (Blocks.feed funyu.String_init) 0
       ([] ++ [Paragraph false [[Text "hello"]]]) " "
     = ([] ++ [Paragraph true [[Text "hello"]]], Return).
Proof.
  assert (Hb : blank " ") by (repeat constructor).
  destruct (@paragraph_end_of_block example_lib funyu.String_init false
              [[Text "hello"]] " ") as [Hfeed Hparent].
  split; [exact (Hfeed (or_introl Hb)) | exact (Hparent Hb 0%Z [])].
Defined.

(** C7 fails as stated: the blank line that ends a paragraph comes back
    to the parent as the remainder of the end-of-block signal. *)
Lemma paragraph_reports_blank_line :
  Blocks.Paragraph_feed funyu.String_init false [[Text "hello"]] " "
  = (Paragraph true [[Text "hello"]], Raise (EndOfBlock (Some " ")))
  /\ Blocks.Paragraph_feed hunyu.String_init false [[Text "hello"]] " "
     = (Paragraph true [[Text "hello"]], Raise (EndOfBlock (Some " "))).
Proof. split; reflexivity. Qed.

(** C8: when [Block.feed] comes to its triggers with a line that starts
    with three backquotes, it appends a code block whose type is what is
    left of the line after its first four characters, stripped, and [None]
    when that is empty; on a line that starts with the three backquotes and
    a blank, that is the stripped text after them. *)
Theorem code_block_type `{PyLib} (feed : block -> str -> block * outcome)
    (level : Z) (elements : list block) (line : str) :
  Py.startswith line "```" = true ->
  let type := match Py.strip (skipn 4 line) with [] => None | t => Some t end in
  Blocks.Block_feed_new feed level elements line
  = (elements ++ [CodeBlock false type []], Return)
  /\ (Blocks.last_is_open_child elements = false ->
      Blocks.Block_feed feed level elements line
      = (elements ++ [CodeBlock false type []], Return))
  /\ (forall rest : str, line = "``` " ++ rest ->
      type = match Py.strip rest with [] => None | t => Some t end).
Proof.
  intros Hstart type.
  assert (Hnew : Blocks.Block_feed_new feed level elements line
                 = (elements ++ [CodeBlock false type []], Return)).
  { unfold Blocks.Block_feed_new. rewrite Hstart.
    destruct (startswith_inv _ _ Hstart) as [rest ->]. reflexivity. }
  split; [exact Hnew|]. split.
  - intros Hlast. unfold Blocks.Block_feed. now rewrite Hlast.
  - intros rest ->. reflexivity.
Qed.

Lemma code_block_type_witness :
  Blocks.Block_feed_new (H := example_lib) (Blocks.feed funyu.String_init) 0 []
    "``` html "
  = ([CodeBlock false (Some "html") []], Return)
  /\ Blocks.Block_feed (H := example_lib) (Blocks.feed funyu.String_init) 0 []
       "``` html "
     = ([CodeBlock false (Some "html") []], Return).
Proof.
  destruct (@code_block_type example_lib (Blocks.feed funyu.String_init) 0%Z []
              "``` html " eq_refl) as (Hnew & Hfeed & _).
  split; [exact Hnew | exact (Hfeed eq_refl)].
Defined.

(** ** Stripping *)

Lemma lstrip_fixed (c : ascii) (t : str) :
  Py.isspace c = false -> Py.lstrip (c :: t) = c :: t.
Proof. intros Hc; simpl; now rewrite Hc. Qed.

Lemma lstrip_idem (s : str) : Py.lstrip (Py.lstrip s) = Py.lstrip s.
Proof.
  destruct (lstrip_cases s) as [->|(c & t & -> & Hc)]; [reflexivity|].
  now apply lstrip_fixed.
Qed.

Lemma lstrip_suffix (s : str) : exists p, s = p ++ Py.lstrip s /\ blank p.
Proof.
  induction s as [|c s (p & Hp & Hb)]; simpl.
  - exists []. split; [reflexivity|constructor].
  - destruct (Py.isspace c) eqn:Hc.
    + exists (c :: p). split; [simpl; now f_equal|now constructor].
    + exists []. split; [reflexivity|constructor].
Qed.

Lemma rstrip_prefix (s : str) : exists q, s = Py.rstrip s ++ q /\ blank q.
Proof.
  unfold Py.rstrip. destruct (lstrip_suffix (rev s)) as (p & Hp & Hb).
  exists (rev p). split.
  - rewrite <- rev_app_distr, <- Hp. now rewrite rev_involutive.
  - unfold blank. now apply Forall_rev.
Qed.

Lemma lstrip_rstrip (s : str) :
  Py.lstrip s = s -> Py.lstrip (Py.rstrip s) = Py.rstrip s.
Proof.
  intros Hs. destruct (rstrip_prefix s) as (q & Hq & _).
  destruct (Py.rstrip s) as [|c t]; [reflexivity|].
  apply lstrip_fixed.
  destruct (lstrip_cases s) as [Hnil|(d & u & Hd & Hc)].
  - rewrite Hs in Hnil. rewrite Hnil in Hq. discriminate.
  - rewrite Hs in Hd. rewrite Hd in Hq. now inversion Hq; subst.
Qed.

Lemma strip_trimmed (s : str) : trimmed (Py.strip s).
Proof.
  split.
  - apply lstrip_rstrip, lstrip_idem.
  - unfold Py.strip, Py.rstrip. rewrite rev_involutive. apply lstrip_idem.
Qed.

Lemma trimmed_strip (s : str) : trimmed s -> Py.strip s = s.
Proof.
  intros [Hl Hr]. unfold Py.strip, Py.rstrip.
  rewrite Hl, Hr. apply rev_involutive.
Qed.

Lemma strip_idem (s : str) : Py.strip (Py.strip s) = Py.strip s.
Proof. apply trimmed_strip, strip_trimmed. Qed.

(** [strip] removes blank text at the two ends. *)
Lemma strip_decompose (s : str) :
  exists p q, s = p ++ Py.strip s ++ q /\ blank p /\ blank q.
Proof.
  destruct (lstrip_suffix s) as (p & Hp & Hbp).
  destruct (rstrip_prefix (Py.lstrip s)) as (q & Hq & Hbq).
  exists p, q. unfold Py.strip. now rewrite <- Hq.
Qed.

Lemma strip_incl (s : str) (c : ascii) : In c (Py.strip s) -> In c s.
Proof.
  destruct (strip_decompose s) as (p & q & Hs & _).
  intros Hin. rewrite Hs. apply in_or_app. right. apply in_or_app. now left.
Qed.

(** A blank in front of a trimmed text is stripped away. *)
Lemma strip_space_trimmed (v : str) : trimmed v -> Py.strip (" " ++ v) = v.
Proof. intros Hv. now apply trimmed_strip in Hv. Qed.

(** A trimmed text that is not empty is not blank. *)
Lemma trimmed_not_blank (k rest : str) :
  trimmed k -> k <> [] -> ~ blank (k ++ rest).
Proof.
  intros [Hl _] Hk Hb. destruct k as [|c k]; [congruence|].
  inversion Hb as [|? ? Hc _]; subst.
  simpl in Hl. rewrite Hc in Hl.
  destruct (lstrip_suffix k) as (p & Hp & _).
  rewrite Hl in Hp. apply (f_equal (@length ascii)) in Hp.
  rewrite length_app in Hp. simpl in Hp. lia.
Qed.

(** ** Splitting and joining *)

Lemma first_occurrence (c : ascii) (s : str) :
  In c s -> exists k rest, s = k ++ c :: rest /\ ~ In c k.
Proof.
  induction s as [|d s IH]; [easy|].
  destruct (Ascii.ascii_dec d c) as [->|Hdc].
  - intros _. exists [], s. now split.
  - intros [Heq|Hin]; [congruence|].
    destruct (IH Hin) as (k & rest & -> & Hk).
    exists (d :: k), rest. split; [reflexivity|].
    intros [Heq|Hin']; [congruence|tauto].
Qed.

Lemma split_from_first (sep : ascii) (k rest cur : str) :
  ~ In sep k ->
  Py.split_from sep (k ++ sep :: rest) cur
  = (cur ++ k) :: Py.split_from sep rest [].
Proof.
  revert cur; induction k as [|c k IH]; intros cur Hk; simpl.
  - now rewrite Ascii.eqb_refl, app_nil_r.
  - destruct (Ascii.eqb c sep) eqn:Hc.
    + apply Ascii.eqb_eq in Hc. subst. exfalso. apply Hk. now left.
    + rewrite IH by (intros Hin; apply Hk; now right).
      now rewrite <- app_assoc.
Qed.

Lemma split_from_not_nil (sep : ascii) (s cur : str) :
  Py.split_from sep s cur <> [].
Proof.
  revert cur; induction s as [|c s IH]; intros cur; simpl; [discriminate|].
  destruct (Ascii.eqb c sep); [discriminate|apply IH].
Qed.

Lemma join_cons (sep x : str) (items : list str) :
  items <> [] -> Py.join sep (x :: items) = x ++ sep ++ Py.join sep items.
Proof. destruct items; [congruence|reflexivity]. Qed.

(** [sep.join(s.split(sep))] is [s]. *)
Lemma join_split_from (sep : ascii) (s cur : str) :
  Py.join [sep] (Py.split_from sep s cur) = cur ++ s.
Proof.
  revert cur; induction s as [|c s IH]; intros cur; simpl.
  - now rewrite app_nil_r.
  - destruct (Ascii.eqb c sep) eqn:Hc.
    + apply Ascii.eqb_eq in Hc. subst.
      rewrite join_cons by apply split_from_not_nil.
      now rewrite IH.
    + rewrite IH. now rewrite <- app_assoc.
Qed.

(** The first item of [split] and the others joined again: the text
    before the first separator and the text after it. *)
Lemma split_first (sep : ascii) (k rest : str) :
  ~ In sep k ->
  hd [] (Py.split sep (k ++ sep :: rest)) = k
  /\ Py.join [sep] (tl (Py.split sep (k ++ sep :: rest))) = rest.
Proof.
  intros Hk. unfold Py.split. rewrite split_from_first by exact Hk.
  simpl. split; [reflexivity|apply join_split_from].
Qed.

(** ** Lines *)

Lemma nolb_app (s t : str) : nolb (s ++ t) <-> nolb s /\ nolb t.
Proof. apply Forall_app. Qed.

Lemma nolb_no_LF (s : str) : nolb s -> ~ In Py.LF s.
Proof.
  intros Hs Hin. unfold nolb in Hs. rewrite Forall_forall in Hs.
  specialize (Hs _ Hin). discriminate.
Qed.

Lemma nolb_strip (s : str) : nolb s -> nolb (Py.strip s).
Proof.
  unfold nolb. rewrite !Forall_forall. intros Hs c Hc.
  apply Hs. now apply strip_incl.
Qed.

Lemma splitlines_from_nolb (s cur : str) (after_cr : bool) :
  nolb cur -> Forall nolb (Py.splitlines_from s cur after_cr).
Proof.
  revert cur after_cr; induction s as [|c s IH]; intros cur after_cr Hcur; simpl.
  - destruct cur; constructor; [exact Hcur|constructor].
  - destruct (after_cr && Ascii.eqb c Py.LF).
    + apply IH. constructor.
    + destruct (Py.islinebreak c) eqn:Hc.
      * constructor; [exact Hcur|]. apply IH. constructor.
      * apply IH. apply nolb_app. split; [exact Hcur|]. now repeat constructor.
Qed.

(** The lines of [splitlines] hold no line boundary. *)
Lemma splitlines_nolb (s : str) : Forall nolb (Py.splitlines s).
Proof. apply splitlines_from_nolb. constructor. Qed.

Lemma splitlines_from_line (l rest cur : str) :
  nolb l ->
  Py.splitlines_from (l ++ Py.LF :: rest) cur false
  = (cur ++ l) :: Py.splitlines_from rest [] false.
Proof.
  revert cur; induction l as [|c l IH]; intros cur Hl; simpl.
  - now rewrite app_nil_r.
  - inversion Hl as [|? ? Hc Hl']; subst. rewrite Hc.
    rewrite IH by exact Hl'. now rewrite <- app_assoc.
Qed.

(** Lines without line boundaries, joined by line feeds and closed by one,
    are split into themselves. *)
Lemma splitlines_join (l : str) (lines : list str) :
  Forall nolb (l :: lines) ->
  Py.splitlines (Py.join [Py.LF] (l :: lines) ++ [Py.LF]) = l :: lines.
Proof.
  unfold Py.splitlines. revert l; induction lines as [|l' lines IH]; intros l Hall.
  - inversion Hall; subst. simpl Py.join.
    now rewrite splitlines_from_line.
  - inversion Hall as [|? ? Hl Hrest]; subst.
    rewrite join_cons by discriminate. rewrite <- !app_assoc. simpl app at 2.
    rewrite splitlines_from_line by exact Hl. simpl app at 1.
    f_equal. now apply IH.
Qed.

(** ** The metadata block *)

Lemma dict_set_keys (key value : str) (d : list (str * str)) :
  In key (map fst d) -> map fst (dict_set key value d) = map fst d.
Proof.
  induction d as [|[k v] d IH]; simpl; [easy|].
  destruct (Py.eqb k key) eqn:Hk; [reflexivity|].
  apply eqb_neq in Hk. intros [Heq|Hin]; [congruence|].
  simpl. now rewrite IH.
Qed.

Lemma dict_set_new (key value : str) (d : list (str * str)) :
  ~ In key (map fst d) -> dict_set key value d = d ++ [(key, value)].
Proof.
  induction d as [|[k v] d IH]; simpl; [reflexivity|].
  intros Hnin. destruct (Py.eqb k key) eqn:Hk.
  - apply eqb_eq in Hk. tauto.
  - now rewrite IH by tauto.
Qed.

Lemma dict_set_ok (key value : str) (d : list (str * str)) :
  item_ok (key, value) -> dict_ok d -> dict_ok (dict_set key value d).
Proof.
  intros Hkv [Hall Hnd]. split.
  - clear Hnd. induction d as [|[k v] d IH]; simpl.
    + constructor; [exact Hkv|constructor].
    + inversion Hall as [|? ? Hk Hd]; subst.
      destruct (Py.eqb k key) eqn:Heq.
      * apply eqb_eq in Heq. subst. now constructor.
      * constructor; [exact Hk|now apply IH].
  - destruct (in_dec (list_eq_dec Ascii.ascii_dec) key (map fst d)) as [Hin|Hnin].
    + now rewrite dict_set_keys.
    + rewrite dict_set_new, map_app by exact Hnin. simpl.
      apply NoDup_app; [exact Hnd|repeat constructor; easy|].
      intros x Hx [<-|[]]. tauto.
Qed.

Section MetaDataFacts.

Context `{PyLib}.

(** Keys are split from values at the first colon. *)
Lemma MetaData_feed_key_value (self : MetaData) (k rest : str) :
  ended self = false -> ~ In ":"%char k -> Py.strip k <> [] ->
  Blocks.MetaData_feed self (k ++ ":" ++ rest)
  = ({| ended := false;
        items := dict_set (Py.strip k) (Py.strip rest) (items self) |},
     Return).
Proof.
  intros Hended Hk Hkey. unfold Blocks.MetaData_feed. rewrite Hended.
  assert (Hnb : Py.eqb (Py.strip (k ++ ":" ++ rest)) "" = false).
  { apply eqb_neq. rewrite strip_nil_iff. intros Hb.
    apply Hkey. apply strip_nil_iff.
    unfold blank in *. now apply Forall_app in Hb. }
  rewrite Hnb.
  assert (Hc : Py.contains ":" (k ++ ":" ++ rest) = true).
  { apply contains_char. apply in_or_app. right. now left. }
  rewrite Hc. simpl negb. cbv iota.
  destruct (split_first ":" k rest Hk) as [Hhd Htl].
  change (k ++ ":" ++ rest) with (k ++ ":"%char :: rest).
  rewrite Hhd, Htl.
  apply eqb_neq in Hkey. now rewrite Hkey.
Qed.

(** What a line without line boundary leaves in the dictionary. *)
Lemma MetaData_feed_ok (self : MetaData) (line : str) :
  nolb line -> dict_ok (items self) ->
  dict_ok (items (fst (Blocks.MetaData_feed self line))).
Proof.
  intros Hline Hok. unfold Blocks.MetaData_feed.
  destruct (ended self); [exact Hok|].
  destruct (Py.eqb (Py.strip line) ""); [exact Hok|].
  destruct (Py.contains ":" line) eqn:Hc; [|exact Hok]. simpl negb. cbv iota.
  apply contains_char in Hc.
  destruct (first_occurrence _ _ Hc) as (k & rest & -> & Hk).
  destruct (split_first ":" k rest Hk) as [Hhd Htl].
  rewrite Hhd, Htl.
  destruct (Py.eqb (Py.strip k) "") eqn:Hkey; [exact Hok|]. simpl.
  apply eqb_neq in Hkey. apply nolb_app in Hline. destruct Hline as [Hnk Hnr].
  inversion Hnr; subst.
  apply dict_set_ok; [|exact Hok].
  repeat split; simpl; try apply strip_trimmed; try now apply nolb_strip.
  - exact Hkey.
  - intros Hin. apply Hk. now apply strip_incl.
Qed.

(** The line of an entry is fed back as that entry. *)
Lemma MetaData_feed_item_line (self : MetaData) (kv : str * str) :
  ended self = false -> item_ok kv ->
  Blocks.MetaData_feed self (item_line kv)
  = ({| ended := false;
        items := dict_set (fst kv) (snd kv) (items self) |}, Return).
Proof.
  intros Hended (Hne & Hk & Hcolon & _ & Hv & _). unfold item_line.
  change (fst kv ++ ": " ++ snd kv) with (fst kv ++ ":" ++ (" " ++ snd kv)).
  rewrite MetaData_feed_key_value; auto.
  - now rewrite (trimmed_strip Hk), (strip_space_trimmed Hv).
  - now rewrite (trimmed_strip Hk).
Qed.

Lemma item_line_nolb (kv : str * str) : item_ok kv -> nolb (item_line kv).
Proof.
  intros (_ & _ & _ & Hk & _ & Hv). unfold item_line.
  apply nolb_app. split; [exact Hk|].
  apply nolb_app. split; [now repeat constructor|exact Hv].
Qed.

End MetaDataFacts.

Section MetaDataRoundTrip.

Context `{PyLib}.

Lemma contains_LF_nolb (line : str) : nolb line -> Py.contains [Py.LF] line = false.
Proof. intros Hl. apply contains_char_false. now apply nolb_no_LF. Qed.

(** The dictionary of the driver stays well formed along the lines of
    [splitlines], whatever becomes of the call. *)
Lemma Funyu_feed_dict_ok (self : Funyu) (line : str) :
  nolb line -> dict_ok (items (metadata self)) ->
  dict_ok (items (metadata (fst (Funyu_feed self line)))).
Proof.
  intros Hline Hok. unfold Funyu_feed, Funyu_feed_line.
  destruct (Py.contains [Py.LF] line); [exact Hok|]. simpl.
  destruct (ended (metadata self)).
  - destruct (Blocks.Block_feed _ _ _ _) as [els [u|[]]]; exact Hok.
  - pose proof (MetaData_feed_ok (metadata self) Hline Hok) as Hm.
    destruct (Blocks.MetaData_feed _ _) as [m [u|[]]]; exact Hm.
Qed.

Lemma Funyu_feed_all_dict_ok (lines : list str) :
  forall self : Funyu,
  Forall nolb lines -> dict_ok (items (metadata self)) ->
  dict_ok (items (metadata (fst (Funyu_feed_all self lines)))).
Proof.
  induction lines as [|l lines IH]; intros self Hall Hok; simpl; [exact Hok|].
  inversion Hall as [|? ? Hl Hrest]; subst.
  pose proof (Funyu_feed_dict_ok self Hl Hok) as H1.
  destruct (Funyu_feed self l) as [s1 [u|e]]; [now apply IH|exact H1].
Qed.

Lemma Hunyu_feed_dict_ok (self : Hunyu) (line : str) :
  nolb line -> dict_ok (items (h_metadata self)) ->
  dict_ok (items (h_metadata (fst (Hunyu_feed self line)))).
Proof.
  intros Hline Hok. unfold Hunyu_feed.
  destruct (Py.contains [Py.LF] line); [exact Hok|].
  destruct (ended (h_metadata self)).
  - destruct (Blocks.Block_feed _ _ _ _) as [els [u|[]]]; exact Hok.
  - pose proof (MetaData_feed_ok (h_metadata self) Hline Hok) as Hm.
    destruct (Blocks.MetaData_feed _ _) as [m [u|[]]]; exact Hm.
Qed.

Lemma Hunyu_feed_all_dict_ok (lines : list str) :
  forall self : Hunyu,
  Forall nolb lines -> dict_ok (items (h_metadata self)) ->
  dict_ok (items (h_metadata (fst (Hunyu_feed_all self lines)))).
Proof.
  induction lines as [|l lines IH]; intros self Hall Hok; simpl; [exact Hok|].
  inversion Hall as [|? ? Hl Hrest]; subst.
  pose proof (Hunyu_feed_dict_ok self Hl Hok) as H1.
  destruct (Hunyu_feed self l) as [s1 [u|e]]; [now apply IH|exact H1].
Qed.

(** Feeding the lines of the entries [its] to a driver whose metadata
    block is open and holds none of their keys adds the entries. *)
Lemma Funyu_feed_all_item_lines (its : list (str * str)) :
  forall self : Funyu,
  ended (metadata self) = false -> Forall item_ok its ->
  NoDup (map fst (items (metadata self)) ++ map fst its) ->
  exists doc : Funyu,
    Funyu_feed_all self (map item_line its) = (doc, Return)
    /\ items (metadata doc) = items (metadata self) ++ its
    /\ ended (metadata doc) = false.
Proof.
  induction its as [|kv its IH]; intros self Hended Hall Hnd; simpl.
  - exists self. now rewrite app_nil_r.
  - inversion Hall as [|? ? Hkv Hrest]; subst. destruct kv as [k v].
    unfold Funyu_feed, Funyu_feed_line.
    rewrite (contains_LF_nolb (item_line_nolb Hkv)). simpl.
    rewrite Hended. rewrite MetaData_feed_item_line; [|exact Hended|exact Hkv].
    simpl in Hnd. apply NoDup_remove in Hnd. destruct Hnd as [Hnd Hnin].
    rewrite dict_set_new by (intros Hin; apply Hnin, in_or_app; now left).
    edestruct IH as (doc & Hrun & Hitems & Hend); [| exact Hrest | | ].
    3: { exists doc. split; [exact Hrun|]. split; [|exact Hend].
         rewrite Hitems. simpl. now rewrite <- app_assoc. }
    + reflexivity.
    + simpl. rewrite map_app, <- app_assoc. simpl.
      apply NoDup_Add with (a := k) (l := map fst (items (metadata self)) ++ map fst its).
      * apply Add_app.
      * split; [exact Hnd|exact Hnin].
Qed.

Lemma Hunyu_feed_all_item_lines (its : list (str * str)) :
  forall self : Hunyu,
  ended (h_metadata self) = false -> Forall item_ok its ->
  NoDup (map fst (items (h_metadata self)) ++ map fst its) ->
  exists doc : Hunyu,
    Hunyu_feed_all self (map item_line its) = (doc, Return)
    /\ items (h_metadata doc) = items (h_metadata self) ++ its
    /\ ended (h_metadata doc) = false.
Proof.
  induction its as [|kv its IH]; intros self Hended Hall Hnd; simpl.
  - exists self. now rewrite app_nil_r.
  - inversion Hall as [|? ? Hkv Hrest]; subst. destruct kv as [k v].
    unfold Hunyu_feed.
    rewrite (contains_LF_nolb (item_line_nolb Hkv)).
    rewrite Hended. rewrite MetaData_feed_item_line; [|exact Hended|exact Hkv].
    simpl in Hnd. apply NoDup_remove in Hnd. destruct Hnd as [Hnd Hnin].
    rewrite dict_set_new by (intros Hin; apply Hnin, in_or_app; now left).
    edestruct IH as (doc & Hrun & Hitems & Hend); [| exact Hrest | | ].
    3: { exists doc. split; [exact Hrun|]. split; [|exact Hend].
         rewrite Hitems. simpl. now rewrite <- app_assoc. }
    + reflexivity.
    + simpl. rewrite map_app, <- app_assoc. simpl.
      apply NoDup_Add with (a := k) (l := map fst (items (h_metadata self)) ++ map fst its).
      * apply Add_app.
      * split; [exact Hnd|exact Hnin].
Qed.

(** The text [MetaData.as_funyu] writes, as [splitlines] cuts it. *)
Lemma splitlines_as_funyu (self : MetaData) :
  Forall item_ok (items self) ->
  Py.splitlines (Blocks.MetaData_as_funyu self)
  = match items self with
    | [] => [[]]
    | _ => map item_line (items self)
    end.
Proof.
  intros Hall. unfold Blocks.MetaData_as_funyu.
  change (fun kv : str * str => fst kv ++ ": " ++ snd kv) with item_line.
  destruct (items self) as [|kv its]; [reflexivity|].
  simpl map. apply splitlines_join.
  change (Forall nolb (map item_line (kv :: its))).
  apply Forall_map. eapply Forall_impl; [|exact Hall].
  intros a. apply item_line_nolb.
Qed.

End MetaDataRoundTrip.

(** C6: a metadata block whose keys and values hold no line boundary
    (the keys not empty, stripped and without colon, the values stripped,
    as [MetaData.feed] stores them), written by [as_funyu] and read by
    [parse] in a new document, comes out with the same keys and values in
    the same order, in funyu and in hunyu.  Every block [parse] has read,
    from any text, is such a block.  [MetaData.feed] takes as key the text
    before the first colon of a line and as value all the text after it,
    further colons included, both stripped. *)
Theorem metadata_round_trip `{PyLib} (initial_level : Z) :
  (forall self : MetaData,
     dict_ok (items self) ->
     (exists doc' : Funyu,
        Funyu_parse (Funyu_init initial_level) (Blocks.MetaData_as_funyu self)
        = (doc', Return)
        /\ items (metadata doc') = items self)
     /\ (exists doc' : Hunyu,
           Hunyu_parse (Hunyu_init initial_level) (Blocks.MetaData_as_funyu self)
           = (doc', Return)
           /\ items (h_metadata doc') = items self))
  /\ (forall text : str,
        dict_ok (items (metadata (fst (Funyu_parse (Funyu_init initial_level) text))))
        /\ dict_ok
             (items (h_metadata (fst (Hunyu_parse (Hunyu_init initial_level) text)))))
  /\ (forall (self : MetaData) (k rest : str),
        ended self = false -> ~ In ":"%char k -> Py.strip k <> [] ->
        Blocks.MetaData_feed self (k ++ ":" ++ rest)
        = ({| ended := false;
              items := dict_set (Py.strip k) (Py.strip rest) (items self) |},
           Return)).
Proof.
  assert (Hempty : dict_ok []) by (split; constructor).
  split; [|split; [|apply MetaData_feed_key_value]].
  - intros self [Hall Hnd]. split.
    + unfold Funyu_parse. rewrite (splitlines_as_funyu _ Hall).
      destruct (items self) as [|kv its] eqn:Hits.
      * eexists. split; reflexivity.
      * destruct (@Funyu_feed_all_item_lines _ (kv :: its) (Funyu_init initial_level))
          as (doc' & Hrun & Hitems & _); auto.
        exists doc'. now split.
    + unfold Hunyu_parse. rewrite (splitlines_as_funyu _ Hall).
      destruct (items self) as [|kv its] eqn:Hits.
      * eexists. split; reflexivity.
      * destruct (@Hunyu_feed_all_item_lines _ (kv :: its) (Hunyu_init initial_level))
          as (doc' & Hrun & Hitems & _); auto.
        exists doc'. now split.
  - intros text. split.
    + apply Funyu_feed_all_dict_ok; [apply splitlines_nolb|exact Hempty].
    + apply Hunyu_feed_all_dict_ok; [apply splitlines_nolb|exact Hempty].
Qed.

Lemma metadata_round_trip_witness :
  (exists doc' : Funyu,
     Funyu_parse (H := example_lib) (Funyu_init 1)
       ("title: test: x" ++ [Py.LF] ++ "url: http://blanktar.jp/" ++ [Py.LF])
     = (doc', Return)
     /\ items (metadata doc')
        = [("title", "test: x"); ("url", "http://blanktar.jp/")])
  /\ (exists doc' : Hunyu,
        Hunyu_parse (H := example_lib) (Hunyu_init 1)
          ("title: test: x" ++ [Py.LF] ++ "url: http://blanktar.jp/" ++ [Py.LF])
        = (doc', Return)
        /\ items (h_metadata doc')
           = [("title", "test: x"); ("url", "http://blanktar.jp/")]).
Proof.
  refine (proj1 (@metadata_round_trip example_lib 1%Z)
            {| ended := true;
               items := [("title", "test: x"); ("url", "http://blanktar.jp/")] |} _).
  split; simpl.
  - repeat apply Forall_cons; try apply Forall_nil;
      unfold item_ok, trimmed, nolb; simpl;
      (repeat split; try reflexivity; try discriminate;
       [intros Hin; simpl in Hin; intuition discriminate
       |repeat constructor|repeat constructor]).
  - repeat constructor; simpl; intuition discriminate.
Defined.

(** C6 fails as stated for the blocks [feed] builds from a line with a
    line boundary other than the line feed: the carriage return goes into
    the value, [as_funyu] writes it, and [parse] cuts the line there, so
    that the text of the block is read back with a syntax error at its
    second line and with the value cut short. *)
Lemma metadata_with_line_break_is_not_read_back :
  Funyu_feed (H := example_lib) (Funyu_init 1) (value_line Py.CR)
  = ({| level := 0; elements := [];
        metadata := {| ended := false;
                       items := [("k", "a" ++ [Py.CR] ++ "b")] |};
        line_number := 1 |}, Return)
  /\ Blocks.MetaData_as_funyu
       {| ended := false; items := [("k", "a" ++ [Py.CR] ++ "b")] |}
     = value_line Py.CR ++ [Py.LF]
  /\ Funyu_parse (H := example_lib) (Funyu_init 1) (value_line Py.CR ++ [Py.LF])
     = ({| level := 0; elements := [];
           metadata := {| ended := false; items := [("k", "a")] |};
           line_number := 2 |},
        Raise (SyntaxError metadata_colon_message (Some 2) (Some "b")))
  /\ Hunyu_parse (H := example_lib) (Hunyu_init 1) (value_line Py.CR ++ [Py.LF])
     = ({| h_level := 0; h_elements := [];
           h_metadata := {| ended := false; items := [("k", "a")] |} |},
        Raise (SyntaxError metadata_colon_message None None)).
Proof. repeat split; vm_compute; reflexivity. Qed.

(** ** The regular expression matcher *)

Section DotStar.

Variable R : Type.
Variable k : str -> option R.

Lemma reach_0 (s : str) : reach 0 s.
Proof. split; [lia|simpl; tauto]. Qed.

Lemma reach_S (n : nat) (c : ascii) (s : str) :
  reach (S n) (c :: s) <-> c <> Py.LF /\ reach n s.
Proof.
  unfold reach; simpl. split.
  - intros [Hle Hnin]. repeat split; [|lia|]; intuition congruence.
  - intros [Hc [Hle Hnin]]. split; [lia|]. intros [Heq|Hin]; congruence.
Qed.

(** [.*] fails only when the continuation fails wherever it may stop;
    a result of [.*] is a result of the continuation after a reachable
    number of characters, and the continuation fails after any larger
    one: the match is the longest. *)
Lemma dotstar_none (s : str) :
  Re.dotstar s k = None -> forall n, reach n s -> k (skipn n s) = None.
Proof.
  induction s as [|c s IH]; simpl; intros Hs n Hr.
  - destruct Hr as [Hle _]. simpl in Hle. now replace n with 0 by lia.
  - destruct n as [|n].
    + simpl. destruct (Ascii.eqb c Py.LF); [exact Hs|].
      destruct (Re.dotstar s k); [discriminate|exact Hs].
    + apply reach_S in Hr. destruct Hr as [Hc Hr].
      apply Ascii.eqb_neq in Hc. rewrite Hc in Hs. simpl.
      destruct (Re.dotstar s k); [discriminate|]. now apply IH.
Qed.

Lemma dotstar_some (s : str) (r : R) :
  Re.dotstar s k = Some r ->
  exists n, reach n s /\ k (skipn n s) = Some r
            /\ forall m, n < m -> reach m s -> k (skipn m s) = None.
Proof.
  induction s as [|c s IH]; simpl.
  - intros Hk. exists 0. split; [apply reach_0|]. split; [exact Hk|].
    intros m Hm [Hle _]. simpl in Hle. lia.
  - destruct (Ascii.eqb c Py.LF) eqn:Hc.
    + intros Hk. exists 0. split; [apply reach_0|]. split; [exact Hk|].
      intros [|m] Hm Hr; [lia|]. apply reach_S in Hr.
      apply Ascii.eqb_eq in Hc. tauto.
    + apply Ascii.eqb_neq in Hc.
      destruct (Re.dotstar s k) as [r'|] eqn:Hs.
      * intros Heq; inversion Heq; subst r'.
        destruct (IH eq_refl) as (n & Hr & Hk & Hmax).
        exists (S n). split; [apply reach_S; tauto|]. split; [exact Hk|].
        intros [|m] Hm Hrm; [lia|]. apply reach_S in Hrm.
        apply Hmax; [lia|tauto].
      * intros Hk. exists 0. split; [apply reach_0|]. split; [exact Hk|].
        intros [|m] Hm Hrm; [lia|]. apply reach_S in Hrm. simpl.
        apply dotstar_none; tauto.
Qed.


End DotStar.


(** ** Searching *)

Section Search.

Variable r : Re.regex.

Lemma search_from_here (s : str) (pos : nat) (m : Re.Match) :
  Re.match_at r s pos = Some m -> Re.search_from r s pos = Some m.
Proof. intros Hm. destruct s; simpl; now rewrite Hm. Qed.

(** A search passes over the places where the pattern does not match. *)
Lemma search_from_skip (p : nat) :
  forall (s : str) (pos : nat),
  p <= length s ->
  (forall n, n < p -> Re.match_at r (skipn n s) (pos + n) = None) ->
  Re.search_from r s pos = Re.search_from r (skipn p s) (pos + p).
Proof.
  induction p as [|p IH]; intros s pos Hp Hnone.
  - now rewrite Nat.add_0_r.
  - destruct s as [|c s]; [simpl in Hp; lia|].
    pose proof (Hnone 0 ltac:(lia)) as H0. rewrite Nat.add_0_r in H0.
    simpl in H0. simpl Re.search_from at 1. rewrite H0.
    rewrite IH.
    + simpl. f_equal. lia.
    + simpl in Hp. lia.
    + intros n Hn. specialize (Hnone (S n) ltac:(lia)). simpl in Hnone.
      now replace (S pos + n) with (pos + S n) by lia.
Qed.

Lemma search_from_none (s : str) (pos : nat) :
  (forall n, n <= length s -> Re.match_at r (skipn n s) (pos + n) = None) ->
  Re.search_from r s pos = None.
Proof.
  intros Hnone. rewrite (@search_from_skip (length s)); [|lia|].
  - rewrite skipn_all. simpl.
    specialize (Hnone (length s) ltac:(lia)). rewrite skipn_all in Hnone.
    now rewrite Hnone.
  - intros n Hn. apply Hnone. lia.
Qed.

(** A search finds a match where there is one, or before. *)
Lemma search_from_some (s : str) (pos p : nat) :
  p <= length s -> Re.match_at r (skipn p s) (pos + p) <> None ->
  Re.search_from r s pos <> None.
Proof.
  revert s pos; induction p as [|p IH]; intros s pos Hp Hm.
  - rewrite Nat.add_0_r in Hm. simpl in Hm.
    destruct (Re.match_at r s pos) as [m|] eqn:Hs; [|congruence].
    now rewrite (search_from_here _ _ Hs).
  - destruct s as [|c s]; [simpl in Hp; lia|]. simpl.
    destruct (Re.match_at r (c :: s) pos); [discriminate|].
    apply IH; [simpl in Hp; lia|].
    simpl in Hm. now replace (S pos + p) with (pos + S p) by lia.
Qed.

(** No match at all, no match to iterate over. *)
Lemma finditer_none (string : str) :
  Re.search r string = None -> Re.finditer r string = [].
Proof.
  unfold Re.finditer, Re.search. simpl. now intros ->.
Qed.

End Search.

(** ** The characters of the markup *)

Lemma plain_no_opener (s : str) : plain s -> no_opener s.
Proof.
  apply Forall_impl. intros c. unfold is_markup.
  destruct (is_opener c); [discriminate|reflexivity].
Qed.

Lemma plain_not_in (s : str) (c : ascii) : plain s -> is_markup c = true -> ~ In c s.
Proof.
  intros Hs Hc Hin. unfold plain in Hs. rewrite Forall_forall in Hs.
  specialize (Hs _ Hin). congruence.
Qed.

(** A text that starts with no opening character does not start with a
    literal that starts with one. *)
Lemma startswith_no_opener (s l : str) (c : ascii) :
  is_opener c = true ->
  match s with [] => True | d :: _ => is_opener d = false end ->
  Py.startswith s (c :: l) = false.
Proof.
  intros Hc Hs. destruct s as [|d s]; [reflexivity|].
  apply startswith_head. intros ->. congruence.
Qed.

Lemma no_opener_suffix (s : str) (n : nat) :
  no_opener s ->
  match skipn n s with [] => True | d :: _ => is_opener d = false end.
Proof.
  intros Hs. assert (Hn : no_opener (skipn n s)).
  { unfold no_opener in *. rewrite Forall_forall in *.
    intros c Hc. apply Hs. rewrite <- (firstn_skipn n s).
    apply in_or_app. now right. }
  destruct (skipn n s); [exact I|now inversion Hn].
Qed.

(** Neither pattern matches where no opening character stands. *)
Lemma link_needs_opener (s : str) (pos : nat) :
  match s with [] => True | d :: _ => is_opener d = false end ->
  Re.match_at funyu.link s pos = None.
Proof.
  intros Hs. unfold Re.match_at, funyu.link. cbn [Re.rmatch].
  now rewrite (@startswith_no_opener s [] "[").
Qed.

Lemma splitter_needs_opener (s : str) (pos : nat) :
  match s with [] => True | d :: _ => is_opener d = false end ->
  Re.match_at hunyu.splitter s pos = None.
Proof.
  intros Hs. unfold Re.match_at, hunyu.splitter, funyu.link. cbn [Re.rmatch].
  rewrite (@startswith_no_opener s ["["%char] "["), (@startswith_no_opener s ["<"%char] "<"),
    (@startswith_no_opener s ["{"%char] "{"), (@startswith_no_opener s [] "[");
    auto.
Qed.

Lemma search_no_opener (s : str) :
  no_opener s ->
  Re.search funyu.link s = None /\ Re.search hunyu.splitter s = None.
Proof.
  intros Hs. split; apply search_from_none; intros n _.
  - apply link_needs_opener. now apply no_opener_suffix.
  - apply splitter_needs_opener. now apply no_opener_suffix.
Qed.

(** ** funyu: [findClose] *)

Section FindClose.

Variables start end_ : str.

Lemma findClose_for_step (c : ascii) (s : str) (i : nat) (level : Z) :
  funyu.findClose_for (c :: s) i level start end_
  = if (level + delta start end_ (c :: s) =? -1)%Z then Ok i
    else funyu.findClose_for s (S i) (level + delta start end_ (c :: s))
           start end_.
Proof.
  unfold delta. simpl funyu.findClose_for.
  destruct (Py.startswith (c :: s) start); [reflexivity|].
  destruct (Py.startswith (c :: s) end_); [reflexivity|].
  now rewrite Z.add_0_r.
Qed.

(** [findClose] fails exactly when the depth never comes to -1. *)
Lemma findClose_for_raise (s : str) :
  forall (i : nat) (level : Z),
  (forall j, j < length s -> (level + depth start end_ s j)%Z <> (-1)%Z) ->
  funyu.findClose_for s i level start end_
  = Raise (syntax_error close_bracket_message).
Proof.
  induction s as [|c s IH]; intros i level Hdepth; [reflexivity|].
  rewrite findClose_for_step.
  pose proof (Hdepth 0 ltac:(simpl; lia)) as H0. simpl in H0.
  rewrite Z.add_0_r in H0. apply Z.eqb_neq in H0. rewrite H0.
  apply IH. intros j Hj.
  specialize (Hdepth (S j) ltac:(simpl; lia)). simpl in Hdepth.
  now rewrite Z.add_assoc in Hdepth.
Qed.

(** [findClose] returns the first index where the depth comes to -1. *)
Lemma findClose_for_ok (s : str) :
  forall (i : nat) (level : Z) (n : nat),
  n < length s ->
  (level + depth start end_ s n)%Z = (-1)%Z ->
  (forall j, j < n -> (level + depth start end_ s j)%Z <> (-1)%Z) ->
  funyu.findClose_for s i level start end_ = Ok (i + n).
Proof.
  induction s as [|c s IH]; intros i level n Hn Hat Hbefore.
  - simpl in Hn. lia.
  - rewrite findClose_for_step. destruct n as [|n].
    + simpl in Hat. rewrite Z.add_0_r in Hat. apply Z.eqb_eq in Hat.
      rewrite Hat. f_equal. lia.
    + pose proof (Hbefore 0 ltac:(lia)) as H0. simpl in H0.
      rewrite Z.add_0_r in H0. apply Z.eqb_neq in H0. rewrite H0.
      rewrite (IH (S i) _ n).
      * f_equal. lia.
      * simpl in Hn. lia.
      * simpl in Hat. now rewrite Z.add_assoc in Hat.
      * intros j Hj. specialize (Hbefore (S j) ltac:(lia)).
        simpl in Hbefore. now rewrite Z.add_assoc in Hbefore.
Qed.

End FindClose.

(** The first characters of the two delimiters of a bracket, which no
    plain text holds. *)
Lemma opening_head (b : bracket) :
  exists c l, opening b = c :: l /\ is_opener c = true /\ is_markup c = true.
Proof. destruct b; eexists; eexists; repeat split. Qed.

Lemma closing_head (b : bracket) :
  exists c, closing b = [c; c] /\ is_markup c = true /\ is_opener c = false.
Proof. destruct b; eexists; repeat split. Qed.

Lemma startswith_plain_head (s t l : str) (c d : ascii) :
  plain (d :: s) -> is_markup c = true -> Py.startswith (d :: s ++ t) (c :: l) = false.
Proof.
  intros Hp Hc. apply startswith_head. intros ->.
  inversion Hp; subst. congruence.
Qed.

(** Over a plain text the loop of [findClose] keeps its level and comes to
    the closing delimiter that follows. *)
Lemma findClose_for_plain (b : bracket) (body post : str) :
  forall i : nat,
  plain body ->
  funyu.findClose_for (body ++ closing b ++ post) i 0 (opening b) (closing b)
  = Ok (i + length body).
Proof.
  destruct (opening_head b) as (o & ol & Ho & _ & Hom).
  destruct (closing_head b) as (c & Hc & Hcm & Hco).
  induction body as [|d body IH]; intros i Hp.
  - simpl app. rewrite Hc. simpl app. rewrite findClose_for_step.
    unfold delta. rewrite Ho.
    assert (Hne : Py.startswith (c :: c :: post) (o :: ol) = false).
    { apply startswith_head. intros ->.
      unfold is_markup in Hom. destruct b; inversion Ho; inversion Hc; subst; discriminate. }
    rewrite Hne. simpl Py.startswith. rewrite !Ascii.eqb_refl. simpl.
    f_equal. lia.
  - simpl app. rewrite findClose_for_step. unfold delta.
    rewrite Ho, Hc.
    rewrite (@startswith_plain_head body _ ol o d Hp Hom).
    rewrite (@startswith_plain_head body _ [c] c d Hp Hcm).
    simpl Z.eqb. cbv iota. rewrite <- Ho, <- Hc.
    inversion Hp; subst.
    rewrite IH by assumption. f_equal. simpl. lia.
Qed.

Lemma findClose_plain (b : bracket) (body post : str) :
  plain body ->
  funyu.findClose (body ++ closing b ++ post) (opening b) (closing b)
  = Ok (length body).
Proof. intros Hp. unfold funyu.findClose. now rewrite findClose_for_plain. Qed.

(** ** funyu: [procStr] *)

Lemma bracket_of_opening (b : bracket) : funyu.bracket_of (opening b) = Some b.
Proof. now destruct b. Qed.

Lemma bracket_of_some (key : str) (b : bracket) :
  funyu.bracket_of key = Some b -> key = opening b.
Proof.
  unfold funyu.bracket_of.
  destruct (Py.eqb key "[[") eqn:H1; [apply eqb_eq in H1; now intros [= <-]|].
  destruct (Py.eqb key "<<") eqn:H2; [apply eqb_eq in H2; now intros [= <-]|].
  destruct (Py.eqb key "{{") eqn:H3; [apply eqb_eq in H3; now intros [= <-]|].
  discriminate.
Qed.

(** No bracket where no opening character stands. *)
Lemma bracket_of_no_opener (string : str) (j : nat) :
  match skipn j string with [] => True | d :: _ => is_opener d = false end ->
  funyu.bracket_of (Py.slice string j (j + 2)) = None.
Proof.
  intros Hj. destruct (funyu.bracket_of _) as [b|] eqn:Hb; [|reflexivity].
  apply bracket_of_some in Hb. exfalso.
  unfold Py.slice in Hb. replace (j + 2 - j) with 2 in Hb by lia.
  destruct (opening_head b) as (o & ol & Ho & Hoo & _). rewrite Ho in Hb.
  destruct (skipn j string) as [|d rest]; [discriminate|].
  simpl in Hb. inversion Hb; subst. congruence.
Qed.

Section ProcStr.

Variable String_ : str -> result (list elem).

(** The loop runs past the places that open no element. *)
Lemma procStr_while_skip (string : str) (last : nat) (elements : list elem)
    (d : nat) :
  forall (fuel i : nat),
  i + d <= length string ->
  (forall j, (i <= j < i + d) ->
     funyu.bracket_of (Py.slice string j (j + 2)) = None) ->
  funyu.procStr_while String_ (d + fuel) string i last elements
  = funyu.procStr_while String_ fuel string (i + d) last elements.
Proof.
  induction d as [|d IH]; intros fuel i Hlen Hnone.
  - now rewrite Nat.add_0_r.
  - simpl. assert (Hi : (i <? length string) = true) by (apply Nat.ltb_lt; lia).
    rewrite Hi, (Hnone i) by lia.
    rewrite IH; [f_equal; lia|lia|].
    intros j Hj. apply Hnone. lia.
Qed.

(** A loop that meets no bracket ends with the text left over. *)
Lemma procStr_while_tail (string : str) (last : nat) (elements : list elem) :
  forall (fuel i : nat),
  (forall j, i <= j ->
     funyu.bracket_of (Py.slice string j (j + 2)) = None) ->
  funyu.procStr_while String_ fuel string i last elements
  = Ok (funyu.procStr_remain string last elements).
Proof.
  induction fuel as [|fuel IH]; intros i Hnone; [reflexivity|].
  simpl. destruct (i <? length string); [|reflexivity].
  rewrite (Hnone i) by lia. apply IH. intros j Hj. apply Hnone. lia.
Qed.

(** [procStr] on a text that opens no element: the text, unless empty. *)
Lemma procStr_no_opener (string : str) (elements : list elem) :
  no_opener string ->
  funyu.procStr String_ string elements
  = Ok (match string with [] => elements | _ => elements ++ [Text string] end).
Proof.
  intros Hs. unfold funyu.procStr. rewrite procStr_while_tail.
  - now destruct string.
  - intros j _. apply bracket_of_no_opener. now apply no_opener_suffix.
Qed.

End ProcStr.

Lemma skipn_length_app (s t : str) : skipn (length s) (s ++ t) = t.
Proof. induction s; simpl; auto. Qed.

Lemma skipn_add_app (s t : str) (n : nat) :
  skipn (length s + n) (s ++ t) = skipn n t.
Proof. induction s; simpl; auto. Qed.

Lemma firstn_length_app (s t : str) : firstn (length s) (s ++ t) = s.
Proof. induction s; simpl; [now destruct t|now f_equal]. Qed.

Lemma slice_prefix (s t : str) : Py.slice (s ++ t) 0 (length s) = s.
Proof.
  unfold Py.slice. rewrite Nat.sub_0_r. simpl. apply firstn_length_app.
Qed.

Lemma slice_middle (s m t : str) :
  Py.slice (s ++ m ++ t) (length s) (length s + length m) = m.
Proof.
  unfold Py.slice. rewrite skipn_length_app.
  replace (length s + length m - length s) with (length m) by lia.
  apply firstn_length_app.
Qed.

Lemma no_opener_prefix (pre t : str) (j : nat) :
  no_opener pre -> j < length pre ->
  match skipn j (pre ++ t) with [] => True | d :: _ => is_opener d = false end.
Proof.
  revert j; induction pre as [|c pre IH]; intros j Hp Hj; [simpl in Hj; lia|].
  inversion Hp; subst. destruct j as [|j]; simpl; [assumption|].
  apply IH; [assumption|simpl in Hj; lia].
Qed.

(** [String.__init__] of funyu on a text that opens no element: the text
    as it is, and nothing for the empty text. *)
Lemma funyu_String_body_no_opener (String_ : str -> result (list elem)) (s : str) :
  no_opener s ->
  funyu.String_body String_ s = Ok (match s with [] => [] | _ => [Text s] end).
Proof.
  intros Hs. unfold funyu.String_body.
  rewrite finditer_none by now apply search_no_opener.
  simpl. now rewrite procStr_no_opener.
Qed.

Lemma funyu_String_fuel_no_opener (fuel : nat) (s : str) :
  no_opener s ->
  funyu.String_fuel fuel s = Ok (match s with [] => [] | _ => [Text s] end).
Proof. destruct fuel; apply funyu_String_body_no_opener. Qed.

(** [String.__init__] of hunyu on such a text: the text as it is. *)
Lemma hunyu_String_body_no_opener (String_ : str -> result (list elem)) (s : str) :
  no_opener s -> hunyu.String_body String_ s = Ok [Text s].
Proof.
  intros Hs. unfold hunyu.String_body.
  rewrite finditer_none by now apply search_no_opener.
  reflexivity.
Qed.

Lemma hunyu_String_fuel_no_opener (fuel : nat) (s : str) :
  no_opener s -> hunyu.String_fuel fuel s = Ok [Text s].
Proof. destruct fuel; apply hunyu_String_body_no_opener. Qed.

(** hunyu's scanner raises nothing. *)
Lemma hunyu_String_for_total (String_ : str -> result (list elem)) :
  (forall s, exists elements, String_ s = Ok elements) ->
  forall (matches : list Re.Match) (string : str) (done : nat) (acc : list elem),
  exists elements, hunyu.String_for String_ matches string done acc = Ok elements.
Proof.
  intros Htotal. induction matches as [|m matches IH]; intros string done acc; simpl.
  - eexists; reflexivity.
  - assert (He : exists e, hunyu.element_of String_ m = Ok e).
    { unfold hunyu.element_of.
      destruct (Re.group m "keyword") as [t|].
      { destruct (Htotal t) as [els ->]. eexists; reflexivity. }
      destruct (Re.group m "emphasis") as [t|].
      { destruct (Htotal t) as [els ->]. eexists; reflexivity. }
      destruct (Re.group m "code") as [t|].
      { destruct (Htotal "") as [els ->]. eexists; reflexivity. }
      destruct (Re.group m "linktype") as [t|]; [|eexists; reflexivity].
      destruct (Py.eqb t "IMG:").
      - destruct (Htotal "") as [els ->]. eexists; reflexivity.
      - destruct (Htotal (Py.strip (text_of (Re.group m "linktext")))) as [els ->].
        eexists; reflexivity. }
    destruct He as [e ->]. simpl. apply IH.
Qed.

Lemma hunyu_String_fuel_total (fuel : nat) :
  forall s, exists elements, hunyu.String_fuel fuel s = Ok elements.
Proof.
  induction fuel as [|fuel IH]; intros s; simpl; unfold hunyu.String_body;
    apply hunyu_String_for_total; [|exact IH].
  intros t. eexists; reflexivity.
Qed.

Lemma hunyu_String_init_total (s : str) :
  exists elements, hunyu.String_init s = Ok elements.
Proof. apply hunyu_String_fuel_total. Qed.

(** One turn of the loop of [procStr] at an opening delimiter. *)
Lemma procStr_while_bracket (String_ : str -> result (list elem))
    (string : str) (b : bracket) (fuel i last : nat) (elements : list elem) :
  i < length string ->
  funyu.bracket_of (Py.slice string i (i + 2)) = Some b ->
  funyu.procStr_while String_ (S fuel) string i last elements
  = (n <- funyu.findClose (skipn (i + 2) string) (opening b) (closing b) ;;
     e <- funyu.span String_ b (Py.slice string (i + 2) (i + 2 + n)) ;;
     funyu.procStr_while String_ fuel string (i + 2 + n + 2 + 1) (i + 2 + n + 2)
       ((elements ++ [Text (Py.slice string last i)]) ++ [e])).
Proof.
  intros Hi Hb. simpl. apply Nat.ltb_lt in Hi. now rewrite Hi, Hb.
Qed.

(** C3, as the code has it: in funyu, on a line without link pattern
    whose first opening delimiter is followed by a text where the nesting
    depth never comes down to -1 (no closing delimiter at balanced depth),
    the scanner raises the close-bracket error; the scanner of hunyu has no
    such error and returns elements for that line. *)
Theorem funyu_unclosed_bracket_raises (pre : str) (b : bracket) (rest : str) :
  no_opener pre ->
  Re.search funyu.link (pre ++ opening b ++ rest) = None ->
  (forall j, j < length rest ->
     depth (opening b) (closing b) rest j <> (-1)%Z) ->
  funyu.String_init (pre ++ opening b ++ rest)
  = Raise (SyntaxError close_bracket_message None None)
  /\ exists elements,
       hunyu.String_init (pre ++ opening b ++ rest) = Ok elements.
Proof.
  intros Hpre Hlink Hdepth. split; [|apply hunyu_String_init_total].
  assert (Hbody : forall String_,
    funyu.String_body String_ (pre ++ opening b ++ rest)
    = Raise (syntax_error close_bracket_message)).
  { intros String_. unfold funyu.String_body.
    rewrite (finditer_none _ _ Hlink).
    change (funyu.procStr String_ (pre ++ opening b ++ rest) []
            = Raise (syntax_error close_bracket_message)).
    unfold funyu.procStr.
    assert (Hlen : length (pre ++ opening b ++ rest)
                   = length pre + S (S (length rest))).
    { rewrite !length_app. destruct b; simpl; lia. }
    set (line := pre ++ opening b ++ rest) in *.
    rewrite Hlen, procStr_while_skip.
    - rewrite (@procStr_while_bracket String_ line b); [|lia|].
      + unfold line at 1.
        replace (0 + length pre + 2) with (length pre + length (opening b))
          by (destruct b; simpl; lia).
        rewrite app_assoc, <- length_app, skipn_length_app.
        unfold funyu.findClose. rewrite findClose_for_raise; [reflexivity|].
        intros j Hj. rewrite Z.add_0_l. now apply Hdepth.
      + unfold line.
        replace (0 + length pre + 2) with (length pre + length (opening b))
          by (destruct b; simpl; lia).
        simpl Nat.add at 1.
        now rewrite slice_middle, bracket_of_opening.
    - lia.
    - intros j Hj. apply bracket_of_no_opener.
      apply no_opener_prefix; [exact Hpre|lia]. }
  unfold funyu.String_init.
  destruct (length (pre ++ opening b ++ rest)); simpl; apply Hbody.
Qed.

Lemma funyu_unclosed_bracket_raises_witness :
  funyu.String_init ("an " ++ opening BEmphasis ++ "a<<b>> text")
  = Raise (SyntaxError close_bracket_message None None)
  /\ exists elements,
       hunyu.String_init ("an " ++ opening BEmphasis ++ "a<<b>> text") = Ok elements.
Proof.
  apply (@funyu_unclosed_bracket_raises "an " BEmphasis "a<<b>> text").
  - repeat constructor.
  - reflexivity.
  - intros j Hj.
    do 11 (destruct j as [|j]; [discriminate|]). simpl in Hj. lia.
Defined.

(** C3 fails as stated: hunyu scans a line whose opening delimiter is
    never closed into a text, without error; and funyu does the same
    where the delimiter stands in the alternative text of an image link. *)
Lemma unclosed_bracket_without_error :
  hunyu.String_init "[[opend" = Ok [Text "[[opend"]
  /\ funyu.String_init "[IMG: [[x](u)" = Ok [ImageLink [] "u" "[[x"].
Proof. split; reflexivity. Qed.

(** ** The link pattern *)

Lemma link_unfold :
  funyu.link
  = Re.Cat (Re.Lit "[")
      (Re.Cat (Re.Group "linktype" (Re.Alt (Re.Lit "IMG:") (Re.Lit ""))) link_tail).
Proof. reflexivity. Qed.

Lemma length_skipn_sub (s : str) (n : nat) :
  n <= length s -> length s - length (skipn n s) = n.
Proof. intros Hn. rewrite length_skipn. lia. Qed.

Section LinkTail.

Variable R : Type.
Variable F : str -> Re.groups -> R.
Variable g : Re.groups.

(** A match of the tail stops the text at the last place where a URI
    can follow, and the URI at the last closing parenthesis. *)
Lemma skipn_paren (w : str) (n : nat) :
  skipn (length ("](" : str)) (skipn n w) = skipn (n + 2) w.
Proof. rewrite skipn_skipn. simpl. now rewrite Nat.add_comm. Qed.

Lemma link_tail_some (w : str) (r : R) :
  Re.rmatch link_tail w g (fun s g' => Some (F s g')) = Some r ->
  exists n n2,
    tail_at w n n2
    /\ r = F (skipn (n + 2 + n2 + 1) w)
             (("linkuri"%string, firstn n2 (skipn (n + 2) w))
              :: ("linktext"%string, firstn n w) :: g)
    /\ forall n' n2', n < n' -> ~ tail_at w n' n2'.
Proof.
  unfold link_tail. cbn [Re.rmatch]. intros Hm.
  apply dotstar_some in Hm. destruct Hm as (n & Hn & Hk & Hmax).
  destruct (Py.startswith (skipn n w) "](") eqn:Hs; [|discriminate].
  rewrite skipn_paren in Hk.
  apply dotstar_some in Hk. destruct Hk as (n2 & Hn2 & Hk2 & _).
  destruct (Py.startswith (skipn n2 (skipn (n + 2) w)) ")") eqn:Hs2;
    [|discriminate].
  exists n, n2. split; [exact (conj Hn (conj Hs (conj Hn2 Hs2)))|]. split.
  - injection Hk2 as <-.
    rewrite (length_skipn_sub _ (proj1 Hn)).
    rewrite (length_skipn_sub _ (proj1 Hn2)).
    replace (skipn (n + 2 + n2 + 1) w)
      with (skipn 1 (skipn n2 (skipn (n + 2) w))); [reflexivity|].
    rewrite !skipn_skipn.
    apply (f_equal (fun k => skipn k w)). lia.
  - intros n' n2' Hlt (Hn' & Hs' & Hn2' & Hs2').
    specialize (Hmax n' Hlt Hn'). cbv beta in Hmax. rewrite Hs' in Hmax.
    rewrite skipn_paren in Hmax.
    pose proof (dotstar_none _ Hmax Hn2') as Hnone. cbv beta in Hnone.
    now rewrite Hs2' in Hnone.
Qed.

Lemma link_tail_complete (w : str) (n n2 : nat) :
  tail_at w n n2 ->
  Re.rmatch link_tail w g (fun s g' => Some (F s g')) <> None.
Proof.
  intros (Hn & Hs & Hn2 & Hs2) Hnone.
  unfold link_tail in Hnone. cbn [Re.rmatch] in Hnone.
  pose proof (dotstar_none _ Hnone Hn) as Hk. cbv beta in Hk.
  rewrite Hs, skipn_paren in Hk.
  pose proof (dotstar_none _ Hk Hn2) as Hk2. cbv beta in Hk2.
  now rewrite Hs2 in Hk2.
Qed.

End LinkTail.

Lemma startswith_length (s p : str) :
  Py.startswith s p = true -> length p <= length s.
Proof.
  intros Hs. destruct (startswith_inv _ _ Hs) as [rest ->].
  rewrite length_app. lia.
Qed.

Lemma tail_at_length (w : str) (n n2 : nat) :
  tail_at w n n2 -> n + 2 + n2 + 1 <= length w.
Proof.
  intros (_ & _ & _ & Hs). apply startswith_length in Hs.
  rewrite !length_skipn in Hs. simpl in Hs. lia.
Qed.

(** The match of the link pattern at the start of [s]: an opening bracket,
    [IMG:] if it is there, then the text and the URI as the tail has them. *)
Lemma link_match_at_inv (s : str) (pos : nat) (m : Re.Match) :
  Re.match_at funyu.link s pos = Some m ->
  exists lt w n n2,
    s = "[" ++ lt ++ w /\ (lt = "IMG:" \/ lt = [])
    /\ tail_at w n n2
    /\ (forall n' n2', n < n' -> ~ tail_at w n' n2')
    /\ m = {| Re.m_start := pos;
              Re.m_end := pos + (1 + length lt + (n + 2 + n2 + 1));
              Re.m_groups :=
                [("linkuri"%string, firstn n2 (skipn (n + 2) w));
                 ("linktext"%string, firstn n w);
                 ("linktype"%string, lt)] |}.
Proof.
  unfold Re.match_at. rewrite link_unfold. cbn [Re.rmatch].
  destruct (Py.startswith s "[") eqn:Hb; [|discriminate].
  destruct (startswith_inv _ _ Hb) as [s1 ->].
  change (skipn (length ("[" : str)) ("[" ++ s1)) with s1.
  assert (Hend : forall lt w n n2, s1 = lt ++ w -> tail_at w n n2 ->
    pos + (length ("[" ++ s1) - length (skipn (n + 2 + n2 + 1) w))
    = pos + (1 + length lt + (n + 2 + n2 + 1))).
  { intros lt w n n2 -> Ht. apply tail_at_length in Ht.
    rewrite length_skipn, !length_app. simpl length. lia. }
  destruct (Py.startswith s1 "IMG:") eqn:Himg.
  - destruct (startswith_inv _ _ Himg) as [w ->].
    change (skipn (length ("IMG:" : str)) ("IMG:" ++ w)) with w.
    destruct (Re.rmatch link_tail w _ _) as [r|] eqn:Htail.
    + intros Hm; injection Hm as <-.
      apply link_tail_some in Htail. destruct Htail as (n & n2 & Ht & -> & Hmax).
      exists "IMG:", w, n, n2.
      split; [reflexivity|]. split; [now left|]. split; [exact Ht|].
      split; [exact Hmax|].
      rewrite (Hend "IMG:" w n n2 eq_refl Ht).
      replace (length ("IMG:" ++ w) - length w) with 4
        by (rewrite length_app; simpl length; lia).
      reflexivity.
    + change (Py.startswith ("IMG:" ++ w) "") with true. cbv iota.
      change (skipn (length ("" : str)) ("IMG:" ++ w)) with ("IMG:" ++ w).
      intros Htail2. apply link_tail_some in Htail2.
      destruct Htail2 as (n & n2 & Ht & -> & Hmax).
      exists [], ("IMG:" ++ w), n, n2.
      split; [reflexivity|]. split; [now right|]. split; [exact Ht|].
      split; [exact Hmax|].
      rewrite (Hend [] ("IMG:" ++ w) n n2 eq_refl Ht).
      rewrite Nat.sub_diag. reflexivity.
  - change (Py.startswith s1 "") with true. cbv iota.
    change (skipn (length ("" : str)) s1) with s1.
    intros Htail2. apply link_tail_some in Htail2.
    destruct Htail2 as (n & n2 & Ht & -> & Hmax).
    exists [], s1, n, n2.
    split; [reflexivity|]. split; [now right|]. split; [exact Ht|].
    split; [exact Hmax|].
    rewrite (Hend [] s1 n n2 eq_refl Ht).
    rewrite Nat.sub_diag. reflexivity.
Qed.

(** The link pattern matches where such a text and URI stand. *)
Lemma link_match_at_complete (w : str) (n n2 pos : nat) :
  tail_at w n n2 -> Re.match_at funyu.link ("[" ++ w) pos <> None.
Proof.
  intros Ht. unfold Re.match_at. rewrite link_unfold. cbn [Re.rmatch].
  change (Py.startswith ("[" ++ w) "[") with true. cbv iota.
  change (skipn (length ("[" : str)) ("[" ++ w)) with w.
  match goal with
  | |- match ?first with _ => _ end <> None => destruct first; [discriminate|]
  end.
  change (Py.startswith w "") with true. cbv iota.
  change (skipn (length ("" : str)) w) with w.
  now apply link_tail_complete with (n := n) (n2 := n2).
Qed.

(** The shape of a link: a text, a closing bracket, a parenthesised URI. *)
Lemma tail_at_link (t u y : str) :
  ~ In Py.LF t -> ~ In Py.LF u ->
  tail_at (t ++ "](" ++ u ++ ")" ++ y) (length t) (length u).
Proof.
  intros Ht Hu. unfold tail_at, reach.
  rewrite firstn_length_app, skipn_length_app.
  replace (skipn (length t + 2) (t ++ "](" ++ u ++ ")" ++ y)) with (u ++ ")" ++ y)
    by now rewrite skipn_add_app.
  rewrite firstn_length_app, skipn_length_app.
  split; [split; [rewrite !length_app; simpl; lia|exact Ht]|].
  split; [reflexivity|].
  split; [split; [rewrite !length_app; simpl; lia|exact Hu]|reflexivity].
Qed.

Lemma search_holds_link (text : str) :
  holds_link text -> Re.search funyu.link text <> None.
Proof.
  intros (a & b & c & d & -> & Hb & Hc).
  apply search_from_some with (p := length a).
  - rewrite length_app. lia.
  - rewrite skipn_length_app.
    apply link_match_at_complete with (n := length b) (n2 := length c).
    now apply tail_at_link.
Qed.

Lemma holds_link_app (text extra : str) :
  holds_link text -> holds_link (text ++ extra).
Proof.
  intros (a & b & c & d & -> & Hb & Hc).
  exists a, b, c, (d ++ extra). split; [|tauto].
  now rewrite <- !app_assoc.
Qed.

(** A text that starts with [IMG:] holds its link patterns after it. *)
Lemma holds_link_IMG (t : str) : holds_link ("IMG:" ++ t) -> holds_link t.
Proof.
  intros (a & b & c & d & Heq & Hb & Hc).
  do 4 (destruct a as [|? a]; [discriminate|]).
  injection Heq as _ _ _ _ Heq.
  now exists a, b, c, d.
Qed.

(** The first match of the link pattern in a line that opens no element
    before a bracket: it starts at the bracket. *)
Lemma search_link_after_prefix (pre w : str) (n n2 : nat) :
  no_opener pre -> tail_at w n n2 ->
  exists m,
    Re.search funyu.link (pre ++ "[" ++ w) = Some m
    /\ Re.match_at funyu.link ("[" ++ w) (length pre) = Some m.
Proof.
  intros Hpre Ht. unfold Re.search.
  rewrite (@search_from_skip funyu.link (length pre)).
  - rewrite skipn_length_app. simpl Nat.add.
    destruct (Re.match_at funyu.link ("[" ++ w) (length pre)) as [m|] eqn:Hm.
    + exists m. split; [now apply search_from_here|reflexivity].
    + exfalso. now apply (link_match_at_complete (length pre) Ht).
  - rewrite length_app. lia.
  - intros j Hj. apply link_needs_opener. now apply no_opener_prefix.
Qed.

Lemma finditer_first (r : Re.regex) (string : str) (m : Re.Match) :
  Re.search r string = Some m ->
  exists rest, Re.finditer r string = m :: rest.
Proof.
  unfold Re.finditer, Re.search. simpl. intros ->. eexists; reflexivity.
Qed.

(** The text of the first match of a line [pre[text](uri)post] goes at
    least as far as [text]: it holds the link patterns of [text]. *)
Lemma linktext_holds_link (text uri post : str) (pos : nat) (m : Re.Match) :
  ~ In Py.LF text -> ~ In Py.LF uri -> holds_link text ->
  Re.match_at funyu.link ("[" ++ text ++ "](" ++ uri ++ ")" ++ post) pos = Some m ->
  holds_link (text_of (Re.group m "linktext")).
Proof.
  intros Htext Huri Hholds Hm.
  apply link_match_at_inv in Hm.
  destruct Hm as (lt & w & n & n2 & Heq & Hlt & Ht & Hmax & ->).
  injection Heq as Heq.
  change (text_of (Re.group _ "linktext")) with (firstn n w).
  assert (Hlong : forall t, w = t ++ "](" ++ uri ++ ")" ++ post ->
            ~ In Py.LF t -> holds_link t -> holds_link (firstn n w)).
  { intros t Hw Hnl Ht'.
    assert (Hge : length t <= n).
    { destruct (Nat.le_gt_cases (length t) n) as [Hle|Hgt]; [exact Hle|].
      exfalso. apply (Hmax (length t) (length uri) Hgt).
      rewrite Hw. now apply tail_at_link. }
    rewrite Hw, firstn_app, firstn_all2 by exact Hge.
    now apply holds_link_app. }
  destruct Hlt as [-> | ->].
  - destruct Hholds as (a & b & c & d & Ha & Hb & Hc).
    rewrite Ha in Heq. rewrite <- !app_assoc in Heq.
    do 4 (destruct a as [|? a]; [discriminate|]).
    injection Heq as -> -> -> -> Heq.
    apply (Hlong (a ++ "[" ++ b ++ "](" ++ c ++ ")" ++ d)).
    + rewrite <- Heq. now rewrite <- !app_assoc.
    + intros Hin. apply Htext. rewrite Ha. now do 4 right.
    + now exists a, b, c, d.
  - apply (Hlong text); auto.
Qed.

(** C4, as the code has it: in funyu, a line that opens no element
    before a link whose text holds a link pattern makes the scanner raise
    the link-in-link error; hunyu has no such check and returns elements
    for that line. *)
Theorem funyu_link_in_link_raises (pre text uri post : str) :
  no_opener pre -> ~ In Py.LF text -> ~ In Py.LF uri -> holds_link text ->
  funyu.String_init (pre ++ "[" ++ text ++ "](" ++ uri ++ ")" ++ post)
  = Raise (SyntaxError link_in_link_message None None)
  /\ exists elements,
       hunyu.String_init (pre ++ "[" ++ text ++ "](" ++ uri ++ ")" ++ post)
       = Ok elements.
Proof.
  intros Hpre Htext Huri Hholds. split; [|apply hunyu_String_init_total].
  set (w := text ++ "](" ++ uri ++ ")" ++ post).
  assert (Hbody : forall String_,
    funyu.String_body String_ (pre ++ "[" ++ w)
    = Raise (syntax_error link_in_link_message)).
  { intros String_. unfold funyu.String_body.
    destruct (@search_link_after_prefix pre w (length text) (length uri) Hpre)
      as (m & Hsearch & Hm); [now apply tail_at_link|].
    destruct (finditer_first _ _ Hsearch) as [rest ->].
    assert (Hstart : Re.m_start m = length pre).
    { apply link_match_at_inv in Hm.
      now destruct Hm as (? & ? & ? & ? & _ & _ & _ & _ & ->). }
    cbn [funyu.String_for]. rewrite Hstart, slice_prefix.
    rewrite procStr_no_opener by exact Hpre. cbn [bind].
    pose proof (@linktext_holds_link text uri post _ m Htext Huri Hholds Hm) as Hl.
    apply search_holds_link in Hl.
    destruct (Re.search funyu.link (text_of (Re.group m "linktext")));
      [reflexivity|congruence]. }
  unfold funyu.String_init.
  destruct (length (pre ++ "[" ++ w)); simpl; apply Hbody.
Qed.

Lemma funyu_link_in_link_raises_witness :
  funyu.String_init ("" ++ "[" ++ "link in [link](uri)" ++ "](" ++ "uri" ++ ")" ++ "")
  = Raise (SyntaxError link_in_link_message None None)
  /\ exists elements,
       hunyu.String_init
         ("" ++ "[" ++ "link in [link](uri)" ++ "](" ++ "uri" ++ ")" ++ "")
       = Ok elements.
Proof.
  apply (@funyu_link_in_link_raises "" "link in [link](uri)" "uri" "").
  - constructor.
  - apply contains_char_false. reflexivity.
  - apply contains_char_false. reflexivity.
  - exists "link in ", "link", "uri", "". repeat split.
    + apply contains_char_false. reflexivity.
    + apply contains_char_false. reflexivity.
Defined.

(** C4 fails in hunyu: the line of the specification is scanned into a
    link nested in the text of a link. *)
Lemma hunyu_nests_link_in_link :
  hunyu.String_init "[link in [link](uri)](uri)"
  = Ok [Text "";
        Link [Text "link in "; Link [Text "link"] "uri"; Text ""] "uri";
        Text ""].
Proof. reflexivity. Qed.

(** ** One span in a plain line *)

Lemma in_skipn (c : ascii) (n : nat) (s : str) : In c (skipn n s) -> In c s.
Proof.
  intros Hin. rewrite <- (firstn_skipn n s). apply in_or_app. now right.
Qed.

Lemma startswith_in (s p : str) (c : ascii) :
  Py.startswith s p = true -> In c p -> In c s.
Proof.
  intros Hs Hc. destruct (startswith_inv _ _ Hs) as [rest ->].
  apply in_or_app. now left.
Qed.

(** The link pattern needs an opening parenthesis. *)
Lemma link_needs_paren (s : str) (pos : nat) :
  ~ In "("%char s -> Re.match_at funyu.link s pos = None.
Proof.
  intros Hs. destruct (Re.match_at funyu.link s pos) as [m|] eqn:Hm; [|reflexivity].
  exfalso. apply Hs. apply link_match_at_inv in Hm.
  destruct Hm as (lt & w & n & n2 & -> & _ & (_ & Hp & _) & _).
  assert (Hw : In "("%char w).
  { apply in_skipn with (n := n).
    apply startswith_in with (p := "]("); [exact Hp|now right; left]. }
  apply in_or_app. right. apply in_or_app. now right.
Qed.

Lemma search_link_no_paren (s : str) :
  ~ In "("%char s -> Re.search funyu.link s = None.
Proof.
  intros Hs. apply search_from_none. intros n _.
  apply link_needs_paren. intros Hin. apply Hs. now apply in_skipn in Hin.
Qed.


Lemma span_line_length (pre : str) (b : bracket) (body post : str) :
  length (span_line pre b body post)
  = length pre + (2 + (length body + (2 + length post))).
Proof. unfold span_line. rewrite !length_app. destruct b; reflexivity. Qed.

Lemma span_line_skip_pre (pre : str) (b : bracket) (body post : str) (n : nat) :
  skipn (length pre + n) (span_line pre b body post)
  = skipn n (opening b ++ body ++ closing b ++ post).
Proof. apply skipn_add_app. Qed.

Lemma span_line_skip_open (pre : str) (b : bracket) (body post : str) (n : nat) :
  skipn (length pre + 2 + n) (span_line pre b body post)
  = skipn n (body ++ closing b ++ post).
Proof.
  rewrite <- Nat.add_assoc, span_line_skip_pre.
  replace 2 with (length (opening b)) by now destruct b.
  apply skipn_add_app.
Qed.

Lemma span_line_skip_span (pre : str) (b : bracket) (body post : str) (n : nat) :
  skipn (length pre + 2 + length body + 2 + n) (span_line pre b body post)
  = skipn n post.
Proof.
  replace (length pre + 2 + length body + 2 + n)
    with (length pre + 2 + (length body + (2 + n))) by lia.
  rewrite span_line_skip_open, skipn_add_app.
  replace 2 with (length (closing b)) by now destruct b.
  apply skipn_add_app.
Qed.

Lemma span_line_after_open (pre : str) (b : bracket) (body post : str) :
  skipn (length pre + 2) (span_line pre b body post) = body ++ closing b ++ post.
Proof.
  rewrite <- (Nat.add_0_r (length pre + 2)). apply span_line_skip_open.
Qed.

Lemma span_line_after_span (pre : str) (b : bracket) (body post : str) :
  skipn (length pre + 2 + length body + 2) (span_line pre b body post) = post.
Proof.
  rewrite <- (Nat.add_0_r (length pre + 2 + length body + 2)).
  apply span_line_skip_span.
Qed.

Lemma span_line_body (pre : str) (b : bracket) (body post : str) :
  Py.slice (span_line pre b body post) (length pre + 2)
    (length pre + 2 + length body) = body.
Proof.
  unfold Py.slice. rewrite span_line_after_open.
  replace (length pre + 2 + length body - (length pre + 2)) with (length body)
    by lia.
  apply firstn_length_app.
Qed.

Lemma span_line_pre (pre : str) (b : bracket) (body post : str) :
  Py.slice (span_line pre b body post) 0 (length pre) = pre.
Proof. apply slice_prefix. Qed.

Section OneSpanFunyu.

Variable String_ : str -> result (list elem).
Hypothesis String_plain :
  forall s, no_opener s -> String_ s = Ok (text_elements s).

Lemma funyu_span_plain (b : bracket) (body : str) :
  plain body -> funyu.span String_ b body = Ok (funyu_span b body).
Proof.
  intros Hbody. apply plain_no_opener in Hbody.
  destruct b; unfold funyu.span; simpl.
  - now rewrite String_plain.
  - now rewrite String_plain.
  - rewrite String_plain by constructor. reflexivity.
Qed.



End OneSpanFunyu.


Lemma splitter_unfold :
  hunyu.splitter
  = Re.Alt (bracketed "[[" "keyword" "]]")
      (Re.Alt (bracketed "<<" "emphasis" ">>")
         (Re.Alt (bracketed "{{" "code" "}}") funyu.link)).
Proof. reflexivity. Qed.



Section Bracketed.

Variable R : Type.
Variable F : str -> Re.groups -> R.
Variable g : Re.groups.



End Bracketed.







Section Renderings.

Context `{PyLib}.
Variables (pre : str) (b : bracket) (body post : str).









End Renderings.




(** ** The dispatch of [feed]

    [Blocks.feed] is defined with a bound on the nesting of its calls; it
    satisfies the equation of the method it models, in which the last
    element is fed by dynamic dispatch, as soon as the inline scanner
    raises nothing but syntax errors. *)

Section FeedEquation.

Context `{PyLib}.
Variable String_init : str -> result (list elem).
Hypothesis String_init_raises :
  forall s e, String_init s = Raise e -> is_signal e = false.

(** A new paragraph takes a line that is not blank, or the scanner raises. *)
Lemma Paragraph_feed_new (line : str) :
  Py.eqb (Py.strip line) "" = false ->
  no_signal (snd (Blocks.Paragraph_feed String_init false [] line)).
Proof.
  intros Hline. unfold Blocks.Paragraph_feed. rewrite Hline. simpl.
  destruct (String_init line) as [l|e] eqn:Hs; simpl; [exact I|].
  now apply String_init_raises in Hs.
Qed.

Section Children.

Variable feed : block -> str -> block * outcome.
Hypothesis feed_new_paragraph :
  forall line, Py.eqb (Py.strip line) "" = false ->
  no_signal (snd (feed (Paragraph false []) line)).
Hypothesis feed_no_IndexError :
  forall b line, snd (feed b line) <> Raise IndexError.

Lemma feed_last_no_IndexError (elements : list block) (line : str) :
  Blocks.last_is_open_child elements = true ->
  snd (Blocks.feed_last feed elements line) <> Raise IndexError.
Proof.
  destruct elements as [|b elements] using rev_ind; [discriminate|].
  intros _. rewrite feed_last_app. apply feed_no_IndexError.
Qed.

(** [Block.feed] lets no signal of its children out. *)
Lemma Block_feed_new_no_signal (level : Z) (elements : list block) (line : str) :
  no_signal (snd (Blocks.Block_feed_new feed level elements line)).
Proof.
  unfold Blocks.Block_feed_new.
  destruct (Py.startswith line "-- ").
  { destruct (1 <=? level + 1)%Z; simpl; auto. }
  destruct (Py.startswith line "```"); [simpl; auto|].
  destruct (Py.startswith line "p.s. ").
  { destruct (strptime_date _); [destruct (1 <=? level + 1)%Z|]; simpl; auto. }
  destruct (Py.eqb (Py.strip line) "((("); [simpl; auto|].
  destruct (Blocks.feed_last feed elements line) as [elements' [u|e]];
    [simpl; auto|].
  assert (Hnew : no_signal (snd
    (if negb (Py.eqb (Py.strip line) "")
     then Blocks.feed_last feed (elements' ++ [Paragraph false []]) line
     else (elements', Return)))).
  { destruct (Py.eqb (Py.strip line) "") eqn:Hb; simpl; [exact I|].
    rewrite feed_last_app. simpl. now apply feed_new_paragraph. }
  destruct e; simpl; auto.
Qed.

Lemma Block_feed_no_signal (level : Z) (elements : list block) (line : str) :
  no_signal (snd (Blocks.Block_feed feed level elements line)).
Proof.
  unfold Blocks.Block_feed.
  destruct (Blocks.last_is_open_child elements) eqn:Hlast;
    [|apply Block_feed_new_no_signal].
  pose proof (feed_last_no_IndexError elements line Hlast) as Hno.
  destruct (Blocks.feed_last feed elements line) as [elements' [u|e]];
    [simpl; auto|].
  destruct e as [m l s|[r|]|m| |]; simpl; auto; try exact I.
  - apply Block_feed_new_no_signal.
  - now elim Hno.
Qed.

(** [Section.feed] changes no element when it raises a signal. *)
Lemma container_feed_signal (ended : bool) (level : Z) (elements : list block)
    (line : str) (ended' : bool) (elements' : list block) (e : exn) :
  Blocks.container_feed feed ended level elements line
  = (ended', elements', Raise e) ->
  is_signal e = true -> elements' = elements.
Proof.
  unfold Blocks.container_feed.
  destruct (_ || ended); [now intros [= _ <- _]|].
  pose proof (Block_feed_no_signal level elements (skipn 1 line)) as Hno.
  destruct (Blocks.Block_feed feed level elements (skipn 1 line)) as [els o].
  intros [= _ _ ->] He. simpl in Hno. congruence.
Qed.

(** A block that raises a signal is as high as it was. *)
Lemma feed_body_signal (b b' : block) (line : str) (e : exn) :
  Blocks.feed_body String_init feed b line = (b', Raise e) ->
  is_signal e = true -> Blocks.height b' = Blocks.height b.
Proof.
  destruct b as [en els|en lv t els|en lv d els|en ty els|en els]; simpl.
  - unfold Blocks.Paragraph_feed.
    destruct (_ || en); [now intros [= <- _]|].
    destruct (String_init line); now intros [= <- _].
  - destruct (Blocks.container_feed feed en lv els line) as [[en' els'] o] eqn:Hc.
    intros [= <- ->] He. now rewrite (container_feed_signal _ _ _ _ Hc He).
  - destruct (Blocks.container_feed feed en lv els line) as [[en' els'] o] eqn:Hc.
    intros [= <- ->] He. now rewrite (container_feed_signal _ _ _ _ Hc He).
  - unfold Blocks.CodeBlock_feed.
    destruct en; [now intros [= <- _]|].
    destruct (Py.eqb line "```"); [now intros [= <- _]|].
    destruct (_ && _); now intros [= <- _].
  - unfold Blocks.EmbeddedHTML_feed.
    destruct en; [now intros [= <- _]|].
    destruct (Py.startswith line ")))"); [now intros [= <- _]|].
    destruct (_ && _); now intros [= <- _].
Qed.

(** No block raises [IndexError]. *)
Lemma feed_body_no_IndexError (b : block) (line : str) :
  snd (Blocks.feed_body String_init feed b line) <> Raise IndexError.
Proof.
  assert (Hc : forall en lv els,
    snd (Blocks.container_feed feed en lv els line) <> Raise IndexError).
  { intros en lv els. unfold Blocks.container_feed.
    destruct (_ || en); [discriminate|].
    pose proof (Block_feed_no_signal lv els (skipn 1 line)) as Hno.
    destruct (Blocks.Block_feed feed lv els (skipn 1 line)) as [els' o].
    simpl in *. intros ->. discriminate. }
  destruct b as [en els|en lv t els|en lv d els|en ty els|en els]; simpl.
  - unfold Blocks.Paragraph_feed.
    destruct (_ || en); [discriminate|].
    destruct (String_init line) as [l|e] eqn:Hs; [discriminate|].
    apply String_init_raises in Hs. simpl. intros [= ->]. discriminate.
  - specialize (Hc en lv els).
    now destruct (Blocks.container_feed feed en lv els line) as [[en' els'] o].
  - specialize (Hc en lv els).
    now destruct (Blocks.container_feed feed en lv els line) as [[en' els'] o].
  - unfold Blocks.CodeBlock_feed.
    destruct en; [discriminate|].
    destruct (Py.eqb line "```"); [discriminate|].
    destruct (_ && _); discriminate.
  - unfold Blocks.EmbeddedHTML_feed.
    destruct en; [discriminate|].
    destruct (Py.startswith line ")))"); [discriminate|].
    destruct (_ && _); discriminate.
Qed.

End Children.

(** At every bound, the dispatch feeds a new paragraph as [Paragraph.feed]
    does. *)
Lemma feed_fuel_new_paragraph (fuel : nat) (line : str) :
  Py.eqb (Py.strip line) "" = false ->
  no_signal (snd (Blocks.feed_fuel String_init fuel (Paragraph false []) line)).
Proof. intros Hline. destruct fuel; simpl; now apply Paragraph_feed_new. Qed.

Lemma feed_fuel_no_IndexError (fuel : nat) :
  forall b line,
  snd (Blocks.feed_fuel String_init fuel b line) <> Raise IndexError.
Proof.
  induction fuel as [|fuel IH]; intros b line; simpl;
    apply feed_body_no_IndexError; try discriminate; try exact IH.
  - intros l _. exact I.
  - intros l. apply feed_fuel_new_paragraph.
Qed.

Lemma feed_fuel_signal (fuel : nat) (b b' : block) (line : str) (e : exn) :
  Blocks.feed_fuel String_init fuel b line = (b', Raise e) ->
  is_signal e = true -> Blocks.height b' = Blocks.height b.
Proof.
  destruct fuel as [|fuel]; simpl; apply feed_body_signal; try discriminate.
  - intros l _. exact I.
  - intros l. apply feed_fuel_new_paragraph.
  - apply feed_fuel_no_IndexError.
Qed.

(** What [Block.feed] does with its elements depends on the [feed] of
    blocks no higher than they are. *)
Section Extensionality.

Variables feed1 feed2 : block -> str -> block * outcome.
Variable bound : nat.
Hypothesis feed_agree :
  forall c line, Blocks.height c <= bound -> feed1 c line = feed2 c line.
Hypothesis feed_signal :
  forall c c' line e,
  Blocks.height c <= bound -> feed1 c line = (c', Raise e) ->
  is_signal e = true -> Blocks.height c' <= bound.

Lemma feed_last_ext (elements : list block) (line : str) :
  lowest bound elements ->
  Blocks.feed_last feed1 elements line = Blocks.feed_last feed2 elements line.
Proof.
  induction elements as [|b elements IH]; intros Hlow; [reflexivity|].
  inversion Hlow as [|? ? Hb Hrest]; subst. simpl.
  destruct elements as [|b2 elements].
  - now rewrite feed_agree.
  - now rewrite IH.
Qed.

Lemma feed_last_low (elements elements' : list block) (line : str) (e : exn) :
  lowest bound elements ->
  Blocks.feed_last feed1 elements line = (elements', Raise e) ->
  is_signal e = true -> lowest bound elements'.
Proof.
  destruct elements as [|b elements _] using rev_ind.
  - intros _ [= <- _] _. constructor.
  - intros Hlow. rewrite feed_last_app. intros [= <- He] Hsig.
    apply Forall_app in Hlow. destruct Hlow as [Hbefore Hb].
    inversion Hb as [|? ? Hb' _]; subst.
    apply Forall_app. split; [exact Hbefore|].
    constructor; [|constructor].
    destruct (feed1 b line) as [b' o] eqn:Hfeed. simpl in *. subst o.
    eapply feed_signal; eassumption.
Qed.

Lemma Block_feed_new_ext (level : Z) (elements : list block) (line : str) :
  lowest bound elements ->
  Blocks.Block_feed_new feed1 level elements line
  = Blocks.Block_feed_new feed2 level elements line.
Proof.
  intros Hlow. unfold Blocks.Block_feed_new.
  rewrite <- (@feed_last_ext elements line Hlow).
  destruct (Blocks.feed_last feed1 elements line) as [elements' [u|e]] eqn:Hlast;
    [reflexivity|].
  assert (Hnew : is_signal e = true ->
    Blocks.feed_last feed1 (elements' ++ [Paragraph false []]) line
    = Blocks.feed_last feed2 (elements' ++ [Paragraph false []]) line).
  { intros Hsig. apply feed_last_ext. apply Forall_app. split.
    - eapply feed_last_low; eassumption.
    - constructor; [simpl; lia|constructor]. }
  destruct e; try reflexivity; now rewrite Hnew.
Qed.

Lemma Block_feed_ext (level : Z) (elements : list block) (line : str) :
  lowest bound elements ->
  Blocks.Block_feed feed1 level elements line
  = Blocks.Block_feed feed2 level elements line.
Proof.
  intros Hlow. unfold Blocks.Block_feed.
  destruct (Blocks.last_is_open_child elements);
    [|now apply Block_feed_new_ext].
  rewrite <- (@feed_last_ext elements line Hlow).
  destruct (Blocks.feed_last feed1 elements line) as [elements' [u|e]] eqn:Hlast;
    [reflexivity|].
  destruct e as [m l s|[r|]|m| |]; try reflexivity.
  apply Block_feed_new_ext. eapply feed_last_low; [eassumption|eassumption|reflexivity].
Qed.

Lemma height_low (elements : list block) :
  fold_right (fun c h => Nat.max (Blocks.height c) h) 0 elements <= bound ->
  lowest bound elements.
Proof.
  induction elements as [|c elements IH]; simpl; intros Hmax; constructor.
  - lia.
  - apply IH. lia.
Qed.

Lemma feed_body_ext (b : block) (line : str) :
  Blocks.height b <= S bound ->
  Blocks.feed_body String_init feed1 b line
  = Blocks.feed_body String_init feed2 b line.
Proof.
  destruct b as [en els|en lv t els|en lv d els|en ty els|en els]; simpl;
    try reflexivity; intros Hh; apply le_S_n, height_low in Hh;
    unfold Blocks.container_feed; destruct (_ || en); try reflexivity;
    now rewrite Block_feed_ext.
Qed.

End Extensionality.

Lemma feed_body_leaf (feed1 feed2 : block -> str -> block * outcome)
    (b : block) (line : str) :
  Blocks.height b = 0 ->
  Blocks.feed_body String_init feed1 b line
  = Blocks.feed_body String_init feed2 b line.
Proof. destruct b; simpl; try reflexivity; discriminate. Qed.

(** Any bound above the height of the block gives the same [feed]. *)
Lemma feed_fuel_stable (n : nat) :
  forall (m : nat) (b : block) (line : str),
  Blocks.height b <= n -> Blocks.height b <= m ->
  Blocks.feed_fuel String_init n b line = Blocks.feed_fuel String_init m b line.
Proof.
  induction n as [|n IH]; intros m b line Hn Hm.
  - destruct m; simpl; [reflexivity|]. apply feed_body_leaf. lia.
  - destruct (Blocks.height b) as [|h] eqn:Hb.
    + destruct m; simpl; now apply feed_body_leaf.
    + destruct m as [|m]; [lia|]. simpl.
      apply feed_body_ext with (bound := h); [| |lia].
      * intros c l Hc. apply IH; lia.
      * intros c c' l e Hc Hfeed Hsig.
        now rewrite (feed_fuel_signal _ _ _ Hfeed Hsig).
Qed.

(** The equation of the dispatch: a block is fed as its class feeds it,
    its own last element by the same dispatch. *)
Lemma feed_equation (b : block) (line : str) :
  Blocks.feed String_init b line
  = Blocks.feed_body String_init (Blocks.feed String_init) b line.
Proof.
  unfold Blocks.feed at 1.
  destruct (Blocks.height b) as [|h] eqn:Hb; simpl.
  - now apply feed_body_leaf.
  - apply feed_body_ext with (bound := h); [| |lia].
    + intros c l Hc. unfold Blocks.feed. apply feed_fuel_stable; lia.
    + intros c c' l e Hc Hfeed Hsig.
      now rewrite (feed_fuel_signal _ _ _ Hfeed Hsig).
Qed.

End FeedEquation.

(** ** What the scanners raise *)

(** An exception built by [FunyuSyntaxError(message)]. *)
Lemma findClose_for_raises (start end_ : str) (s : str) :
  forall (i : nat) (level : Z) (e : exn),
  funyu.findClose_for s i level start end_ = Raise e ->
  e = syntax_error close_bracket_message.
Proof.
  induction s as [|c s IH]; intros i level e; simpl.
  - now intros [= <-].
  - destruct (_ =? -1)%Z; [discriminate|]. apply IH.
Qed.

Section FunyuRaises.

Variable String_ : str -> result (list elem).
Hypothesis String_raises :
  forall s e, String_ s = Raise e -> exists message, e = syntax_error message.

Lemma funyu_span_raises (b : bracket) (text : str) (e : exn) :
  funyu.span String_ b text = Raise e -> exists message, e = syntax_error message.
Proof.
  destruct b; unfold funyu.span;
    match goal with
    | |- context [String_ ?t] => destruct (String_ t) eqn:Hs
    end; simpl; try discriminate; intros [= <-]; eapply String_raises; eassumption.
Qed.

Lemma procStr_while_raises (fuel : nat) :
  forall (string : str) (i last : nat) (elements : list elem) (e : exn),
  funyu.procStr_while String_ fuel string i last elements = Raise e ->
  exists message, e = syntax_error message.
Proof.
  induction fuel as [|fuel IH]; intros string i last elements e; simpl;
    [discriminate|].
  destruct (i <? length string); [|discriminate].
  destruct (funyu.bracket_of _) as [b|]; [|apply IH].
  destruct (funyu.findClose _ _ _) as [n|e'] eqn:Hclose; simpl.
  - destruct (funyu.span String_ b _) as [el|e'] eqn:Hspan; simpl; [apply IH|].
    intros [= <-]. eapply funyu_span_raises; eassumption.
  - intros [= <-]. apply findClose_for_raises in Hclose. eexists; exact Hclose.
Qed.

Lemma funyu_String_for_raises (matches : list Re.Match) :
  forall (string : str) (done : nat) (elements : list elem) (e : exn),
  funyu.String_for String_ matches string done elements = Raise e ->
  exists message, e = syntax_error message.
Proof.
  induction matches as [|m matches IH]; intros string done elements e;
    cbn [funyu.String_for].
  - apply procStr_while_raises.
  - destruct (funyu.procStr String_ _ elements) as [els|e'] eqn:Hproc; simpl.
    + destruct (Re.search funyu.link _); [intros [= <-]; now eexists|].
      match goal with
      | |- context [bind ?c _] => destruct c as [el|e'] eqn:Hlink
      end; simpl; [apply IH|].
      intros [= <-]. revert Hlink.
      destruct (opt_eqb _ _); unfold funyu.ImageLink_init, funyu.Link_init;
        match goal with
        | |- context [String_ ?t] => destruct (String_ t) eqn:Hs
        end; simpl; try discriminate; intros [= <-];
        eapply String_raises; eassumption.
    + intros [= <-]. eapply procStr_while_raises. exact Hproc.
Qed.

End FunyuRaises.

Lemma funyu_String_fuel_raises (fuel : nat) :
  forall s e, funyu.String_fuel fuel s = Raise e ->
  exists message, e = syntax_error message.
Proof.
  induction fuel as [|fuel IH]; intros s e; simpl; unfold funyu.String_body;
    apply funyu_String_for_raises; [discriminate|exact IH].
Qed.

(** funyu's scanner raises syntax errors only. *)
Lemma funyu_String_init_raises (s : str) (e : exn) :
  funyu.String_init s = Raise e -> exists message, e = syntax_error message.
Proof. apply funyu_String_fuel_raises. Qed.

(** In the two files the dispatch satisfies the equation of [feed]. *)
Lemma funyu_feed_equation `{PyLib} (b : block) (line : str) :
  Blocks.feed funyu.String_init b line
  = Blocks.feed_body funyu.String_init (Blocks.feed funyu.String_init) b line.
Proof.
  apply feed_equation. intros s e Hs.
  apply funyu_String_init_raises in Hs. now destruct Hs as [message ->].
Qed.

Lemma hunyu_feed_equation `{PyLib} (b : block) (line : str) :
  Blocks.feed hunyu.String_init b line
  = Blocks.feed_body hunyu.String_init (Blocks.feed hunyu.String_init) b line.
Proof.
  apply feed_equation. intros s e Hs.
  destruct (hunyu_String_init_total s) as [elements Hok]. congruence.
Qed.

(** ** The bounds of the loops

    The loops and the recursion of the two scanners are defined with a
    bound on their turns; the bounds they are run with are never reached,
    and [String_init] satisfies the equation of [String.__init__]. *)

(** The loop of [procStr] does the same with any bound above the number of
    characters left. *)
Lemma procStr_while_fuel (String_ : str -> result (list elem)) (string : str)
    (n : nat) :
  forall (m i last : nat) (elements : list elem),
  length string - i <= n -> length string - i <= m ->
  funyu.procStr_while String_ n string i last elements
  = funyu.procStr_while String_ m string i last elements.
Proof.
  induction n as [|n IH]; intros m i last elements Hn Hm.
  - destruct m as [|m]; [reflexivity|]. simpl.
    assert (Hi : (i <? length string) = false) by (apply Nat.ltb_ge; lia).
    now rewrite Hi.
  - destruct m as [|m]; simpl.
    + assert (Hi : (i <? length string) = false) by (apply Nat.ltb_ge; lia).
      now rewrite Hi.
    + destruct (i <? length string) eqn:Hi; [|reflexivity].
      destruct (funyu.bracket_of _) as [b|]; [|apply IH; lia].
      destruct (funyu.findClose _ _ _) as [k|e]; [|reflexivity]. simpl.
      destruct (funyu.span String_ b _) as [el|e]; [|reflexivity]. simpl.
      apply IH; lia.
Qed.

(** What a match leaves to its continuation is no longer than the subject,
    and a group it captures is no longer either. *)
Lemma rmatch_sound (R : Type) (r : Re.regex) :
  forall (s : str) (g : Re.groups) (k : str -> Re.groups -> option R) (x : R),
  Re.rmatch r s g k = Some x ->
  exists s' g',
    k s' g' = Some x /\ length s' <= length s
    /\ forall bound, length s <= bound -> bounded bound g -> bounded bound g'.
Proof.
  induction r as [l| |r1 IH1 r2 IH2|r1 IH1 r2 IH2|name r IH];
    intros s g k x; cbn [Re.rmatch].
  - destruct (Py.startswith s l); [|discriminate]. intros Hk.
    exists (skipn (length l) s), g. split; [exact Hk|].
    split; [rewrite length_skipn; lia|auto].
  - intros Hk. apply dotstar_some in Hk. destruct Hk as (n & _ & Hk & _).
    exists (skipn n s), g. split; [exact Hk|].
    split; [rewrite length_skipn; lia|auto].
  - intros Hk. apply IH1 in Hk. destruct Hk as (s1 & g1 & Hk & Hs1 & Hg1).
    apply IH2 in Hk. destruct Hk as (s2 & g2 & Hk & Hs2 & Hg2).
    exists s2, g2. split; [exact Hk|]. split; [lia|].
    intros bound Hb Hg. apply Hg2; [lia|]. now apply Hg1.
  - destruct (Re.rmatch r1 s g k) as [y|] eqn:H1.
    + intros [= <-]. now apply IH1.
    + apply IH2.
  - intros Hk. apply IH in Hk. destruct Hk as (s1 & g1 & Hk & Hs1 & Hg1).
    exists s1, ((name, firstn (length s - length s1) s) :: g1).
    split; [exact Hk|]. split; [exact Hs1|].
    intros bound Hb Hg. constructor; [|now apply Hg1].
    simpl. rewrite length_firstn. lia.
Qed.

Lemma guarded_sound (R : Type) (r : Re.regex) :
  guarded r = true ->
  forall (s : str) (g : Re.groups) (k : str -> Re.groups -> option R) (x : R),
  Re.rmatch r s g k = Some x ->
  exists s' g',
    k s' g' = Some x /\ length s' < length s
    /\ forall bound, length s <= S bound -> bounded bound g -> bounded bound g'.
Proof.
  induction r as [l| |r1 IH1 r2 IH2|r1 IH1 r2 IH2|name r IH];
    try discriminate; simpl guarded.
  - destruct r1 as [[|c l]| | | |]; try discriminate. intros _ s g k x.
    cbn [Re.rmatch]. destruct (Py.startswith s (c :: l)) eqn:Hs; [|discriminate].
    apply startswith_length in Hs. simpl in Hs.
    intros Hk. apply rmatch_sound in Hk.
    destruct Hk as (s2 & g2 & Hk & Hs2 & Hg2).
    rewrite length_skipn in Hs2, Hg2.
    exists s2, g2. split; [exact Hk|]. split; [simpl in *; lia|].
    intros bound Hb Hg. apply Hg2; [simpl; lia|exact Hg].
  - intros Hg s g k x. apply andb_true_iff in Hg. destruct Hg as [Hg1 Hg2].
    cbn [Re.rmatch]. destruct (Re.rmatch r1 s g k) as [y|] eqn:H1.
    + intros [= <-]. now apply IH1.
    + now apply IH2.
Qed.

Lemma lookup_bounded (bound : nat) (g : Re.groups) (name : string) (t : str) :
  bounded bound g -> Re.lookup name g = Some t -> length t <= bound.
Proof.
  induction g as [|[n u] g IH]; simpl; [discriminate|].
  intros Hg. inversion Hg as [|? ? Hu Hrest]; subst.
  destruct (String.eqb n name); [now intros [= <-]|now apply IH].
Qed.

(** A match of a guarded pattern is not empty, lies in the subject, and
    its groups are shorter than the subject. *)
Lemma guarded_match_at (r : Re.regex) (s : str) (pos : nat) (m : Re.Match) :
  guarded r = true -> Re.match_at r s pos = Some m ->
  pos < Re.m_end m /\ Re.m_end m <= pos + length s /\ short s m.
Proof.
  intros Hr Hm. unfold Re.match_at in Hm.
  apply (@guarded_sound _ r Hr) in Hm. destruct Hm as (s' & g' & Hm & Hs' & Hg').
  injection Hm as <-. simpl. split; [lia|]. split; [lia|].
  split; [lia|]. intros name t Ht. unfold Re.group in Ht. simpl in Ht.
  assert (Hb : bounded (length s - 1) g') by (apply Hg'; [lia|constructor]).
  apply (@lookup_bounded _ _ _ _ Hb) in Ht. lia.
Qed.

Lemma short_longer (s t : str) (m : Re.Match) :
  length s <= length t -> short s m -> short t m.
Proof.
  intros Hst [Hs Hg]. split; [lia|].
  intros name u Hu. specialize (Hg _ _ Hu). lia.
Qed.

Lemma guarded_search_from (r : Re.regex) (s : str) :
  guarded r = true ->
  forall (pos : nat) (m : Re.Match),
  Re.search_from r s pos = Some m ->
  pos < Re.m_end m /\ Re.m_end m <= pos + length s /\ short s m.
Proof.
  intros Hr. induction s as [|c s IH]; intros pos m; simpl.
  - destruct (Re.match_at r [] pos) as [m'|] eqn:Hm; [|discriminate].
    intros [= <-]. exact (@guarded_match_at r [] pos m' Hr Hm).
  - destruct (Re.match_at r (c :: s) pos) as [m'|] eqn:Hm.
    + intros [= <-]. exact (@guarded_match_at r (c :: s) pos m' Hr Hm).
    + intros Hs. apply IH in Hs. destruct Hs as (Hlt & Hle & Hshort).
      split; [lia|]. split; [simpl; lia|].
      apply short_longer with (s := s); [simpl; lia|exact Hshort].
Qed.

Section Finditer.

Variable r : Re.regex.
Hypothesis r_guarded : guarded r = true.
Variable string : str.

(** [finditer] gives the same matches with any bound above the number of
    characters left, and they are short. *)
Lemma finditer_from_fuel (n : nat) :
  forall (m pos : nat),
  pos <= length string -> length string - pos < n -> length string - pos < m ->
  Re.finditer_from n r string pos = Re.finditer_from m r string pos.
Proof.
  induction n as [|n IH]; intros m pos Hpos Hn Hm; [lia|].
  destruct m as [|m]; [lia|]. simpl.
  destruct (Re.search_from r (skipn pos string) pos) as [x|] eqn:Hs;
    [|reflexivity].
  apply (@guarded_search_from r _ r_guarded) in Hs.
  rewrite length_skipn in Hs. destruct Hs as (Hlt & Hle & _).
  f_equal. apply IH; lia.
Qed.

Lemma finditer_from_short (n : nat) :
  forall (pos : nat),
  Forall (short string) (Re.finditer_from n r string pos).
Proof.
  induction n as [|n IH]; intros pos; simpl; [constructor|].
  destruct (Re.search_from r (skipn pos string) pos) as [x|] eqn:Hs;
    [|constructor].
  constructor; [|apply IH].
  apply (@guarded_search_from r _ r_guarded) in Hs. destruct Hs as (_ & _ & Hshort).
  apply short_longer with (s := skipn pos string); [|exact Hshort].
  rewrite length_skipn. lia.
Qed.

Lemma finditer_short : Forall (short string) (Re.finditer r string).
Proof. apply finditer_from_short. Qed.

End Finditer.

Lemma link_guarded : guarded funyu.link = true.
Proof. reflexivity. Qed.

Lemma splitter_guarded : guarded hunyu.splitter = true.
Proof. reflexivity. Qed.

Lemma strip_length (s : str) : length (Py.strip s) <= length s.
Proof.
  destruct (strip_decompose s) as (p & q & Hs & _).
  apply (f_equal (@length ascii)) in Hs. rewrite !length_app in Hs. lia.
Qed.

Lemma slice_length (s : str) (a b : nat) : length (Py.slice s a b) <= length s - a.
Proof.
  unfold Py.slice. rewrite length_firstn, length_skipn. lia.
Qed.

(** What the scanner of funyu builds depends on what [String.__init__]
    builds from shorter strings only. *)
Section FunyuExtensionality.

Variables String1 String2 : str -> result (list elem).

Lemma funyu_span_ext (b : bracket) (text : str) :
  (forall t, length t <= length text -> String1 t = String2 t) ->
  funyu.span String1 b text = funyu.span String2 b text.
Proof.
  intros Hext. destruct b; unfold funyu.span; rewrite Hext; try reflexivity;
    simpl; lia.
Qed.

Lemma procStr_while_ext (string : str) :
  (forall t, length t < length string -> String1 t = String2 t) ->
  forall (fuel i last : nat) (elements : list elem),
  funyu.procStr_while String1 fuel string i last elements
  = funyu.procStr_while String2 fuel string i last elements.
Proof.
  intros Hext. induction fuel as [|fuel IH]; intros i last elements; simpl;
    [reflexivity|].
  destruct (i <? length string) eqn:Hi; [|reflexivity].
  apply Nat.ltb_lt in Hi.
  destruct (funyu.bracket_of _) as [b|]; [|apply IH].
  destruct (funyu.findClose _ _ _) as [n|e]; [|reflexivity]. simpl.
  rewrite funyu_span_ext.
  - destruct (funyu.span String2 b _) as [el|e]; [|reflexivity]. simpl. apply IH.
  - intros t Ht. apply Hext.
    pose proof (slice_length string (i + 2) (i + 2 + n)). lia.
Qed.

Lemma procStr_ext (string text : str) (elements : list elem) :
  (forall t, length t < length string -> String1 t = String2 t) ->
  length text <= length string ->
  funyu.procStr String1 text elements = funyu.procStr String2 text elements.
Proof.
  intros Hext Hlen. apply procStr_while_ext. intros t Ht. apply Hext. lia.
Qed.

Lemma funyu_String_for_ext (string : str) :
  (forall t, length t < length string -> String1 t = String2 t) ->
  forall (matches : list Re.Match) (done : nat) (elements : list elem),
  Forall (short string) matches ->
  funyu.String_for String1 matches string done elements
  = funyu.String_for String2 matches string done elements.
Proof.
  intros Hext. induction matches as [|m matches IH]; intros done elements Hshort;
    cbn [funyu.String_for].
  - apply (@procStr_ext string); [exact Hext|]. rewrite length_skipn. lia.
  - inversion Hshort as [|? ? [Hpos Hm] Hrest]; subst.
    rewrite (@procStr_ext string)
      by (try exact Hext; pose proof (slice_length string done (Re.m_start m)); lia).
    destruct (funyu.procStr String2 _ elements) as [els|e]; [|reflexivity]. simpl.
    destruct (Re.search funyu.link _); [reflexivity|].
    assert (Hlink :
      funyu.Link_init String1 (Py.strip (text_of (Re.group m "linktext")))
        (Py.strip (text_of (Re.group m "linkuri")))
      = funyu.Link_init String2 (Py.strip (text_of (Re.group m "linktext")))
          (Py.strip (text_of (Re.group m "linkuri")))).
    { unfold funyu.Link_init. rewrite Hext; [reflexivity|].
      pose proof (strip_length (text_of (Re.group m "linktext"))) as Hstrip.
      destruct (Re.group m "linktext") as [t|] eqn:Ht; simpl in *; [|lia].
      specialize (Hm _ _ Ht). lia. }
    assert (Himage :
      funyu.ImageLink_init String1 (Py.strip (text_of (Re.group m "linktext")))
        (Py.strip (text_of (Re.group m "linkuri")))
      = funyu.ImageLink_init String2 (Py.strip (text_of (Re.group m "linktext")))
          (Py.strip (text_of (Re.group m "linkuri")))).
    { unfold funyu.ImageLink_init. now rewrite Hext. }
    destruct (opt_eqb _ _); [rewrite Himage|rewrite Hlink];
      match goal with
      | |- context [bind ?c _] => destruct c as [el|e]
      end; simpl; try reflexivity; now apply IH.
Qed.

Lemma funyu_String_body_ext (string : str) :
  (forall t, length t < length string -> String1 t = String2 t) ->
  funyu.String_body String1 string = funyu.String_body String2 string.
Proof.
  intros Hext. unfold funyu.String_body.
  apply funyu_String_for_ext; [exact Hext|].
  apply finditer_short. exact link_guarded.
Qed.

End FunyuExtensionality.

(** Any bound above the length of the string gives the same elements. *)
Lemma funyu_String_fuel_stable (n : nat) :
  forall (m : nat) (s : str),
  length s <= n -> length s <= m ->
  funyu.String_fuel n s = funyu.String_fuel m s.
Proof.
  induction n as [|n IH]; intros m s Hn Hm.
  - destruct m; simpl; [reflexivity|].
    apply funyu_String_body_ext. intros t Ht. lia.
  - destruct m as [|m]; simpl.
    + apply funyu_String_body_ext. intros t Ht. lia.
    + apply funyu_String_body_ext. intros t Ht. apply IH; lia.
Qed.

(** The equation of [String.__init__] in funyu.py: the nested objects are
    built by [String.__init__] itself. *)
Lemma funyu_String_init_equation (s : str) :
  funyu.String_init s = funyu.String_body funyu.String_init s.
Proof.
  unfold funyu.String_init at 1.
  destruct (length s) as [|n] eqn:Hs; simpl.
  - apply funyu_String_body_ext. intros t Ht. lia.
  - apply funyu_String_body_ext. intros t Ht.
    unfold funyu.String_init. apply funyu_String_fuel_stable; lia.
Qed.

(** The same for the scanner of hunyu. *)
Section HunyuExtensionality.

Variables String1 String2 : str -> result (list elem).

Lemma hunyu_element_of_ext (string : str) (m : Re.Match) :
  (forall t, length t < length string -> String1 t = String2 t) ->
  short string m ->
  hunyu.element_of String1 m = hunyu.element_of String2 m.
Proof.
  intros Hext [Hpos Hm]. unfold hunyu.element_of.
  destruct (Re.group m "keyword") as [t|] eqn:Hk;
    [rewrite Hext; [reflexivity|eapply Hm; eassumption]|].
  destruct (Re.group m "emphasis") as [t|] eqn:He;
    [rewrite Hext; [reflexivity|eapply Hm; eassumption]|].
  destruct (Re.group m "code") as [t|] eqn:Hc;
    [rewrite Hext; [reflexivity|exact Hpos]|].
  destruct (Re.group m "linktype") as [t|] eqn:Hl; [|reflexivity].
  destruct (Py.eqb t "IMG:"); [rewrite Hext; [reflexivity|exact Hpos]|].
  rewrite Hext; [reflexivity|].
  pose proof (strip_length (text_of (Re.group m "linktext"))) as Hstrip.
  destruct (Re.group m "linktext") as [u|] eqn:Hu; simpl in *; [|lia].
  specialize (Hm _ _ Hu). lia.
Qed.

Lemma hunyu_String_for_ext (string : str) :
  (forall t, length t < length string -> String1 t = String2 t) ->
  forall (matches : list Re.Match) (done : nat) (elements : list elem),
  Forall (short string) matches ->
  hunyu.String_for String1 matches string done elements
  = hunyu.String_for String2 matches string done elements.
Proof.
  intros Hext. induction matches as [|m matches IH]; intros done elements Hshort;
    cbn [hunyu.String_for]; [reflexivity|].
  inversion Hshort as [|? ? Hm Hrest]; subst.
  rewrite (hunyu_element_of_ext Hext Hm).
  destruct (hunyu.element_of String2 m) as [e|e]; [|reflexivity]. simpl.
  now apply IH.
Qed.

Lemma hunyu_String_body_ext (string : str) :
  (forall t, length t < length string -> String1 t = String2 t) ->
  hunyu.String_body String1 string = hunyu.String_body String2 string.
Proof.
  intros Hext. unfold hunyu.String_body.
  apply hunyu_String_for_ext; [exact Hext|].
  apply finditer_short. exact splitter_guarded.
Qed.

End HunyuExtensionality.

Lemma hunyu_String_fuel_stable (n : nat) :
  forall (m : nat) (s : str),
  length s <= n -> length s <= m ->
  hunyu.String_fuel n s = hunyu.String_fuel m s.
Proof.
  induction n as [|n IH]; intros m s Hn Hm.
  - destruct m; simpl; [reflexivity|].
    apply hunyu_String_body_ext. intros t Ht. lia.
  - destruct m as [|m]; simpl.
    + apply hunyu_String_body_ext. intros t Ht. lia.
    + apply hunyu_String_body_ext. intros t Ht. apply IH; lia.
Qed.

(** The equation of [String.__init__] in hunyu.py. *)
Lemma hunyu_String_init_equation (s : str) :
  hunyu.String_init s = hunyu.String_body hunyu.String_init s.
Proof.
  unfold hunyu.String_init at 1.
  destruct (length s) as [|n] eqn:Hs; simpl.
  - apply hunyu_String_body_ext. intros t Ht. lia.
  - apply hunyu_String_body_ext. intros t Ht.
    unfold hunyu.String_init. apply hunyu_String_fuel_stable; lia.
Qed.

(** The bounds [procStr] and [finditer] are run with are never reached. *)
Lemma procStr_fuel (String_ : str -> result (list elem)) (string : str)
    (elements : list elem) (fuel : nat) :
  length string <= fuel ->
  funyu.procStr String_ string elements
  = funyu.procStr_while String_ fuel string 0 0 elements.
Proof. intros Hfuel. apply procStr_while_fuel; lia. Qed.

Lemma finditer_fuel (r : Re.regex) (string : str) (fuel : nat) :
  guarded r = true -> length string < fuel ->
  Re.finditer r string = Re.finditer_from fuel r string 0.
Proof. intros Hr Hfuel. apply finditer_from_fuel; [exact Hr|lia|lia|lia]. Qed.

(** ** The closing delimiter [findClose] finds *)

Lemma depth_0 (start end_ : str) (c : ascii) (s : str) :
  depth start end_ (c :: s) 0 = delta start end_ (c :: s).
Proof. simpl. lia. Qed.

Lemma delta_closes (start end_ s : str) :
  delta start end_ s = (-1)%Z ->
  Py.startswith s end_ = true /\ Py.startswith s start = false.
Proof.
  unfold delta. destruct (Py.startswith s start); [discriminate|].
  destruct (Py.startswith s end_); [auto|discriminate].
Qed.

Lemma delta_bounds (start end_ s : str) :
  (-1 <= delta start end_ s <= 1)%Z.
Proof.
  unfold delta. destruct (Py.startswith s start); [lia|].
  destruct (Py.startswith s end_); lia.
Qed.

Lemma findClose_for_inv (start end_ : str) (s : str) :
  forall (i : nat) (level : Z) (n : nat),
  (0 <= level)%Z ->
  funyu.findClose_for s i level start end_ = Ok n ->
  exists k,
    n = i + k /\ k < length s
    /\ Py.startswith (skipn k s) end_ = true
    /\ Py.startswith (skipn k s) start = false
    /\ (level + depth start end_ s k)%Z = (-1)%Z
    /\ forall j, j < k -> (level + depth start end_ s j)%Z <> (-1)%Z.
Proof.
  induction s as [|c s IH]; intros i level n Hlevel; [discriminate|].
  rewrite findClose_for_step.
  pose proof (delta_bounds start end_ (c :: s)) as Hd.
  destruct (level + delta start end_ (c :: s) =? -1)%Z eqn:Hnow.
  - intros [= <-]. apply Z.eqb_eq in Hnow. exists 0.
    assert (Hdelta : delta start end_ (c :: s) = (-1)%Z) by lia.
    destruct (delta_closes _ _ _ Hdelta) as [Hend Hstart].
    split; [lia|]. split; [simpl; lia|].
    split; [exact Hend|]. split; [exact Hstart|].
    split; [rewrite depth_0; exact Hnow|]. intros j Hj. lia.
  - apply Z.eqb_neq in Hnow. intros Hrest.
    apply IH in Hrest; [|lia].
    destruct Hrest as (k & -> & Hk & Hend & Hstart & Hdepth & Hfirst).
    exists (S k). split; [lia|]. split; [simpl; lia|].
    split; [exact Hend|]. split; [exact Hstart|].
    split; [cbn [depth]; lia|].
    intros [|j] Hj; [rewrite depth_0; exact Hnow|].
    cbn [depth]. specialize (Hfirst j). lia.
Qed.

(** X1: the index [findClose] returns is in the string, a closing
    delimiter stands there and no opening one, and it is the first index
    at which the closing delimiters met outnumber the opening ones. *)
Theorem findClose_closes (string start end_ : str) (n : nat) :
  funyu.findClose string start end_ = Ok n ->
  n < length string
  /\ Py.startswith (skipn n string) end_ = true
  /\ Py.startswith (skipn n string) start = false
  /\ depth start end_ string n = (-1)%Z
  /\ forall j, j < n -> depth start end_ string j <> (-1)%Z.
Proof.
  intros Hclose. apply findClose_for_inv in Hclose; [|lia].
  destruct Hclose as (k & -> & Hk & Hend & Hstart & Hdepth & Hfirst).
  simpl. split; [lia|]. split; [exact Hend|]. split; [exact Hstart|].
  split; [lia|]. intros j Hj. specialize (Hfirst j Hj). lia.
Qed.

Lemma findClose_closes_witness :
  7 < length ("a<<b>>c>> d" : str)
  /\ Py.startswith (skipn 7 "a<<b>>c>> d") ">>" = true
  /\ Py.startswith (skipn 7 "a<<b>>c>> d") "<<" = false
  /\ depth "<<" ">>" "a<<b>>c>> d" 7 = (-1)%Z
  /\ forall j, j < 7 -> depth "<<" ">>" "a<<b>>c>> d" j <> (-1)%Z.
Proof. apply (@findClose_closes "a<<b>>c>> d" "<<" ">>" 7). reflexivity. Defined.

(** ** Markup of what was scanned *)

(** A match of the link pattern somewhere in a text: the text holds a
    link. *)
Lemma tail_at_holds_link (lt w : str) (n n2 : nat) :
  ~ In Py.LF lt -> tail_at w n n2 -> holds_link ("[" ++ lt ++ w).
Proof.
  intros Hlt (Hn & Hmid & Hn2 & Hclose).
  apply startswith_inv in Hmid. destruct Hmid as [rest Hrest].
  apply startswith_inv in Hclose. destruct Hclose as [rest2 Hrest2].
  exists [], (lt ++ firstn n w), (firstn n2 (skipn (n + 2) w)), rest2.
  split.
  - simpl. f_equal. rewrite <- app_assoc. f_equal.
    rewrite <- (firstn_skipn n w) at 1. f_equal.
    rewrite Hrest.
    assert (Hskip : skipn (n + 2) w = rest).
    { rewrite Nat.add_comm, <- skipn_skipn, Hrest. reflexivity. }
    rewrite Hskip in *. simpl. do 2 f_equal.
    rewrite <- (firstn_skipn n2 rest) at 1. now rewrite Hrest2.
  - split.
    + intros Hin. apply in_app_or in Hin. destruct Hin as [Hin|Hin]; [tauto|].
      now apply Hn.
    + apply Hn2.
Qed.

Lemma holds_link_cons (c : ascii) (text : str) :
  holds_link text -> holds_link (c :: text).
Proof.
  intros (a & b & u & d & -> & Hb & Hu).
  exists (c :: a), b, u, d. now repeat split.
Qed.

Lemma holds_link_inside (p text q : str) :
  holds_link text -> holds_link (p ++ text ++ q).
Proof.
  intros Htext. apply holds_link_app with (extra := q) in Htext.
  induction p as [|c p IH]; [exact Htext|].
  now apply holds_link_cons.
Qed.

Lemma search_from_link_holds (s : str) :
  forall (pos : nat) (m : Re.Match),
  Re.search_from funyu.link s pos = Some m -> holds_link s.
Proof.
  assert (Hhere : forall (t : str) (pos : nat) (m : Re.Match),
    Re.match_at funyu.link t pos = Some m -> holds_link t).
  { intros t pos m Hm. apply link_match_at_inv in Hm.
    destruct Hm as (lt & w & n & n2 & -> & Hlt & Htail & _).
    apply tail_at_holds_link with (n := n) (n2 := n2); [|exact Htail].
    destruct Hlt as [->| ->]; simpl; intuition discriminate. }
  induction s as [|c s IH]; intros pos m; simpl.
  - destruct (Re.match_at funyu.link [] pos) as [m'|] eqn:Hm; [|discriminate].
    intros _. eapply Hhere; eassumption.
  - destruct (Re.match_at funyu.link (c :: s) pos) as [m'|] eqn:Hm.
    + intros _. eapply Hhere; eassumption.
    + intros Hs. apply holds_link_cons. eapply IH; eassumption.
Qed.

(** The link pattern matches in a text if and only if the text holds a
    link. *)
Lemma search_link_iff (text : str) :
  Re.search funyu.link text <> None <-> holds_link text.
Proof.
  split; [|apply search_holds_link].
  unfold Re.search. destruct (Re.search_from funyu.link text 0) as [m|] eqn:Hs;
    [|congruence].
  intros _. eapply search_from_link_holds; eassumption.
Qed.

Lemma search_link_none_iff (text : str) :
  Re.search funyu.link text = None <-> ~ holds_link text.
Proof.
  rewrite <- search_link_iff.
  destruct (Re.search funyu.link text); split; intros Hx; try congruence.
  elim Hx. discriminate.
Qed.

(** A part of a text without link holds no link. *)
Lemma search_link_slice (s : str) (a b : nat) :
  Re.search funyu.link s = None -> Re.search funyu.link (Py.slice s a b) = None.
Proof.
  rewrite !search_link_none_iff. intros Hs Hpart. apply Hs.
  rewrite <- (firstn_skipn a s).
  rewrite <- (firstn_skipn (b - a) (skipn a s)).
  now apply holds_link_inside.
Qed.

Lemma String_as_funyu_app (l1 l2 : list elem) :
  funyu.String_as_funyu (l1 ++ l2)
  = funyu.String_as_funyu l1 ++ funyu.String_as_funyu l2.
Proof. unfold funyu.String_as_funyu. now rewrite map_app, concat_app. Qed.

Lemma firstn_plus (s : str) (a k : nat) :
  firstn (a + k) s = firstn a s ++ firstn k (skipn a s).
Proof.
  revert s; induction a as [|a IH]; intros s; [reflexivity|].
  destruct s as [|c s]; simpl; [now rewrite firstn_nil|].
  now rewrite IH.
Qed.

Lemma firstn_slice (s : str) (a b : nat) :
  a <= b -> firstn a s ++ Py.slice s a b = firstn b s.
Proof.
  intros Hab. unfold Py.slice.
  replace b with (a + (b - a)) at 2 by lia.
  now rewrite firstn_plus.
Qed.

Lemma slice_startswith (s p : str) (a : nat) :
  Py.startswith (skipn a s) p = true -> Py.slice s a (a + length p) = p.
Proof.
  intros Hp. apply startswith_inv in Hp. destruct Hp as [rest Hrest].
  unfold Py.slice. rewrite Hrest.
  replace (a + length p - a) with (length p) by lia.
  apply firstn_length_app.
Qed.

Lemma slice_full_length (s : str) (a b : nat) :
  Py.slice s a b <> [] -> a < length s.
Proof.
  unfold Py.slice. intros Hne.
  destruct (Nat.lt_ge_cases a (length s)) as [Hlt|Hge]; [exact Hlt|].
  rewrite skipn_all2 in Hne by exact Hge. now destruct (b - a).
Qed.

Section FunyuRoundTrip.

Variable String_ : str -> result (list elem).
Variable w : str.
Hypothesis w_no_link : Re.search funyu.link w = None.
Hypothesis String_round_trip :
  forall t elements,
  length t < length w -> Re.search funyu.link t = None ->
  String_ t = Ok elements -> funyu.String_as_funyu elements = t.

Lemma funyu_span_round_trip (b : bracket) (a c : nat) (e : elem) :
  a < length w -> 0 < a ->
  funyu.span String_ b (Py.slice w a c) = Ok e ->
  funyu.as_funyu e = opening b ++ Py.slice w a c ++ closing b.
Proof.
  intros Ha Hpos.
  assert (Hlen : length (Py.slice w a c) < length w).
  { pose proof (slice_length w a c). lia. }
  pose proof (@search_link_slice w a c w_no_link) as Hno.
  destruct b; unfold funyu.span;
    match goal with
    | |- context [String_ ?t] => destruct (String_ t) as [els|x] eqn:Hs
    end; simpl; try discriminate; intros [= <-]; simpl; try reflexivity;
    change (concat (map funyu.as_funyu els)) with (funyu.String_as_funyu els);
    now rewrite (String_round_trip Hlen Hno Hs).
Qed.

Lemma procStr_remain_round_trip (last : nat) (elements : list elem) :
  funyu.String_as_funyu elements = firstn last w ->
  funyu.String_as_funyu (funyu.procStr_remain w last elements) = w.
Proof.
  intros Hels. unfold funyu.procStr_remain.
  destruct (skipn last w) as [|c rest] eqn:Hrest.
  - rewrite Hels. rewrite <- (firstn_skipn last w) at 2.
    now rewrite Hrest, app_nil_r.
  - rewrite String_as_funyu_app, Hels. unfold funyu.String_as_funyu. simpl.
    rewrite app_nil_r, <- Hrest. apply firstn_skipn.
Qed.

Lemma procStr_while_round_trip (fuel : nat) :
  forall (i last : nat) (elements result : list elem),
  last <= i ->
  funyu.String_as_funyu elements = firstn last w ->
  funyu.procStr_while String_ fuel w i last elements = Ok result ->
  funyu.String_as_funyu result = w.
Proof.
  induction fuel as [|fuel IH]; intros i last elements result Hlast Hels; simpl.
  - intros [= <-]. now apply procStr_remain_round_trip.
  - destruct (i <? length w) eqn:Hi;
      [|intros [= <-]; now apply procStr_remain_round_trip].
    apply Nat.ltb_lt in Hi.
    destruct (funyu.bracket_of _) as [b|] eqn:Hb; [|apply IH; [lia|exact Hels]].
    apply bracket_of_some in Hb.
    destruct (funyu.findClose _ _ _) as [n|x] eqn:Hclose; [|discriminate]. simpl.
    destruct (funyu.span String_ b _) as [e|x] eqn:Hspan; [|discriminate]. simpl.
    apply findClose_for_inv in Hclose; [|lia].
    destruct Hclose as (k & Hn & Hk & Hend & _). simpl in Hn. subst k.
    rewrite skipn_skipn in Hend. rewrite length_skipn in Hk.
    assert (Hclosing : Py.slice w (i + 2 + n) (i + 2 + n + 2) = closing b).
    { replace (n + (i + 2)) with (i + 2 + n) in Hend by lia.
      apply slice_startswith in Hend. now destruct b. }
    apply funyu_span_round_trip in Hspan; [|lia|lia].
    apply IH; [lia|].
    rewrite !String_as_funyu_app, Hels.
    unfold funyu.String_as_funyu. cbn [map concat funyu.as_funyu].
    rewrite !app_nil_r, Hspan, <- Hb, <- Hclosing.
    rewrite !app_assoc.
    rewrite firstn_slice by exact Hlast.
    rewrite firstn_slice by lia.
    rewrite firstn_slice by lia.
    apply firstn_slice. lia.
Qed.

Lemma funyu_String_body_round_trip (elements : list elem) :
  funyu.String_body String_ w = Ok elements ->
  funyu.String_as_funyu elements = w.
Proof.
  unfold funyu.String_body. rewrite (@finditer_none funyu.link w w_no_link).
  cbn [funyu.String_for skipn]. unfold funyu.procStr.
  apply procStr_while_round_trip; [lia|reflexivity].
Qed.

End FunyuRoundTrip.

Lemma funyu_String_fuel_round_trip (fuel : nat) :
  forall (s : str) (elements : list elem),
  length s <= fuel -> Re.search funyu.link s = None ->
  funyu.String_fuel fuel s = Ok elements ->
  funyu.String_as_funyu elements = s.
Proof.
  induction fuel as [|fuel IH]; intros s elements Hlen Hno; simpl;
    apply funyu_String_body_round_trip; try exact Hno.
  - intros t els Ht. lia.
  - intros t els Ht Hnot. apply IH; [lia|exact Hnot].
Qed.

(** X2: in funyu, the markup of the elements scanned from a string in
    which the link pattern matches nowhere is the string itself. *)
Theorem funyu_markup_round_trip (s : str) (elements : list elem) :
  Re.search funyu.link s = None ->
  funyu.String_init s = Ok elements ->
  funyu.String_as_funyu elements = s.
Proof. intros Hno. now apply funyu_String_fuel_round_trip. Qed.

Lemma funyu_markup_round_trip_witness :
  funyu.String_as_funyu
    [Text "a "; Emphasis [Text "b "; Keyword [Text "c"]; Text " "; Code [] "d"];
     Text " e"]
  = "a <<b [[c]] {{d}}>> e".
Proof.
  apply (@funyu_markup_round_trip "a <<b [[c]] {{d}}>> e"); reflexivity.
Defined.

Lemma match_at_link_holds (t : str) (pos : nat) (m : Re.Match) :
  Re.match_at funyu.link t pos = Some m -> holds_link t.
Proof.
  intros Hm. apply link_match_at_inv in Hm.
  destruct Hm as (lt & w & n & n2 & -> & Hlt & Htail & _).
  apply tail_at_holds_link with (n := n) (n2 := n2); [|exact Htail].
  destruct Hlt as [->| ->]; simpl; intuition discriminate.
Qed.

(** In a text without link, the link pattern matches at no place. *)
Lemma match_at_link_none (w : str) (p pos : nat) :
  Re.search funyu.link w = None ->
  Re.match_at funyu.link (skipn p w) pos = None.
Proof.
  rewrite search_link_none_iff. intros Hw.
  destruct (Re.match_at funyu.link (skipn p w) pos) as [m|] eqn:Hm; [|reflexivity].
  elim Hw. apply match_at_link_holds in Hm.
  rewrite <- (firstn_skipn p w). rewrite <- (app_nil_r (skipn p w)).
  now apply holds_link_inside.
Qed.

(** Where a search found its match. *)
Lemma search_from_inv (r : Re.regex) (s : str) :
  forall (pos : nat) (m : Re.Match),
  Re.search_from r s pos = Some m ->
  exists p, p <= length s /\ Re.match_at r (skipn p s) (pos + p) = Some m.
Proof.
  induction s as [|c s IH]; intros pos m; simpl.
  - destruct (Re.match_at r [] pos) as [m'|] eqn:Hm; [|discriminate].
    intros [= <-]. exists 0. rewrite Nat.add_0_r. now split.
  - destruct (Re.match_at r (c :: s) pos) as [m'|] eqn:Hm.
    + intros [= <-]. exists 0. rewrite Nat.add_0_r. split; [lia|exact Hm].
    + intros Hs. apply IH in Hs. destruct Hs as (p & Hp & Hs).
      exists (S p). split; [lia|]. now rewrite Nat.add_succ_r.
Qed.

Section BracketedInv.

Variable R : Type.
Variable F : str -> Re.groups -> R.
Variable g : Re.groups.

(** What a match of a span alternative is made of. *)
Lemma bracketed_inv (o cl s : str) (name : string) (r : R) :
  Re.rmatch (bracketed o name cl) s g (fun s' g' => Some (F s' g')) = Some r ->
  exists n,
    Py.startswith s o = true
    /\ reach n (skipn (length o) s)
    /\ Py.startswith (skipn n (skipn (length o) s)) cl = true
    /\ r = F (skipn (length cl) (skipn n (skipn (length o) s)))
             ((name, firstn n (skipn (length o) s)) :: g).
Proof.
  unfold bracketed. cbn [Re.rmatch].
  destruct (Py.startswith s o); [|discriminate].
  intros Hm. apply dotstar_some in Hm. destruct Hm as (n & Hn & Hm & _).
  destruct (Py.startswith (skipn n (skipn (length o) s)) cl) eqn:Hcl;
    [|discriminate].
  exists n. split; [reflexivity|]. split; [exact Hn|]. split; [exact Hcl|].
  injection Hm as <-. rewrite length_skipn_sub by apply Hn. reflexivity.
Qed.

End BracketedInv.

(** A match of hunyu's pattern in a text without link: a span between an
    opening delimiter and a closing one, its content on one line. *)
Lemma splitter_match_at_inv (s : str) (pos : nat) (m : Re.Match) :
  Re.match_at funyu.link s pos = None ->
  Re.match_at hunyu.splitter s pos = Some m ->
  exists b n,
    Py.startswith s (opening b) = true
    /\ reach n (skipn 2 s)
    /\ Py.startswith (skipn n (skipn 2 s)) (closing b) = true
    /\ m = {| Re.m_start := pos;
              Re.m_end := pos + (2 + n + 2);
              Re.m_groups := [(group_name b, firstn n (skipn 2 s))] |}.
Proof.
  intros Hlink. unfold Re.match_at in *. rewrite splitter_unfold.
  assert (Hend : forall o cl n,
    length o = 2 -> length cl = 2 ->
    Py.startswith s o = true -> reach n (skipn 2 s) ->
    Py.startswith (skipn n (skipn 2 s)) cl = true ->
    length s - length (skipn 2 (skipn n (skipn 2 s))) = 2 + n + 2).
  { intros o cl n Ho Hcl Hs Hn Hc.
    apply startswith_length in Hs, Hc. rewrite !length_skipn in *. lia. }
  cbn [Re.rmatch].
  destruct (Re.rmatch (bracketed "[[" "keyword" "]]") s [] _) as [x|] eqn:H1.
  { intros [= <-]. apply bracketed_inv in H1.
    destruct H1 as (n & Hs & Hn & Hc & ->). exists BKeyword, n.
    simpl length in *. rewrite (Hend "[[" "]]" n) by auto. auto. }
  destruct (Re.rmatch (bracketed "<<" "emphasis" ">>") s [] _) as [x|] eqn:H2.
  { intros [= <-]. apply bracketed_inv in H2.
    destruct H2 as (n & Hs & Hn & Hc & ->). exists BEmphasis, n.
    simpl length in *. rewrite (Hend "<<" ">>" n) by auto. auto. }
  destruct (Re.rmatch (bracketed "{{" "code" "}}") s [] _) as [x|] eqn:H3.
  { intros [= <-]. apply bracketed_inv in H3.
    destruct H3 as (n & Hs & Hn & Hc & ->). exists BCode, n.
    simpl length in *. rewrite (Hend "{{" "}}" n) by auto. auto. }
  congruence.
Qed.

Lemma String_as_hunyu_app (l1 l2 : list elem) :
  hunyu.String_as_hunyu (l1 ++ l2)
  = hunyu.String_as_hunyu l1 ++ hunyu.String_as_hunyu l2.
Proof. unfold hunyu.String_as_hunyu. now rewrite map_app, concat_app. Qed.

Section HunyuRoundTrip.

Variable String_ : str -> result (list elem).
Variable w : str.
Hypothesis w_no_link : Re.search funyu.link w = None.
Hypothesis String_round_trip :
  forall t elements,
  length t < length w -> Re.search funyu.link t = None ->
  String_ t = Ok elements -> hunyu.String_as_hunyu elements = t.

Lemma hunyu_element_round_trip (b : bracket) (a n : nat) (pos : nat)
    (e : option elem) :
  a < length w -> 0 < a ->
  hunyu.element_of String_
    {| Re.m_start := pos; Re.m_end := pos + (2 + n + 2);
       Re.m_groups := [(group_name b, Py.slice w a (a + n))] |} = Ok e ->
  exists e', e = Some e'
    /\ hunyu.as_hunyu e' = opening b ++ Py.slice w a (a + n) ++ closing b.
Proof.
  intros Ha Hpos.
  assert (Hlen : length (Py.slice w a (a + n)) < length w).
  { pose proof (slice_length w a (a + n)). lia. }
  pose proof (@search_link_slice w a (a + n) w_no_link) as Hno.
  destruct b; unfold hunyu.element_of, Re.group;
    cbn [Re.m_groups Re.lookup group_name]; simpl String.eqb; cbv iota;
    match goal with
    | |- context [String_ ?t] => destruct (String_ t) as [els|x] eqn:Hs
    end; simpl; try discriminate; intros [= <-]; eexists; (split; [reflexivity|]);
    simpl; try reflexivity;
    change (concat (map hunyu.as_hunyu els)) with (hunyu.String_as_hunyu els);
    now rewrite (String_round_trip Hlen Hno Hs).
Qed.

Lemma hunyu_String_for_round_trip (fuel : nat) :
  forall (pos : nat) (elements result : list elem),
  pos <= length w ->
  hunyu.String_as_hunyu elements = firstn pos w ->
  hunyu.String_for String_ (Re.finditer_from fuel hunyu.splitter w pos) w pos
    elements = Ok result ->
  hunyu.String_as_hunyu result = w.
Proof.
  assert (Hlast : forall pos elements result,
    hunyu.String_as_hunyu elements = firstn pos w ->
    hunyu.String_for String_ [] w pos elements = Ok result ->
    hunyu.String_as_hunyu result = w).
  { intros pos elements result Hels [= <-].
    rewrite String_as_hunyu_app, Hels. unfold hunyu.String_as_hunyu. simpl.
    rewrite app_nil_r. apply firstn_skipn. }
  induction fuel as [|fuel IH]; intros pos elements result Hpos Hels;
    cbn [Re.finditer_from]; [now apply Hlast|].
  destruct (Re.search_from hunyu.splitter (skipn pos w) pos) as [m|] eqn:Hs;
    [|now apply Hlast].
  apply search_from_inv in Hs. destruct Hs as (p & Hp & Hm).
  rewrite length_skipn in Hp. rewrite skipn_skipn in Hm.
  apply splitter_match_at_inv in Hm; [|apply match_at_link_none, w_no_link].
  destruct Hm as (b & n & Hopen & Hn & Hclose & ->).
  rewrite skipn_skipn in Hn, Hclose. rewrite !skipn_skipn in Hclose.
  assert (Hlen : pos + p + 2 + n + 2 <= length w).
  { apply startswith_length in Hclose. rewrite length_skipn in Hclose.
    destruct Hn as [Hn _]. rewrite length_skipn in Hn.
    apply startswith_length in Hopen. rewrite length_skipn in Hopen.
    replace (length (opening b)) with 2 in Hopen by now destruct b.
    replace (length (closing b)) with 2 in Hclose by now destruct b. lia. }
  assert (Hbody : firstn n (skipn 2 (skipn (p + pos) w))
                  = Py.slice w (pos + p + 2) (pos + p + 2 + n)).
  { unfold Py.slice. rewrite skipn_skipn. f_equal; [lia|f_equal; lia]. }
  rewrite Hbody.
  cbn [hunyu.String_for Re.m_start Re.m_end].
  destruct (hunyu.element_of String_ _) as [e|x] eqn:He; [|discriminate].
  simpl bind.
  apply hunyu_element_round_trip in He; [|lia|lia].
  destruct He as (e' & -> & He').
  apply IH; [lia|].
  rewrite !String_as_hunyu_app, Hels.
  unfold hunyu.String_as_hunyu. cbn [map concat hunyu.as_hunyu].
  rewrite !app_nil_r, He'.
  assert (Hopening : Py.slice w (pos + p) (pos + p + 2) = opening b).
  { replace (p + pos) with (pos + p) in Hopen by lia.
    apply slice_startswith in Hopen. now destruct b. }
  assert (Hclosing : Py.slice w (pos + p + 2 + n) (pos + p + 2 + n + 2) = closing b).
  { replace (n + 2 + (p + pos)) with (pos + p + 2 + n) in Hclose by lia.
    apply slice_startswith in Hclose. now destruct b. }
  rewrite <- Hopening, <- Hclosing.
  rewrite !app_assoc.
  rewrite firstn_slice by lia.
  rewrite firstn_slice by lia.
  rewrite firstn_slice by lia.
  rewrite firstn_slice by lia. f_equal. lia.
Qed.

Lemma hunyu_String_body_round_trip (elements : list elem) :
  hunyu.String_body String_ w = Ok elements ->
  hunyu.String_as_hunyu elements = w.
Proof.
  unfold hunyu.String_body, Re.finditer.
  apply hunyu_String_for_round_trip; [lia|reflexivity].
Qed.

End HunyuRoundTrip.

Lemma hunyu_String_fuel_round_trip (fuel : nat) :
  forall (s : str) (elements : list elem),
  length s <= fuel -> Re.search funyu.link s = None ->
  hunyu.String_fuel fuel s = Ok elements ->
  hunyu.String_as_hunyu elements = s.
Proof.
  induction fuel as [|fuel IH]; intros s elements Hlen Hno; simpl;
    apply hunyu_String_body_round_trip; try exact Hno.
  - intros t els Ht. lia.
  - intros t els Ht Hnot. apply IH; [lia|exact Hnot].
Qed.

(** X3: in hunyu, a string in which the link pattern matches nowhere is
    scanned without error, and the markup of its elements is the string
    itself. *)
Theorem hunyu_markup_round_trip (s : str) :
  Re.search funyu.link s = None ->
  exists elements,
    hunyu.String_init s = Ok elements
    /\ hunyu.String_as_hunyu elements = s.
Proof.
  intros Hno. destruct (hunyu_String_init_total s) as [elements Hok].
  exists elements. split; [exact Hok|].
  now apply hunyu_String_fuel_round_trip with (fuel := length s).
Qed.

Lemma hunyu_markup_round_trip_witness :
  exists elements,
    hunyu.String_init "a <<b [[c]] {{d}}>> e" = Ok elements
    /\ hunyu.String_as_hunyu elements = "a <<b [[c]] {{d}}>> e".
Proof. apply (@hunyu_markup_round_trip "a <<b [[c]] {{d}}>> e"). reflexivity. Defined.

(** ** The metadata block and the body *)

Lemma dict_get_set (key value : str) (d : list (str * str)) :
  dict_get key (dict_set key value d) = Some value.
Proof.
  induction d as [|[k v] d IH]; simpl.
  - now rewrite eqb_refl.
  - destruct (Py.eqb k key) eqn:Hk; simpl; now rewrite Hk.
Qed.

Lemma dict_get_set_other (key other value : str) (d : list (str * str)) :
  other <> key ->
  dict_get other (dict_set key value d) = dict_get other d.
Proof.
  intros Hneq. induction d as [|[k v] d IH]; simpl.
  - assert (Hk : Py.eqb key other = false) by (apply eqb_neq; congruence).
    now rewrite Hk.
  - destruct (Py.eqb k key) eqn:Hk; simpl.
    + apply eqb_eq in Hk. subst k.
      assert (Hk : Py.eqb key other = false) by (apply eqb_neq; congruence).
      now rewrite Hk.
    + now rewrite IH.
Qed.

(** X4: a metadata line [key: value] the open block accepts is stored
    under the key before the first colon, stripped, with the rest of the
    line, stripped, as its value: the dictionary then gives that value for
    that key, whatever it held, and what it gave for every other key. *)
Theorem metadata_feed_lookup (self : MetaData) (k rest : str) :
  ended self = false -> ~ In ":"%char k -> Py.strip k <> [] ->
  let self' := fst (Blocks.MetaData_feed self (k ++ ":" ++ rest)) in
  snd (Blocks.MetaData_feed self (k ++ ":" ++ rest)) = Return
  /\ dict_get (Py.strip k) (items self') = Some (Py.strip rest)
  /\ forall key, key <> Py.strip k ->
       dict_get key (items self') = dict_get key (items self).
Proof.
  intros Hended Hk Hkey self'. subst self'.
  rewrite (@MetaData_feed_key_value self k rest Hended Hk Hkey). simpl.
  split; [reflexivity|]. split; [apply dict_get_set|].
  intros key Hneq. now apply dict_get_set_other.
Qed.

Lemma metadata_feed_lookup_witness :
  let self := {| ended := false; items := [("title", "old"); ("author", "MacRat")] |} in
  let self' := fst (Blocks.MetaData_feed self (" title " ++ ":" ++ " a: b ")) in
  snd (Blocks.MetaData_feed self (" title " ++ ":" ++ " a: b ")) = Return
  /\ dict_get (Py.strip " title ") (items self') = Some (Py.strip " a: b ")
  /\ forall key, key <> Py.strip " title " ->
       dict_get key (items self') = dict_get key (items self).
Proof.
  intros self.
  apply (@metadata_feed_lookup self " title " " a: b ").
  - reflexivity.
  - intros Hin. simpl in Hin. intuition discriminate.
  - discriminate.
Defined.

Section Phases.

Context `{PyLib}.

Lemma Funyu_feed_closed (self : Funyu) (line : str) :
  ended (metadata self) = true ->
  metadata (fst (Funyu_feed self line)) = metadata self.
Proof.
  intros Hended. unfold Funyu_feed, Funyu_feed_line.
  destruct (Py.contains [Py.LF] line); [reflexivity|]. simpl.
  rewrite Hended.
  destruct (Blocks.Block_feed _ _ _ _) as [els [u|[]]]; reflexivity.
Qed.

Lemma Funyu_feed_all_closed (lines : list str) :
  forall self : Funyu,
  ended (metadata self) = true ->
  metadata (fst (Funyu_feed_all self lines)) = metadata self.
Proof.
  induction lines as [|l lines IH]; intros self Hended; [reflexivity|]. simpl.
  pose proof (Funyu_feed_closed self l Hended) as Hl.
  destruct (Funyu_feed self l) as [s1 [u|e]]; simpl in Hl; [|exact Hl].
  rewrite IH; [exact Hl|]. now rewrite Hl.
Qed.

Lemma Hunyu_feed_closed (self : Hunyu) (line : str) :
  ended (h_metadata self) = true ->
  h_metadata (fst (Hunyu_feed self line)) = h_metadata self.
Proof.
  intros Hended. unfold Hunyu_feed.
  destruct (Py.contains [Py.LF] line); [reflexivity|].
  rewrite Hended.
  destruct (Blocks.Block_feed _ _ _ _) as [els o]; reflexivity.
Qed.

Lemma Hunyu_feed_all_closed (lines : list str) :
  forall self : Hunyu,
  ended (h_metadata self) = true ->
  h_metadata (fst (Hunyu_feed_all self lines)) = h_metadata self.
Proof.
  induction lines as [|l lines IH]; intros self Hended; [reflexivity|]. simpl.
  pose proof (Hunyu_feed_closed self l Hended) as Hl.
  destruct (Hunyu_feed self l) as [s1 [u|e]]; simpl in Hl; [|exact Hl].
  rewrite IH; [exact Hl|]. now rewrite Hl.
Qed.

(** X5: once the metadata block has ended, nothing the drivers are fed
    changes the metadata: [parse] leaves them as they were, whatever the
    text and whether it raises or not. *)
Theorem closed_metadata_is_kept (text : str) :
  (forall self : Funyu,
     ended (metadata self) = true ->
     metadata (fst (Funyu_parse self text)) = metadata self)
  /\ (forall self : Hunyu,
        ended (h_metadata self) = true ->
        h_metadata (fst (Hunyu_parse self text)) = h_metadata self).
Proof.
  split; intros self Hended.
  - now apply Funyu_feed_all_closed.
  - now apply Hunyu_feed_all_closed.
Qed.

Lemma MetaData_feed_open (self : MetaData) (line : str) :
  ended self = false -> ~ blank line ->
  ended (fst (Blocks.MetaData_feed self line)) = false.
Proof.
  intros Hended Hline. unfold Blocks.MetaData_feed. rewrite Hended.
  assert (Hnb : Py.eqb (Py.strip line) "" = false).
  { apply eqb_neq. now rewrite strip_nil_iff. }
  rewrite Hnb. clear Hnb.
  destruct (negb _); [exact Hended|].
  destruct (Py.eqb (Py.strip (hd [] (Py.split ":" line))) "");
    [exact Hended|reflexivity].
Qed.

Lemma Funyu_feed_open (self : Funyu) (line : str) :
  ended (metadata self) = false ->
  elements (fst (Funyu_feed self line)) = elements self
  /\ (~ blank line -> ended (metadata (fst (Funyu_feed self line))) = false).
Proof.
  intros Hended. unfold Funyu_feed, Funyu_feed_line.
  destruct (Py.contains [Py.LF] line); [now split|]. simpl.
  rewrite Hended.
  pose proof (MetaData_feed_open (metadata self) (line := line) Hended) as Hopen.
  destruct (Blocks.MetaData_feed _ _) as [m [u|[]]]; now split.
Qed.

Lemma Funyu_feed_all_open (lines : list str) :
  forall self : Funyu,
  ended (metadata self) = false -> Forall (fun l => ~ blank l) lines ->
  elements (fst (Funyu_feed_all self lines)) = elements self
  /\ ended (metadata (fst (Funyu_feed_all self lines))) = false.
Proof.
  induction lines as [|l lines IH]; intros self Hended Hlines; [now split|].
  inversion Hlines as [|? ? Hl Hrest]; subst. simpl.
  destruct (Funyu_feed_open self l Hended) as [Hels Hopen].
  specialize (Hopen Hl).
  destruct (Funyu_feed self l) as [s1 [u|e]]; simpl in *; [|now split].
  destruct (IH s1 Hopen Hrest) as [Hels' Hopen'].
  split; [congruence|exact Hopen'].
Qed.

Lemma Hunyu_feed_open (self : Hunyu) (line : str) :
  ended (h_metadata self) = false ->
  h_elements (fst (Hunyu_feed self line)) = h_elements self
  /\ (~ blank line -> ended (h_metadata (fst (Hunyu_feed self line))) = false).
Proof.
  intros Hended. unfold Hunyu_feed.
  destruct (Py.contains [Py.LF] line); [now split|].
  rewrite Hended.
  pose proof (MetaData_feed_open (h_metadata self) (line := line) Hended) as Hopen.
  destruct (Blocks.MetaData_feed _ _) as [m [u|[]]]; now split.
Qed.

Lemma Hunyu_feed_all_open (lines : list str) :
  forall self : Hunyu,
  ended (h_metadata self) = false -> Forall (fun l => ~ blank l) lines ->
  h_elements (fst (Hunyu_feed_all self lines)) = h_elements self
  /\ ended (h_metadata (fst (Hunyu_feed_all self lines))) = false.
Proof.
  induction lines as [|l lines IH]; intros self Hended Hlines; [now split|].
  inversion Hlines as [|? ? Hl Hrest]; subst. simpl.
  destruct (Hunyu_feed_open self l Hended) as [Hels Hopen].
  specialize (Hopen Hl).
  destruct (Hunyu_feed self l) as [s1 [u|e]]; simpl in *; [|now split].
  destruct (IH s1 Hopen Hrest) as [Hels' Hopen'].
  split; [congruence|exact Hopen'].
Qed.

(** X6: until a blank line has ended the metadata block, the drivers
    build no element of the body: [parse] of a text none of whose lines is
    blank leaves the elements as they were and the metadata block open. *)
Theorem header_lines_build_no_element (text : str) :
  Forall (fun l => ~ blank l) (Py.splitlines text) ->
  (forall self : Funyu,
     ended (metadata self) = false ->
     elements (fst (Funyu_parse self text)) = elements self
     /\ ended (metadata (fst (Funyu_parse self text))) = false)
  /\ (forall self : Hunyu,
        ended (h_metadata self) = false ->
        h_elements (fst (Hunyu_parse self text)) = h_elements self
        /\ ended (h_metadata (fst (Hunyu_parse self text))) = false).
Proof.
  intros Hlines. split; intros self Hended.
  - now apply Funyu_feed_all_open.
  - now apply Hunyu_feed_all_open.
Qed.

End Phases.

Lemma header_lines_build_no_element_witness :
  let text := "title: test" ++ [Py.LF] ++ "-- not a section" ++ [Py.LF] ++ "no colon" in
  (forall self : Funyu,
     ended (metadata self) = false ->
     elements (fst (Funyu_parse self text)) = elements self
     /\ ended (metadata (fst (Funyu_parse self text))) = false)
  /\ (forall self : Hunyu,
        ended (h_metadata self) = false ->
        h_elements (fst (Hunyu_parse self text)) = h_elements self
        /\ ended (h_metadata (fst (Hunyu_parse self text))) = false).
Proof.
  intros text. apply (@header_lines_build_no_element example_lib text).
  repeat constructor; intros Hb; inversion Hb as [|? ? Hc _]; discriminate.
Defined.

Lemma closed_metadata_is_kept_witness :
  let self := {| level := 0; elements := [];
                 metadata := {| ended := true; items := [("title", "test")] |};
                 line_number := 2 |} in
  metadata (fst (Funyu_parse (H := example_lib) self "title: other"))
  = metadata self.
Proof.
  intros self.
  apply (proj1 (@closed_metadata_is_kept example_lib "title: other") self).
  reflexivity.
Defined.

(** ** What the drivers raise *)

Section Signals.

Context `{PyLib}.

Lemma Block_feed_funyu_no_signal (level : Z) (elements : list block) (line : str) :
  no_signal (snd (Blocks.Block_feed (Blocks.feed funyu.String_init)
                    level elements line)).
Proof.
  assert (Hraises : forall s e, funyu.String_init s = Raise e -> is_signal e = false).
  { intros s e Hs. apply funyu_String_init_raises in Hs.
    now destruct Hs as [message ->]. }
  apply Block_feed_no_signal.
  - intros l Hl. unfold Blocks.feed. now apply feed_fuel_new_paragraph.
  - intros b l. unfold Blocks.feed. now apply feed_fuel_no_IndexError.
Qed.

Lemma Block_feed_hunyu_no_signal (level : Z) (elements : list block) (line : str) :
  no_signal (snd (Blocks.Block_feed (Blocks.feed hunyu.String_init)
                    level elements line)).
Proof.
  assert (Hraises : forall s e, hunyu.String_init s = Raise e -> is_signal e = false).
  { intros s e Hs. destruct (hunyu_String_init_total s) as [els Hok]. congruence. }
  apply Block_feed_no_signal.
  - intros l Hl. unfold Blocks.feed. now apply feed_fuel_new_paragraph.
  - intros b l. unfold Blocks.feed. now apply feed_fuel_no_IndexError.
Qed.

Lemma Funyu_feed_no_signal (self : Funyu) (line : str) :
  no_signal (snd (Funyu_feed self line)).
Proof.
  unfold Funyu_feed, Funyu_feed_line.
  destruct (Py.contains [Py.LF] line); [reflexivity|]. simpl.
  destruct (ended (metadata self)) eqn:Hended.
  - pose proof (Block_feed_funyu_no_signal (level self) (elements self) line) as Hno.
    destruct (Blocks.Block_feed _ _ _ _) as [els [u|[]]]; simpl in *;
      try exact I; try reflexivity; exact Hno.
  - unfold Blocks.MetaData_feed. rewrite Hended.
    destruct (Py.eqb (Py.strip line) ""); [exact I|].
    destruct (negb _); [reflexivity|].
    destruct (Py.eqb (Py.strip (hd [] (Py.split ":" line))) "");
      [reflexivity|exact I].
Qed.

Lemma Hunyu_feed_no_signal (self : Hunyu) (line : str) :
  no_signal (snd (Hunyu_feed self line)).
Proof.
  unfold Hunyu_feed.
  destruct (Py.contains [Py.LF] line); [reflexivity|].
  destruct (ended (h_metadata self)) eqn:Hended.
  - pose proof (Block_feed_hunyu_no_signal (h_level self) (h_elements self) line)
      as Hno.
    destruct (Blocks.Block_feed _ _ _ _) as [els o]; exact Hno.
  - unfold Blocks.MetaData_feed. rewrite Hended.
    destruct (Py.eqb (Py.strip line) ""); [exact I|].
    destruct (negb _); [reflexivity|].
    destruct (Py.eqb (Py.strip (hd [] (Py.split ":" line))) "");
      [reflexivity|exact I].
Qed.

Lemma Funyu_feed_all_no_signal (lines : list str) :
  forall self : Funyu, no_signal (snd (Funyu_feed_all self lines)).
Proof.
  induction lines as [|l lines IH]; intros self; [exact I|]. simpl.
  pose proof (Funyu_feed_no_signal self l) as Hl.
  destruct (Funyu_feed self l) as [s1 [u|e]]; [apply IH|exact Hl].
Qed.

Lemma Hunyu_feed_all_no_signal (lines : list str) :
  forall self : Hunyu, no_signal (snd (Hunyu_feed_all self lines)).
Proof.
  induction lines as [|l lines IH]; intros self; [exact I|]. simpl.
  pose proof (Hunyu_feed_no_signal self l) as Hl.
  destruct (Hunyu_feed self l) as [s1 [u|e]]; [apply IH|exact Hl].
Qed.

(** X7: the exceptions the blocks use as signals, [EndOfBlock] and the
    [IndexError] of an empty list of elements, never leave the drivers:
    neither [feed] nor [parse] raises one of them, in any state and on any
    input. *)
Theorem drivers_let_no_signal_out :
  (forall (self : Funyu) (line : str) (e : exn),
     snd (Funyu_feed self line) = Raise e -> is_signal e = false)
  /\ (forall (self : Funyu) (text : str) (e : exn),
        snd (Funyu_parse self text) = Raise e -> is_signal e = false)
  /\ (forall (self : Hunyu) (line : str) (e : exn),
        snd (Hunyu_feed self line) = Raise e -> is_signal e = false)
  /\ (forall (self : Hunyu) (text : str) (e : exn),
        snd (Hunyu_parse self text) = Raise e -> is_signal e = false).
Proof.
  split; [|split; [|split]].
  - intros self line e He. pose proof (Funyu_feed_no_signal self line) as Hno.
    now rewrite He in Hno.
  - intros self text e He.
    pose proof (Funyu_feed_all_no_signal (Py.splitlines text) self) as Hno.
    unfold Funyu_parse in He. now rewrite He in Hno.
  - intros self line e He. pose proof (Hunyu_feed_no_signal self line) as Hno.
    now rewrite He in Hno.
  - intros self text e He.
    pose proof (Hunyu_feed_all_no_signal (Py.splitlines text) self) as Hno.
    unfold Hunyu_parse in He. now rewrite He in Hno.
Qed.

(** *** The empty line *)

Section EmptyLine.

Variable String_init : str -> result (list elem).

Section Children.

Variable feed : block -> str -> block * outcome.
Hypothesis feed_quiet : forall b, quiet (snd (feed b "")).

Lemma feed_last_quiet (elements : list block) :
  elements <> [] -> quiet (snd (Blocks.feed_last feed elements "")).
Proof.
  destruct elements as [|b elements _] using rev_ind; [congruence|].
  intros _. rewrite feed_last_app. apply feed_quiet.
Qed.

Lemma Block_feed_new_empty (level : Z) (elements : list block) :
  snd (Blocks.Block_feed_new feed level elements "") = Return.
Proof.
  unfold Blocks.Block_feed_new.
  change (Py.startswith "" "-- ") with false.
  change (Py.startswith "" "```") with false.
  change (Py.startswith "" "p.s. ") with false.
  change (Py.eqb (Py.strip "") "(((") with false.
  change (negb (Py.eqb (Py.strip "") "")) with false. cbv iota.
  destruct elements as [|b elements]; [reflexivity|].
  pose proof (@feed_last_quiet (b :: elements)) as Hq.
  destruct (Blocks.feed_last feed (b :: elements) "") as [els [u|e]];
    [now destruct u|].
  simpl in Hq. destruct e; try reflexivity; elim Hq; discriminate.
Qed.

Lemma Block_feed_empty (level : Z) (elements : list block) :
  snd (Blocks.Block_feed feed level elements "") = Return.
Proof.
  unfold Blocks.Block_feed.
  destruct (Blocks.last_is_open_child elements) eqn:Hlast;
    [|apply Block_feed_new_empty].
  assert (Hne : elements <> []) by (intros ->; discriminate).
  pose proof (feed_last_quiet Hne) as Hq.
  destruct (Blocks.feed_last feed elements "") as [els [u|e]]; [reflexivity|].
  simpl in Hq. destruct e as [m l s|[r|]|m| |]; try reflexivity; try (now elim Hq).
  apply Block_feed_new_empty.
Qed.

Lemma feed_body_quiet (b : block) :
  quiet (snd (Blocks.feed_body String_init feed b "")).
Proof.
  destruct b as [en els|en lv t els|en lv d els|en ty els|en els]; simpl.
  - unfold Blocks.Paragraph_feed. exact I.
  - unfold Blocks.container_feed.
    change (negb (Py.eqb (Py.strip "") "") && negb (Py.startswith "" [Py.TAB]))
      with false.
    destruct en; simpl; [exact I|].
    pose proof (Block_feed_empty lv els) as Hret.
    destruct (Blocks.Block_feed feed lv els "") as [els' o]. simpl in *.
    now rewrite Hret.
  - unfold Blocks.container_feed.
    change (negb (Py.eqb (Py.strip "") "") && negb (Py.startswith "" [Py.TAB]))
      with false.
    destruct en; simpl; [exact I|].
    pose proof (Block_feed_empty lv els) as Hret.
    destruct (Blocks.Block_feed feed lv els "") as [els' o]. simpl in *.
    now rewrite Hret.
  - unfold Blocks.CodeBlock_feed. destruct en; exact I.
  - unfold Blocks.EmbeddedHTML_feed. destruct en; exact I.
Qed.

End Children.

Lemma feed_fuel_quiet (fuel : nat) :
  forall b, quiet (snd (Blocks.feed_fuel String_init fuel b "")).
Proof.
  induction fuel as [|fuel IH]; intros b; simpl; apply feed_body_quiet;
    [intros c; exact I|exact IH].
Qed.

Lemma Block_feed_feed_empty (level : Z) (elements : list block) :
  snd (Blocks.Block_feed (Blocks.feed String_init) level elements "") = Return.
Proof.
  apply Block_feed_empty. intros b. unfold Blocks.feed. apply feed_fuel_quiet.
Qed.

End EmptyLine.

(** X8: the empty line is accepted in every state: feeding it to a
    driver raises nothing, whatever blocks are open and however deep. *)
Theorem empty_line_is_accepted :
  (forall self : Funyu, snd (Funyu_feed self "") = Return)
  /\ (forall self : Hunyu, snd (Hunyu_feed self "") = Return).
Proof.
  split; intros self.
  - unfold Funyu_feed, Funyu_feed_line.
    change (Py.contains [Py.LF] "") with false. cbv iota. simpl.
    destruct (ended (metadata self)) eqn:Hended.
    + pose proof (Block_feed_feed_empty funyu.String_init (level self)
                    (elements self)) as Hret.
      destruct (Blocks.Block_feed _ _ _ _) as [els o]. simpl in *.
      now rewrite Hret.
    + unfold Blocks.MetaData_feed. rewrite Hended. reflexivity.
  - unfold Hunyu_feed.
    change (Py.contains [Py.LF] "") with false. cbv iota.
    destruct (ended (h_metadata self)) eqn:Hended.
    + pose proof (Block_feed_feed_empty hunyu.String_init (h_level self)
                    (h_elements self)) as Hret.
      destruct (Blocks.Block_feed _ _ _ _) as [els o]. simpl in *.
      now rewrite Hret.
    + unfold Blocks.MetaData_feed. rewrite Hended. reflexivity.
Qed.

End Signals.

(** ** Errors in the metadata block *)

Lemma blank_no_colon (k : str) : blank k -> ~ In ":"%char k.
Proof.
  unfold blank. rewrite Forall_forall. intros Hk Hin.
  specialize (Hk _ Hin). discriminate.
Qed.

Lemma MetaData_feed_no_colon (self : MetaData) (line : str) :
  ended self = false -> ~ blank line -> ~ In ":"%char line ->
  Blocks.MetaData_feed self line
  = (self, Raise (syntax_error metadata_colon_message)).
Proof.
  intros Hended Hline Hcolon. unfold Blocks.MetaData_feed. rewrite Hended.
  assert (Hnb : Py.eqb (Py.strip line) "" = false).
  { apply eqb_neq. now rewrite strip_nil_iff. }
  rewrite Hnb. apply contains_char_false in Hcolon. now rewrite Hcolon.
Qed.

Lemma MetaData_feed_no_key (self : MetaData) (k rest : str) :
  ended self = false -> ~ blank (k ++ ":" ++ rest) -> blank k ->
  Blocks.MetaData_feed self (k ++ ":" ++ rest)
  = (self, Raise (syntax_error key_required_message)).
Proof.
  intros Hended Hline Hk. unfold Blocks.MetaData_feed. rewrite Hended.
  assert (Hnb : Py.eqb (Py.strip (k ++ ":" ++ rest)) "" = false).
  { apply eqb_neq. now rewrite strip_nil_iff. }
  rewrite Hnb.
  assert (Hc : Py.contains ":" (k ++ ":" ++ rest) = true).
  { apply contains_char. apply in_or_app. right. now left. }
  rewrite Hc. simpl negb. cbv iota.
  destruct (split_first ":" k rest (blank_no_colon Hk)) as [Hhd _].
  change (k ++ ":" ++ rest) with (k ++ ":"%char :: rest).
  rewrite Hhd. apply strip_nil_iff in Hk. now rewrite Hk.
Qed.

Lemma Funyu_feed_header_error `{PyLib} (self : Funyu) (line message : str) :
  ended (metadata self) = false -> ~ In Py.LF line ->
  Blocks.MetaData_feed (metadata self) line
  = (metadata self, Raise (syntax_error message)) ->
  Funyu_feed self line
  = (counted self,
     Raise (SyntaxError message (Some (line_number self + 1)) (Some line))).
Proof.
  intros Hended Hlf Hfeed. apply contains_char_false in Hlf.
  unfold Funyu_feed, Funyu_feed_line. rewrite Hlf.
  cbn [metadata elements level line_number]. rewrite Hended, Hfeed.
  destruct self; reflexivity.
Qed.

Lemma Hunyu_feed_header_error `{PyLib} (self : Hunyu) (line message : str) :
  ended (h_metadata self) = false -> ~ In Py.LF line ->
  Blocks.MetaData_feed (h_metadata self) line
  = (h_metadata self, Raise (syntax_error message)) ->
  Hunyu_feed self line = (self, Raise (SyntaxError message None None)).
Proof.
  intros Hended Hlf Hfeed. apply contains_char_false in Hlf.
  unfold Hunyu_feed. rewrite Hlf, Hended, Hfeed.
  destruct self; reflexivity.
Qed.

(** X9: while the metadata block is open, a line that is not blank and
    holds no colon is refused with the error of the missing separator, and
    a line with nothing but white space before its first colon with the
    error of the missing key; the call changes nothing but the line
    counter of funyu, which the error carries with the line. *)
Theorem header_syntax_errors `{PyLib} (line : str) :
  ~ In Py.LF line -> ~ blank line ->
  (~ In ":"%char line ->
     (forall self : Funyu,
        ended (metadata self) = false ->
        Funyu_feed self line
        = (counted self,
           Raise (SyntaxError metadata_colon_message
                    (Some (line_number self + 1)) (Some line))))
     /\ (forall self : Hunyu,
           ended (h_metadata self) = false ->
           Hunyu_feed self line
           = (self, Raise (SyntaxError metadata_colon_message None None))))
  /\ (forall k rest : str,
        line = k ++ ":" ++ rest -> blank k ->
        (forall self : Funyu,
           ended (metadata self) = false ->
           Funyu_feed self line
           = (counted self,
              Raise (SyntaxError key_required_message
                       (Some (line_number self + 1)) (Some line))))
        /\ (forall self : Hunyu,
              ended (h_metadata self) = false ->
              Hunyu_feed self line
              = (self, Raise (SyntaxError key_required_message None None)))).
Proof.
  intros Hlf Hline. split.
  - intros Hcolon. split; intros self Hended.
    + apply Funyu_feed_header_error; try assumption.
      now apply MetaData_feed_no_colon.
    + apply Hunyu_feed_header_error; try assumption.
      now apply MetaData_feed_no_colon.
  - intros k rest Hl Hk. subst line. split; intros self Hended.
    + apply Funyu_feed_header_error; try assumption.
      now apply MetaData_feed_no_key.
    + apply Hunyu_feed_header_error; try assumption.
      now apply MetaData_feed_no_key.
Qed.

Lemma header_syntax_errors_witness :
  Funyu_feed (H := example_lib) (Funyu_init 1) " : no key"
  = (counted (Funyu_init 1),
     Raise (SyntaxError key_required_message (Some 1) (Some " : no key"))).
Proof.
  assert (Hlf : ~ In Py.LF (" : no key" : str)).
  { intros Hin. simpl in Hin. intuition discriminate. }
  assert (Hline : ~ blank (" : no key" : str)).
  { intros Hb. inversion Hb as [|? ? _ Hb']; subst.
    inversion Hb' as [|? ? Hc _]; subst. discriminate. }
  destruct (@header_syntax_errors example_lib " : no key" Hlf Hline) as [_ Hkey].
  destruct (Hkey " " " no key" eq_refl) as [Hfunyu _].
  - repeat constructor.
  - apply Hfunyu. reflexivity.
Defined.

(** ** Lines of text in the body *)

Lemma blank_no_opener (s : str) : blank s -> no_opener s.
Proof.
  unfold blank, no_opener. apply Forall_impl. intros c Hc.
  destruct (is_opener c) eqn:Ho; [|reflexivity].
  unfold is_opener in Ho. apply orb_true_iff in Ho. destruct Ho as [Ho|Ho].
  - apply orb_true_iff in Ho.
    destruct Ho as [Ho|Ho]; apply Ascii.eqb_eq in Ho; subst; discriminate.
  - apply Ascii.eqb_eq in Ho; subst; discriminate.
Qed.

Lemma funyu_raise_not_blank (line : str) (e : exn) :
  funyu.String_init line = Raise e -> ~ blank line.
Proof.
  intros Hraise Hb. apply blank_no_opener in Hb.
  unfold funyu.String_init in Hraise.
  rewrite funyu_String_fuel_no_opener in Hraise by exact Hb. discriminate.
Qed.

Section TextLines.

Context `{PyLib}.
Variable String_init : str -> result (list elem).

(** What [Block.feed] does once no child took the line and the line
    opens no block: the last element once more, then a new paragraph. *)
Lemma Block_feed_new_text (feed : block -> str -> block * outcome) (level : Z)
    (elements : list block) (line : str) :
  no_trigger line ->
  Blocks.Block_feed_new feed level elements line
  = (let (elements', o) := Blocks.feed_last feed elements line in
     match o with
     | Ok _ => (elements', Return)
     | Raise (EndOfBlock _) | Raise IndexError =>
         if negb (Py.eqb (Py.strip line) "") then
           Blocks.feed_last feed (elements' ++ [Paragraph false []]) line
         else (elements', Return)
     | Raise e => (elements', Raise e)
     end).
Proof.
  intros (Hs & Hc & Hp & Hh). unfold Blocks.Block_feed_new.
  rewrite Hs, Hc, Hp. apply eqb_neq in Hh. now rewrite Hh.
Qed.

Lemma Paragraph_feed_ended (lines : list Line) (line : str) :
  Blocks.Paragraph_feed String_init true lines line
  = (Paragraph true lines, Raise (EndOfBlock (Some line))).
Proof. unfold Blocks.Paragraph_feed. now rewrite orb_true_r. Qed.

(** A line of text where no paragraph is open: a new paragraph is
    appended and fed the line. *)
Lemma Block_feed_text_new (level : Z) (elements : list block) (line : str) :
  no_trigger line -> ~ blank line ->
  (elements = []
   \/ exists before lines, elements = before ++ [Paragraph true lines]) ->
  Blocks.Block_feed (Blocks.feed String_init) level elements line
  = (elements
     ++ [fst (Blocks.Paragraph_feed String_init false [] line)],
     snd (Blocks.Paragraph_feed String_init false [] line)).
Proof.
  intros Htext Hline Hlast.
  assert (Hnb : Py.eqb (Py.strip line) "" = false).
  { apply eqb_neq. now rewrite strip_nil_iff. }
  assert (Hnew : Blocks.feed_last (Blocks.feed String_init)
                   (elements ++ [Paragraph false []]) line
                 = (elements
                    ++ [fst (Blocks.Paragraph_feed String_init false [] line)],
                    snd (Blocks.Paragraph_feed String_init false [] line))).
  { now rewrite feed_last_app, feed_Paragraph. }
  unfold Blocks.Block_feed.
  destruct Hlast as [->|(before & lines & ->)].
  - cbn [Blocks.last_is_open_child rev]. rewrite Block_feed_new_text by exact Htext.
    cbn [Blocks.feed_last]. rewrite Hnb. exact Hnew.
  - rewrite last_is_open_child_app. cbn [is_Paragraph negb].
    rewrite Block_feed_new_text by exact Htext.
    rewrite feed_last_app, feed_Paragraph, Paragraph_feed_ended.
    cbn [fst snd negb]. rewrite Hnb. exact Hnew.
Qed.

End TextLines.

(** X10: in funyu, when the inline scanner refuses the line that would
    start a new paragraph, the paragraph is there already: the error
    leaves [feed] with the line number, and an empty paragraph stays at
    the end of the elements. *)
Theorem failed_line_leaves_empty_paragraph `{PyLib} (self : Funyu) (line : str)
    (e : exn) :
  ended (metadata self) = true ->
  (elements self = []
   \/ exists before lines, elements self = before ++ [Paragraph true lines]) ->
  ~ In Py.LF line -> no_trigger line ->
  funyu.String_init line = Raise e ->
  exists message,
    e = syntax_error message
    /\ Funyu_feed self line
       = (with_elements (counted self) (elements self ++ [Paragraph false []]),
          Raise (SyntaxError message (Some (line_number self + 1)) (Some line))).
Proof.
  intros Hended Hlast Hlf Htext Hraise.
  pose proof (funyu_raise_not_blank Hraise) as Hline.
  pose proof Hraise as Hmessage. apply funyu_String_init_raises in Hmessage.
  destruct Hmessage as [message ->].
  exists message. split; [reflexivity|].
  apply contains_char_false in Hlf.
  unfold Funyu_feed, Funyu_feed_line. rewrite Hlf.
  cbn [metadata elements level line_number]. rewrite Hended.
  rewrite (Block_feed_text_new funyu.String_init (level self) Htext Hline Hlast).
  unfold Blocks.Paragraph_feed. rewrite Hraise.
  assert (Hnb : Py.eqb (Py.strip line) "" = false).
  { apply eqb_neq. now rewrite strip_nil_iff. }
  rewrite Hnb. reflexivity.
Qed.

Lemma failed_line_leaves_empty_paragraph_witness :
  let self := {| level := 0; elements := [];
                 metadata := {| ended := true; items := [] |};
                 line_number := 1 |} in
  exists message,
    syntax_error close_bracket_message = syntax_error message
    /\ Funyu_feed (H := example_lib) self "[[opend"
       = (with_elements (counted self) (elements self ++ [Paragraph false []]),
          Raise (SyntaxError message (Some (line_number self + 1))
                   (Some "[[opend"))).
Proof.
  intros self.
  apply (@failed_line_leaves_empty_paragraph example_lib self "[[opend").
  - reflexivity.
  - now left.
  - intros Hin. simpl in Hin. intuition discriminate.
  - repeat split; discriminate.
  - reflexivity.
Defined.

(** ** Code blocks *)

Lemma replace_app (old : ascii) (new s t : str) :
  replace old new (s ++ t) = replace old new s ++ replace old new t.
Proof. unfold replace. apply flat_map_app. Qed.

(** The three replacements of [CodeBlock.feed], one after the other,
    write each character as its entity, once. *)
Lemma replace_html_escape (s : str) :
  replace ">" "&gt;" (replace "<" "&lt;" (replace "&" "&amp;" s))
  = flat_map html_escape s.
Proof.
  induction s as [|c s IH]; [reflexivity|].
  change (replace "&" "&amp;" (c :: s))
    with ((if Ascii.eqb c "&" then "&amp;" else [c]) ++ replace "&" "&amp;" s).
  rewrite !replace_app, IH. cbn [flat_map]. f_equal.
  unfold html_escape.
  destruct (Ascii.eqb c "&") eqn:Hamp; [reflexivity|].
  unfold replace at 2. cbn [flat_map app].
  destruct (Ascii.eqb c "<") eqn:Hlt; [reflexivity|].
  unfold replace. cbn [flat_map app].
  now destruct (Ascii.eqb c ">").
Qed.

Lemma html_escape_tagless (s : str) : tagless (flat_map html_escape s).
Proof.
  assert (Hc : forall c d, In d (html_escape c) -> d <> "<"%char /\ d <> ">"%char).
  { intros c d. unfold html_escape.
    destruct (Ascii.eqb c "&") eqn:Hamp;
      [simpl; intuition (subst; discriminate)|].
    destruct (Ascii.eqb c "<") eqn:Hlt;
      [simpl; intuition (subst; discriminate)|].
    destruct (Ascii.eqb c ">") eqn:Hgt;
      [simpl; intuition (subst; discriminate)|].
    apply Ascii.eqb_neq in Hlt, Hgt.
    intros [<-|[]]. now split. }
  split; intros Hin; apply in_flat_map in Hin; destruct Hin as (c & _ & Hd);
    apply Hc in Hd; tauto.
Qed.

(** X11: an open code block takes every line that is empty or starts
    with a tab: it drops the first character and stores the rest with
    each ampersand and each angle bracket written once as its entity
    ([&amp;], [&lt;], [&gt;]), so that what it stores holds no angle
    bracket.  Whatever the line, a block all of whose lines are free of
    angle brackets stays so. *)
Theorem code_block_escapes (type : option str) (elements : list str) (line : str) :
  (line = [] \/ Py.startswith line [Py.TAB] = true ->
     Blocks.CodeBlock_feed false type elements line
     = (CodeBlock false type
          (elements ++ [flat_map html_escape (skipn 1 line)]), Return)
     /\ tagless (flat_map html_escape (skipn 1 line)))
  /\ (forall ended : bool,
        Forall tagless elements ->
        exists ended' elements',
          fst (Blocks.CodeBlock_feed ended type elements line)
          = CodeBlock ended' type elements'
          /\ Forall tagless elements').
Proof.
  split.
  - intros Hline. split; [|apply html_escape_tagless].
    unfold Blocks.CodeBlock_feed.
    assert (Hclose : Py.eqb line "```" = false).
    { destruct Hline as [->|Htab]; [reflexivity|].
      destruct line as [|c line]; [reflexivity|]. simpl in Htab.
      apply andb_true_iff in Htab. destruct Htab as [Hc _].
      apply Ascii.eqb_eq in Hc. subst c. reflexivity. }
    rewrite Hclose.
    assert (Htab : negb (Py.eqb line "") && negb (Py.startswith line [Py.TAB])
                   = false).
    { destruct Hline as [->|Htab]; [reflexivity|].
      rewrite Htab. apply andb_false_r. }
    rewrite Htab. now rewrite replace_html_escape.
  - intros ended Hall. unfold Blocks.CodeBlock_feed.
    destruct ended; [now exists true, elements|].
    destruct (Py.eqb line "```"); [now exists true, elements|].
    destruct (_ && _); [now exists false, elements|].
    rewrite replace_html_escape. eexists _, _. split; [reflexivity|].
    apply Forall_app. split; [exact Hall|].
    constructor; [apply html_escape_tagless|constructor].
Qed.

Lemma code_block_escapes_witness :
  Blocks.CodeBlock_feed false (Some "html") [] ([Py.TAB] ++ "a<b>&amp;")
  = (CodeBlock false (Some "html") ["a&lt;b&gt;&amp;amp;"], Return).
Proof.
  destruct (@code_block_escapes (Some "html") [] ([Py.TAB] ++ "a<b>&amp;"))
    as [Hfeed _].
  destruct Hfeed as [Hfeed _]; [now right|exact Hfeed].
Defined.

(** ** Indentation *)

Lemma split_from_single (sep : ascii) (s cur : str) :
  ~ In sep s -> Py.split_from sep s cur = [cur ++ s].
Proof.
  revert cur; induction s as [|c s IH]; intros cur Hs; simpl.
  - now rewrite app_nil_r.
  - destruct (Ascii.eqb c sep) eqn:Hc.
    + apply Ascii.eqb_eq in Hc. subst. elim Hs. now left.
    + rewrite IH by (intros Hin; apply Hs; now right).
      now rewrite <- app_assoc.
Qed.

Lemma split_from_no_sep (sep : ascii) (s cur : str) :
  ~ In sep cur -> Forall (fun l => ~ In sep l) (Py.split_from sep s cur).
Proof.
  revert cur; induction s as [|c s IH]; intros cur Hcur; simpl.
  - now repeat constructor.
  - destruct (Ascii.eqb c sep) eqn:Hc.
    + constructor; [exact Hcur|]. apply IH. easy.
    + apply IH. apply Ascii.eqb_neq in Hc. intros Hin.
      apply in_app_or in Hin. destruct Hin as [Hin|[Heq|[]]]; [tauto|congruence].
Qed.

(** [sep.join(items).split(sep)] is [items], for items without [sep]. *)
Lemma split_join (sep : ascii) (l : str) (items : list str) :
  Forall (fun l => ~ In sep l) (l :: items) ->
  Py.split sep (Py.join [sep] (l :: items)) = l :: items.
Proof.
  unfold Py.split. revert l; induction items as [|l' items IH]; intros l Hall.
  - inversion Hall; subst. simpl Py.join. now rewrite split_from_single.
  - inversion Hall as [|? ? Hl Hrest]; subst.
    rewrite join_cons by discriminate.
    change ([sep] ++ Py.join [sep] (l' :: items))
      with (sep :: Py.join [sep] (l' :: items)).
    rewrite split_from_first by exact Hl. simpl app.
    f_equal. now apply IH.
Qed.

Lemma indented_no_LF (l : str) : ~ In Py.LF l -> ~ In Py.LF (indented l).
Proof.
  destruct l as [|c l]; [easy|]. intros Hl [Heq|Hin]; [discriminate|tauto].
Qed.

Lemma indent_join (s : str) :
  indent s = Py.join [Py.LF] (map indented (Py.split Py.LF s)).
Proof. reflexivity. Qed.

(** X13: [indent] keeps the lines of a text: it puts one tab before
    every line that is not empty and leaves the empty ones empty, so that
    dropping the first character of every line, as [Section.feed] does,
    gives the lines of the text back. *)
Theorem indent_lines (s : str) :
  Py.split Py.LF (indent s) = map indented (Py.split Py.LF s)
  /\ map (skipn 1) (Py.split Py.LF (indent s)) = Py.split Py.LF s.
Proof.
  assert (Hlines : Py.split Py.LF (indent s) = map indented (Py.split Py.LF s)).
  { rewrite indent_join.
    pose proof (@split_from_no_sep Py.LF s [] (fun H => H)) as Hfree.
    pose proof (split_from_not_nil Py.LF s []) as Hne.
    unfold Py.split at 2 3.
    destruct (Py.split_from Py.LF s []) as [|l items]; [congruence|].
    cbn [map]. apply split_join.
    change (indented l :: map indented items) with (map indented (l :: items)).
    apply Forall_map. revert Hfree. apply Forall_impl.
    intros a. apply indented_no_LF. }
  split; [exact Hlines|].
  rewrite Hlines, map_map. rewrite <- (map_id (Py.split Py.LF s)) at 2.
  apply map_ext. now intros [|c l].
Qed.

(** ** Embedded HTML *)

Lemma join_snoc (sep : str) (items : list str) (x y : str) :
  Py.join sep ((x :: items) ++ [y]) = Py.join sep (x :: items) ++ sep ++ y.
Proof.
  revert x; induction items as [|z items IH]; intros x; [reflexivity|].
  change ((x :: z :: items) ++ [y]) with (x :: (z :: items) ++ [y]).
  rewrite !join_cons by discriminate.
  rewrite IH. now rewrite <- !app_assoc.
Qed.

Lemma embedded_as_markup (Line_as_markup : list elem -> str) (ended : bool)
    (lines : list str) :
  Forall nolb lines ->
  Py.splitlines (Render.as_markup Line_as_markup (EmbeddedHTML ended lines))
  = "(((" :: map indented (embedded_lines lines) ++ [")))"].
Proof.
  intros Hall. cbn [Render.as_markup].
  assert (Hsplit : Py.split Py.LF (Py.join [Py.LF] lines) = embedded_lines lines).
  { destruct lines as [|l lines]; [reflexivity|]. apply split_join.
    revert Hall. apply Forall_impl. intros a. apply nolb_no_LF. }
  rewrite indent_join, Hsplit.
  assert (Hnolb : Forall nolb ("(((" :: map indented (embedded_lines lines) ++ [")))"])).
  { constructor; [now repeat constructor|].
    apply Forall_app. split; [|now repeat constructor].
    apply Forall_map.
    assert (Hlines : Forall nolb (embedded_lines lines)).
    { destruct lines; [now repeat constructor|exact Hall]. }
    revert Hlines. apply Forall_impl. intros [|c l] Hl; [constructor|].
    now constructor. }
  etransitivity; [|exact (splitlines_join Hnolb)]. f_equal.
  change ("(((" :: map indented (embedded_lines lines) ++ [")))"])
    with (("(((" :: map indented (embedded_lines lines)) ++ [")))"]).
  rewrite join_snoc.
  assert (Hne : map indented (embedded_lines lines) <> []).
  { destruct lines; discriminate. }
  rewrite join_cons by exact Hne.
  now rewrite <- !app_assoc.
Qed.

Section EmbeddedFeed.

Context `{PyLib}.
Variable String_init : str -> result (list elem).

Lemma feed_EmbeddedHTML (ended : bool) (elements : list str) (line : str) :
  Blocks.feed String_init (EmbeddedHTML ended elements) line
  = Blocks.EmbeddedHTML_feed ended elements line.
Proof. reflexivity. Qed.

Lemma feed_CodeBlock (ended : bool) (type : option str) (elements : list str)
    (line : str) :
  Blocks.feed String_init (CodeBlock ended type elements) line
  = Blocks.CodeBlock_feed ended type elements line.
Proof. reflexivity. Qed.

Lemma Block_feed_html_start (level : Z) (before : list block) :
  Blocks.last_is_open_child before = false ->
  Blocks.Block_feed (Blocks.feed String_init) level before "((("
  = (before ++ [EmbeddedHTML false []], Return).
Proof. intros Hlast. unfold Blocks.Block_feed. now rewrite Hlast. Qed.

Lemma Block_feed_html_line (level : Z) (before : list block) (acc : list str)
    (l : str) :
  Blocks.Block_feed (Blocks.feed String_init) level
    (before ++ [EmbeddedHTML false acc]) (indented l)
  = (before ++ [EmbeddedHTML false (acc ++ [l])], Return).
Proof.
  unfold Blocks.Block_feed. rewrite last_is_open_child_app. cbn [is_Paragraph negb].
  rewrite feed_last_app, feed_EmbeddedHTML.
  destruct l as [|c l]; [reflexivity|].
  unfold Blocks.EmbeddedHTML_feed, indented.
  change (Py.startswith (Py.TAB :: c :: l) ")))") with false.
  change (Py.startswith (Py.TAB :: c :: l) [Py.TAB]) with (Ascii.eqb Py.TAB Py.TAB && true).
  reflexivity.
Qed.

Lemma Block_feed_html_end (level : Z) (before : list block) (acc : list str)
    (rest : str) :
  Blocks.Block_feed (Blocks.feed String_init) level
    (before ++ [EmbeddedHTML false acc]) (")))" ++ rest)
  = (before ++ [EmbeddedHTML true acc], Return).
Proof.
  unfold Blocks.Block_feed. rewrite last_is_open_child_app. cbn [is_Paragraph negb].
  now rewrite feed_last_app, feed_EmbeddedHTML.
Qed.

End EmbeddedFeed.

Section BodyCalls.

Context `{PyLib}.

(** A call of [feed] in the body that [Block.feed] returns from. *)
Lemma Funyu_feed_body (self : Funyu) (line : str) (elements' : list block) :
  ended (metadata self) = true -> ~ In Py.LF line ->
  Blocks.Block_feed (Blocks.feed funyu.String_init) (level self) (elements self)
    line = (elements', Return) ->
  Funyu_feed self line = (advanced self 1 elements', Return).
Proof.
  intros Hended Hlf Hfeed. apply contains_char_false in Hlf.
  unfold Funyu_feed, Funyu_feed_line. rewrite Hlf.
  cbn [metadata elements level line_number]. now rewrite Hended, Hfeed.
Qed.

Lemma Hunyu_feed_body (self : Hunyu) (line : str) (elements' : list block) :
  ended (h_metadata self) = true -> ~ In Py.LF line ->
  Blocks.Block_feed (Blocks.feed hunyu.String_init) (h_level self)
    (h_elements self) line = (elements', Return) ->
  Hunyu_feed self line = (h_with_elements self elements', Return).
Proof.
  intros Hended Hlf Hfeed. apply contains_char_false in Hlf.
  unfold Hunyu_feed. now rewrite Hlf, Hended, Hfeed.
Qed.

Lemma advanced_advanced (self : Funyu) (n m : nat) (els els' : list block) :
  advanced (advanced self n els) m els' = advanced self (n + m) els'.
Proof. unfold advanced. cbn. f_equal. lia. Qed.

Lemma Funyu_feed_all_html (lines : list str) :
  forall (self : Funyu) (before : list block) (acc : list str),
  ended (metadata self) = true ->
  elements self = before ++ [EmbeddedHTML false acc] ->
  Forall nolb lines ->
  Funyu_feed_all self (map indented lines ++ [")))"])
  = (advanced self (length lines + 1)
       (before ++ [EmbeddedHTML true (acc ++ lines)]), Return).
Proof.
  induction lines as [|l lines IH]; intros self before acc Hended Hels Hall.
  - cbn [map app Funyu_feed_all].
    rewrite (@Funyu_feed_body self ")))" (before ++ [EmbeddedHTML true acc])).
    + now rewrite app_nil_r.
    + exact Hended.
    + intros Hin. simpl in Hin. intuition discriminate.
    + rewrite Hels. apply (Block_feed_html_end funyu.String_init _ _ _ []).
  - inversion Hall as [|? ? Hl Hrest]; subst.
    cbn [map app Funyu_feed_all].
    rewrite (@Funyu_feed_body self (indented l)
               (before ++ [EmbeddedHTML false (acc ++ [l])])).
    + rewrite (IH _ before (acc ++ [l])); try assumption; try reflexivity.
      rewrite advanced_advanced, <- app_assoc. cbn [length app]. f_equal.
    + exact Hended.
    + apply indented_no_LF. now apply nolb_no_LF.
    + rewrite Hels. apply Block_feed_html_line.
Qed.

Lemma Hunyu_feed_all_html (lines : list str) :
  forall (self : Hunyu) (before : list block) (acc : list str),
  ended (h_metadata self) = true ->
  h_elements self = before ++ [EmbeddedHTML false acc] ->
  Forall nolb lines ->
  Hunyu_feed_all self (map indented lines ++ [")))"])
  = (h_with_elements self (before ++ [EmbeddedHTML true (acc ++ lines)]), Return).
Proof.
  induction lines as [|l lines IH]; intros self before acc Hended Hels Hall.
  - cbn [map app Hunyu_feed_all].
    rewrite (@Hunyu_feed_body self ")))" (before ++ [EmbeddedHTML true acc])).
    + now rewrite app_nil_r.
    + exact Hended.
    + intros Hin. simpl in Hin. intuition discriminate.
    + rewrite Hels. apply (Block_feed_html_end hunyu.String_init _ _ _ []).
  - inversion Hall as [|? ? Hl Hrest]; subst.
    cbn [map app Hunyu_feed_all].
    rewrite (@Hunyu_feed_body self (indented l)
               (before ++ [EmbeddedHTML false (acc ++ [l])])).
    + rewrite (IH _ before (acc ++ [l])); try assumption; try reflexivity.
      now rewrite <- app_assoc.
    + exact Hended.
    + apply indented_no_LF. now apply nolb_no_LF.
    + rewrite Hels. apply Block_feed_html_line.
Qed.

(** X12: the markup [as_funyu] writes for a block of embedded HTML is
    read back as that block, ended: parsed in the body of a document whose
    last element, if it has one, is a paragraph, it appends a block with
    the same lines, provided they hold no line boundary.  A block without
    lines comes back with one empty line. *)
Theorem embedded_html_round_trip (lines : list str) (ended_ : bool) :
  Forall nolb lines ->
  (forall self : Funyu,
     ended (metadata self) = true ->
     Blocks.last_is_open_child (elements self) = false ->
     Funyu_parse self
       (Render.as_markup funyu.Line_as_funyu (EmbeddedHTML ended_ lines))
     = (advanced self (length (embedded_lines lines) + 2)
          (elements self ++ [EmbeddedHTML true (embedded_lines lines)]),
        Return))
  /\ (forall self : Hunyu,
        ended (h_metadata self) = true ->
        Blocks.last_is_open_child (h_elements self) = false ->
        Hunyu_parse self
          (Render.as_markup hunyu.Line_as_hunyu (EmbeddedHTML ended_ lines))
        = (h_with_elements self
             (h_elements self ++ [EmbeddedHTML true (embedded_lines lines)]),
           Return)).
Proof.
  intros Hall.
  assert (Hlines : Forall nolb (embedded_lines lines)).
  { destruct lines; [now repeat constructor|exact Hall]. }
  assert (Hopen : ~ In Py.LF ("(((" : str)).
  { intros Hin. simpl in Hin. intuition discriminate. }
  split; intros self Hended Hlast.
  - unfold Funyu_parse. rewrite embedded_as_markup by exact Hall.
    cbn [Funyu_feed_all].
    rewrite (@Funyu_feed_body self "(((" (elements self ++ [EmbeddedHTML false []]))
      by (try assumption; now apply Block_feed_html_start).
    rewrite (@Funyu_feed_all_html _ _ (elements self) []);
      try assumption; try reflexivity.
    rewrite advanced_advanced. cbn [app]. f_equal. f_equal. lia.
  - unfold Hunyu_parse. rewrite embedded_as_markup by exact Hall.
    cbn [Hunyu_feed_all].
    rewrite (@Hunyu_feed_body self "(((" (h_elements self ++ [EmbeddedHTML false []]))
      by (try assumption; now apply Block_feed_html_start).
    rewrite (@Hunyu_feed_all_html _ _ (h_elements self) []);
      try assumption; try reflexivity.
Qed.

End BodyCalls.

Lemma embedded_html_round_trip_witness :
  let self := {| level := 0; elements := [Paragraph false [[Text "a"]]];
                 metadata := {| ended := true; items := [] |};
                 line_number := 3 |} in
  Funyu_parse (H := example_lib) self
    (Render.as_markup funyu.Line_as_funyu
       (EmbeddedHTML false ["<script>"; ""; "</script>"]))
  = (advanced self 5
       [Paragraph false [[Text "a"]];
        EmbeddedHTML true ["<script>"; ""; "</script>"]],
     Return).
Proof.
  intros self.
  assert (Hall : Forall nolb ["<script>"; ""; "</script>" : str])
    by (repeat constructor).
  destruct (@embedded_html_round_trip example_lib _ false Hall) as [Hfunyu _].
  apply (Hfunyu self); reflexivity.
Defined.

(** ** Levels, and the exceptions of the drivers *)

Section Levels.

Context `{PyLib}.
Variable String_init : str -> result (list elem).
Hypothesis String_init_raises :
  forall s e, String_init s = Raise e -> exists message, e = syntax_error message.

Section Children.

Variable feed : block -> str -> block * outcome.
Hypothesis feed_levelled :
  forall parent b line,
  levelled parent b ->
  levelled parent (fst (feed b line)) /\ sound (snd (feed b line)).

Lemma feed_last_levelled (level : Z) (elements : list block) (line : str) :
  Forall (levelled level) elements ->
  Forall (levelled level) (fst (Blocks.feed_last feed elements line))
  /\ sound (snd (Blocks.feed_last feed elements line)).
Proof.
  destruct elements as [|b elements _] using rev_ind.
  - intros _. simpl. split; [constructor|now left].
  - intros Hall. apply Forall_app in Hall. destruct Hall as [Hbefore Hb].
    inversion Hb as [|? ? Hb' _]; subst.
    rewrite feed_last_app. cbn [fst snd].
    destruct (feed_levelled line Hb') as [Hlev Hsound].
    split; [|exact Hsound].
    apply Forall_app. split; [exact Hbefore|now constructor].
Qed.

Lemma Paragraph_feed_sound (ended : bool) (elements : list Line) (line : str) :
  sound (snd (Blocks.Paragraph_feed String_init ended elements line)).
Proof.
  unfold Blocks.Paragraph_feed. destruct (_ || ended); [now left|].
  destruct (String_init line) as [l|e] eqn:Hs; [exact I|].
  right. left. eapply String_init_raises. exact Hs.
Qed.

Lemma Block_feed_new_levelled (level : Z) (elements : list block) (line : str) :
  Forall (levelled level) elements ->
  Forall (levelled level) (fst (Blocks.Block_feed_new feed level elements line))
  /\ ((1 <= level + 1)%Z ->
      sound (snd (Blocks.Block_feed_new feed level elements line))).
Proof.
  intros Hall. unfold Blocks.Block_feed_new.
  assert (Hadd : forall b, levelled level b ->
            Forall (levelled level) (elements ++ [b])).
  { intros b Hb. apply Forall_app. split; [exact Hall|now constructor]. }
  assert (Hle : (1 <= level + 1)%Z -> (1 <=? level + 1)%Z = true)
    by apply Z.leb_le.
  destruct (Py.startswith line "-- ").
  { destruct (1 <=? level + 1)%Z eqn:Hlevel.
    - split; [|intros _; exact I]. apply Hadd. apply Z.leb_le in Hlevel.
      now constructor.
    - split; [exact Hall|]. intros Hl. apply Hle in Hl. discriminate. }
  destruct (Py.startswith line "```").
  { split; [|intros _; exact I]. apply Hadd. constructor. }
  destruct (Py.startswith line "p.s. ").
  { destruct (strptime_date _) as [d|message].
    - destruct (1 <=? level + 1)%Z eqn:Hlevel.
      + split; [|intros _; exact I]. apply Hadd. apply Z.leb_le in Hlevel.
        now constructor.
      + split; [exact Hall|]. intros Hl. apply Hle in Hl. discriminate.
    - split; [exact Hall|]. intros _. right. right. now exists message. }
  destruct (Py.eqb (Py.strip line) "(((").
  { split; [|intros _; exact I]. apply Hadd. constructor. }
  destruct (feed_last_levelled line Hall) as [Hall' Hsound].
  destruct (Blocks.feed_last feed elements line) as [elements' o].
  cbn [fst snd] in *.
  assert (Hnew :
    Forall (levelled level)
      (fst (if negb (Py.eqb (Py.strip line) "")
            then Blocks.feed_last feed (elements' ++ [Paragraph false []]) line
            else (elements', Return)))
    /\ sound (snd (if negb (Py.eqb (Py.strip line) "")
                   then Blocks.feed_last feed (elements' ++ [Paragraph false []])
                          line
                   else (elements', Return)))).
  { destruct (negb _); [|now split].
    apply feed_last_levelled. apply Forall_app. split; [exact Hall'|].
    repeat constructor. }
  destruct o as [u|e]; [now split|].
  destruct e; try (split; [apply Hnew|intros _; apply Hnew]);
    split; try exact Hall'; intros _; exact Hsound.
Qed.

Lemma Block_feed_levelled (level : Z) (elements : list block) (line : str) :
  Forall (levelled level) elements ->
  Forall (levelled level) (fst (Blocks.Block_feed feed level elements line))
  /\ ((1 <= level + 1)%Z ->
      sound (snd (Blocks.Block_feed feed level elements line))).
Proof.
  intros Hall. unfold Blocks.Block_feed.
  destruct (Blocks.last_is_open_child elements);
    [|now apply Block_feed_new_levelled].
  destruct (feed_last_levelled line Hall) as [Hall' Hsound].
  destruct (Blocks.feed_last feed elements line) as [elements' o].
  cbn [fst snd] in *.
  destruct o as [u|e]; [now split|].
  destruct e as [m l s|[r|]|m| |];
    try (split; [exact Hall'|intros _; exact Hsound]).
  - now apply Block_feed_new_levelled.
  - now split.
Qed.

Lemma container_feed_levelled (ended : bool) (level : Z) (elements : list block)
    (line : str) :
  (1 <= level)%Z -> Forall (levelled level) elements ->
  Forall (levelled level)
    (snd (fst (Blocks.container_feed feed ended level elements line)))
  /\ sound (snd (Blocks.container_feed feed ended level elements line)).
Proof.
  intros Hlevel Hall. unfold Blocks.container_feed.
  destruct (_ || ended); [split; [exact Hall|now left]|].
  destruct (@Block_feed_levelled level elements (skipn 1 line) Hall)
    as [Hall' Hsound].
  destruct (Blocks.Block_feed feed level elements (skipn 1 line)) as [els o].
  split; [exact Hall'|]. apply Hsound. lia.
Qed.

Lemma feed_body_levelled (parent : Z) (b : block) (line : str) :
  levelled parent b ->
  levelled parent (fst (Blocks.feed_body String_init feed b line))
  /\ sound (snd (Blocks.feed_body String_init feed b line)).
Proof.
  intros Hb. inversion Hb as [p en els|p en t els Hp Hall|p en d els Hp Hall
                              |p en ty els|p en els]; subst; cbn [Blocks.feed_body].
  - split; [|apply Paragraph_feed_sound].
    unfold Blocks.Paragraph_feed. destruct (_ || en); [constructor|].
    destruct (String_init line); constructor.
  - destruct (@container_feed_levelled en (parent + 1)%Z els line Hp Hall)
      as [Hall' Hsound].
    destruct (Blocks.container_feed feed en (parent + 1) els line) as [[en' els'] o].
    cbn [fst snd] in *. split; [now constructor|exact Hsound].
  - destruct (@container_feed_levelled en (parent + 1)%Z els line Hp Hall)
      as [Hall' Hsound].
    destruct (Blocks.container_feed feed en (parent + 1) els line) as [[en' els'] o].
    cbn [fst snd] in *. split; [now constructor|exact Hsound].
  - unfold Blocks.CodeBlock_feed.
    destruct en; [split; [constructor|now left]|].
    destruct (Py.eqb line "```"); [split; [constructor|now left]|].
    destruct (_ && _); (split; [constructor|]); [|exact I].
    right. left. now eexists.
  - unfold Blocks.EmbeddedHTML_feed.
    destruct en; [split; [constructor|now left]|].
    destruct (Py.startswith line ")))"); [split; [constructor|now left]|].
    destruct (_ && _); (split; [constructor|]); [|exact I].
    right. left. now eexists.
Qed.

End Children.

Lemma feed_fuel_levelled (fuel : nat) :
  forall parent b line,
  levelled parent b ->
  levelled parent (fst (Blocks.feed_fuel String_init fuel b line))
  /\ sound (snd (Blocks.feed_fuel String_init fuel b line)).
Proof.
  induction fuel as [|fuel IH]; intros parent b line Hb; simpl;
    apply feed_body_levelled; try exact Hb; try exact IH.
  intros p c l Hc. now split.
Qed.

Lemma Block_feed_feed_levelled (level : Z) (elements : list block) (line : str) :
  Forall (levelled level) elements ->
  Forall (levelled level)
    (fst (Blocks.Block_feed (Blocks.feed String_init) level elements line))
  /\ ((1 <= level + 1)%Z ->
      sound (snd (Blocks.Block_feed (Blocks.feed String_init) level elements
                    line))).
Proof.
  apply Block_feed_levelled. intros parent b l Hb.
  unfold Blocks.feed. now apply feed_fuel_levelled.
Qed.

End Levels.

Section DriverLevels.

Context `{PyLib}.

Lemma hunyu_String_init_raises (s : str) (e : exn) :
  hunyu.String_init s = Raise e -> exists message, e = syntax_error message.
Proof.
  intros Hs. destruct (hunyu_String_init_total s) as [els Hok]. congruence.
Qed.

Lemma MetaData_feed_raises (self : MetaData) (line : str) (e : exn) :
  snd (Blocks.MetaData_feed self line) = Raise e ->
  (exists remain, e = EndOfBlock remain) \/ (exists message, e = syntax_error message).
Proof.
  unfold Blocks.MetaData_feed.
  destruct (ended self); [intros [= <-]; left; now eexists|].
  destruct (Py.eqb (Py.strip line) ""); [intros [= <-]; left; now eexists|].
  destruct (negb _); [intros [= <-]; right; now eexists|].
  destruct (Py.eqb (Py.strip (hd [] (Py.split ":" line))) "");
    [intros [= <-]; right; now eexists|discriminate].
Qed.

Lemma Funyu_feed_levelled (self : Funyu) (line : str) :
  Forall (levelled (level self)) (elements self) ->
  level (fst (Funyu_feed self line)) = level self
  /\ Forall (levelled (level self)) (elements (fst (Funyu_feed self line)))
  /\ ((1 <= level self + 1)%Z ->
      forall e, snd (Funyu_feed self line) = Raise e -> funyu_error e).
Proof.
  intros Hall. unfold Funyu_feed, Funyu_feed_line.
  destruct (Py.contains [Py.LF] line).
  { split; [reflexivity|]. split; [exact Hall|].
    intros _ e [= <-]. right. now eexists. }
  cbn [metadata elements level line_number].
  destruct (ended (metadata self)).
  - destruct (@Block_feed_feed_levelled _ funyu.String_init
                funyu_String_init_raises (level self) (elements self) line Hall)
      as [Hall' Hsound].
    pose proof (Block_feed_funyu_no_signal (level self) (elements self) line)
      as Hno.
    destruct (Blocks.Block_feed _ _ _ _) as [els o]. cbn [fst snd] in *.
    assert (Herr : (1 <= level self + 1)%Z ->
              forall e, o = Raise e -> input_error e).
    { intros Hl e ->. specialize (Hsound Hl). simpl in Hsound, Hno.
      destruct Hsound as [Hsig|Hin]; [congruence|exact Hin]. }
    destruct o as [u|e]; [now repeat split|].
    destruct e; cbn [fst snd level elements]; (split; [reflexivity|]);
      (split; [exact Hall'|]); intros Hl e' [= <-];
      destruct (Herr Hl _ eq_refl) as [[m Hm]|[m Hm]]; try discriminate;
      try (left; now eexists _, _, _); right; now eexists.
  - pose proof (@MetaData_feed_raises (metadata self) line) as Hraises.
    destruct (Blocks.MetaData_feed _ _) as [m o]. cbn [snd] in Hraises.
    destruct o as [u|e]; [now repeat split|].
    destruct (Hraises e eq_refl) as [[r ->]|[m' ->]];
      cbn [fst snd level elements]; (split; [reflexivity|]);
      (split; [exact Hall|]); intros Hl e' [= <-].
    left. now eexists _, _, _.
Qed.

Lemma Funyu_feed_all_levelled (lines : list str) :
  forall self : Funyu,
  Forall (levelled (level self)) (elements self) ->
  level (fst (Funyu_feed_all self lines)) = level self
  /\ Forall (levelled (level self)) (elements (fst (Funyu_feed_all self lines)))
  /\ ((1 <= level self + 1)%Z ->
      forall e, snd (Funyu_feed_all self lines) = Raise e -> funyu_error e).
Proof.
  induction lines as [|l lines IH]; intros self Hall.
  - simpl. split; [reflexivity|]. split; [exact Hall|]. discriminate.
  - cbn [Funyu_feed_all].
    destruct (Funyu_feed_levelled self l Hall) as (Hlevel & Hall' & Herr).
    destruct (Funyu_feed self l) as [s1 [u|e]]; cbn [fst snd] in *.
    + rewrite <- Hlevel in Hall'.
      destruct (IH s1 Hall') as (Hlevel2 & Hall2 & Herr2).
      rewrite Hlevel in *. repeat split; assumption.
    + repeat split; assumption.
Qed.

Lemma Hunyu_feed_levelled (self : Hunyu) (line : str) :
  Forall (levelled (h_level self)) (h_elements self) ->
  h_level (fst (Hunyu_feed self line)) = h_level self
  /\ Forall (levelled (h_level self)) (h_elements (fst (Hunyu_feed self line)))
  /\ ((1 <= h_level self + 1)%Z ->
      forall e, snd (Hunyu_feed self line) = Raise e -> hunyu_error e).
Proof.
  intros Hall. unfold Hunyu_feed.
  destruct (Py.contains [Py.LF] line).
  { split; [reflexivity|]. split; [exact Hall|].
    intros _ e [= <-]. right. now eexists. }
  destruct (ended (h_metadata self)).
  - destruct (@Block_feed_feed_levelled _ hunyu.String_init
                hunyu_String_init_raises (h_level self) (h_elements self) line Hall)
      as [Hall' Hsound].
    pose proof (Block_feed_hunyu_no_signal (h_level self) (h_elements self) line)
      as Hno.
    destruct (Blocks.Block_feed _ _ _ _) as [els o]. cbn [fst snd] in *.
    split; [reflexivity|]. split; [exact Hall'|].
    intros Hl e ->. specialize (Hsound Hl). simpl in Hsound, Hno.
    destruct Hsound as [Hsig|[[m Hm]|[m Hm]]]; [congruence| |].
    + left. exists m. exact Hm.
    + right. exists m. exact Hm.
  - pose proof (@MetaData_feed_raises (h_metadata self) line) as Hraises.
    destruct (Blocks.MetaData_feed _ _) as [m o]. cbn [snd] in Hraises.
    destruct o as [u|e]; [now repeat split|].
    destruct (Hraises e eq_refl) as [[r ->]|[m' ->]];
      cbn [fst snd h_level h_elements]; (split; [reflexivity|]);
      (split; [exact Hall|]); intros Hl e' [= <-].
    left. now exists m'.
Qed.

Lemma Hunyu_feed_all_levelled (lines : list str) :
  forall self : Hunyu,
  Forall (levelled (h_level self)) (h_elements self) ->
  h_level (fst (Hunyu_feed_all self lines)) = h_level self
  /\ Forall (levelled (h_level self))
       (h_elements (fst (Hunyu_feed_all self lines)))
  /\ ((1 <= h_level self + 1)%Z ->
      forall e, snd (Hunyu_feed_all self lines) = Raise e -> hunyu_error e).
Proof.
  induction lines as [|l lines IH]; intros self Hall.
  - simpl. split; [reflexivity|]. split; [exact Hall|]. discriminate.
  - cbn [Hunyu_feed_all].
    destruct (Hunyu_feed_levelled self l Hall) as (Hlevel & Hall' & Herr).
    destruct (Hunyu_feed self l) as [s1 [u|e]]; cbn [fst snd] in *.
    + rewrite <- Hlevel in Hall'.
      destruct (IH s1 Hall') as (Hlevel2 & Hall2 & Herr2).
      rewrite Hlevel in *. repeat split; assumption.
    + repeat split; assumption.
Qed.

(** X14: the levels follow the nesting.  In the document [parse] builds
    from any text, every section and every postscript of the body has the
    level [initial_level], those inside them one more, and so on; a
    section or a postscript is there only with a level of at least 1. *)
Theorem section_levels_follow_nesting (initial_level : Z) (text : str) :
  Forall (levelled (initial_level - 1))
    (elements (fst (Funyu_parse (Funyu_init initial_level) text)))
  /\ Forall (levelled (initial_level - 1))
       (h_elements (fst (Hunyu_parse (Hunyu_init initial_level) text))).
Proof.
  split.
  - apply (Funyu_feed_all_levelled (Py.splitlines text)
             (Funyu_init initial_level)). constructor.
  - apply (Hunyu_feed_all_levelled (Py.splitlines text)
             (Hunyu_init initial_level)). constructor.
Qed.

(** X15: with an initial level of at least 1, as the default is, [parse]
    raises nothing but the errors of its input: a syntax error, which in
    funyu carries a line number and the line and in hunyu neither, or the
    [ValueError] of a line break in a line or of a malformed date. *)
Theorem parse_raises_input_errors (initial_level : Z) (text : str) :
  (1 <= initial_level)%Z ->
  (forall e, snd (Funyu_parse (Funyu_init initial_level) text) = Raise e ->
     funyu_error e)
  /\ (forall e, snd (Hunyu_parse (Hunyu_init initial_level) text) = Raise e ->
      hunyu_error e).
Proof.
  intros Hlevel. split.
  - apply (Funyu_feed_all_levelled (Py.splitlines text)
             (Funyu_init initial_level)); [constructor|simpl; lia].
  - apply (Hunyu_feed_all_levelled (Py.splitlines text)
             (Hunyu_init initial_level)); [constructor|simpl; lia].
Qed.

End DriverLevels.

Lemma parse_raises_input_errors_witness :
  funyu_error (SyntaxError close_bracket_message (Some 3) (Some "[[opend")).
Proof.
  assert (Hlevel : (1 <= 1)%Z) by lia.
  destruct (@parse_raises_input_errors example_lib 1%Z three_lines Hlevel)
    as [Hfunyu _].
  apply Hfunyu. reflexivity.
Defined.

(** ** Paragraphs *)

Lemma blank_no_trigger_at_all (line : str) : blank line -> no_trigger line.
Proof.
  intros Hb. destruct (blank_no_trigger Hb) as (Hs & Hc & Hp).
  repeat split; try assumption.
  apply strip_nil_iff in Hb. rewrite Hb. discriminate.
Qed.

Section Paragraphs.

Context `{PyLib}.
Variable String_init : str -> result (list elem).

Lemma Block_feed_paragraph_blank (level : Z) (before : list block) (ended : bool)
    (lines : list Line) (line : str) :
  blank line ->
  Blocks.Block_feed (Blocks.feed String_init) level
    (before ++ [Paragraph ended lines]) line
  = (before ++ [Paragraph true lines], Return).
Proof.
  intros Hb. unfold Blocks.Block_feed.
  rewrite last_is_open_child_app. cbn [is_Paragraph negb].
  rewrite Block_feed_new_text by now apply blank_no_trigger_at_all.
  rewrite feed_last_app, feed_Paragraph. unfold Blocks.Paragraph_feed.
  apply strip_nil_iff in Hb. rewrite Hb. reflexivity.
Qed.

Lemma Paragraph_feed_text (lines : list Line) (line : str) (l : list elem) :
  ~ blank line -> String_init line = Ok l ->
  Blocks.Paragraph_feed String_init false lines line
  = (Paragraph false (lines ++ [l]), Return).
Proof.
  intros Hline Hs. unfold Blocks.Paragraph_feed.
  assert (Hnb : Py.eqb (Py.strip line) "" = false).
  { apply eqb_neq. now rewrite strip_nil_iff. }
  now rewrite Hnb, Hs.
Qed.

Lemma Block_feed_paragraph_text (level : Z) (before : list block)
    (lines : list Line) (line : str) (l : list elem) :
  no_trigger line -> ~ blank line -> String_init line = Ok l ->
  Blocks.Block_feed (Blocks.feed String_init) level
    (before ++ [Paragraph false lines]) line
  = (before ++ [Paragraph false (lines ++ [l])], Return).
Proof.
  intros Htext Hline Hs. unfold Blocks.Block_feed.
  rewrite last_is_open_child_app. cbn [is_Paragraph negb].
  rewrite Block_feed_new_text by exact Htext.
  rewrite feed_last_app, feed_Paragraph.
  now rewrite (Paragraph_feed_text lines Hline Hs).
Qed.

(** X16: lines of text that follow one another make one paragraph, and
    a blank line ends it.  With a paragraph as its last element,
    [Block.feed] gives a line of text that opens no block to that
    paragraph if it is open, and to a new paragraph after it if it has
    ended; a blank line ends the paragraph and adds nothing. *)
Theorem paragraphs_end_at_blank_lines (level : Z) (before : list block)
    (lines : list Line) (line : str) :
  (blank line ->
     forall ended : bool,
     Blocks.Block_feed (Blocks.feed String_init) level
       (before ++ [Paragraph ended lines]) line
     = (before ++ [Paragraph true lines], Return))
  /\ (no_trigger line -> ~ blank line ->
      forall l, String_init line = Ok l ->
      Blocks.Block_feed (Blocks.feed String_init) level
        (before ++ [Paragraph false lines]) line
      = (before ++ [Paragraph false (lines ++ [l])], Return)
      /\ Blocks.Block_feed (Blocks.feed String_init) level
           (before ++ [Paragraph true lines]) line
         = ((before ++ [Paragraph true lines]) ++ [Paragraph false [l]], Return)).
Proof.
  split.
  - intros Hb ended. now apply Block_feed_paragraph_blank.
  - intros Htext Hline l Hs. split.
    + now apply Block_feed_paragraph_text.
    + rewrite (Block_feed_text_new String_init level Htext Hline)
        by (right; now exists before, lines).
      now rewrite (Paragraph_feed_text [] Hline Hs).
Qed.

End Paragraphs.

Lemma paragraphs_end_at_blank_lines_witness :
  Blocks.Block_feed (H := example_lib) (Blocks.feed funyu.String_init) 0
    ([] ++ [Paragraph false [[Text "hello!"]]]) "this is [[test]]."
  = ([] ++ [Paragraph false [[Text "hello!"];
                             [Text "this is "; Keyword [Text "test"]; Text "."]]],
     Return)
  /\ Blocks.Block_feed (H := example_lib) (Blocks.feed funyu.String_init) 0
       ([] ++ [Paragraph true [[Text "hello!"]]]) "this is [[test]]."
     = (([] ++ [Paragraph true [[Text "hello!"]]])
        ++ [Paragraph false [[Text "this is "; Keyword [Text "test"]; Text "."]]],
        Return).
Proof.
  destruct (@paragraphs_end_at_blank_lines example_lib funyu.String_init 0%Z []
              [[Text "hello!"]] "this is [[test]].") as [_ Htext].
  apply Htext.
  - repeat split; discriminate.
  - intros Hb. inversion Hb as [|? ? Hc _]. discriminate.
  - reflexivity.
Defined.

(** ** The markers of the blocks *)

Section Markers.

Context `{PyLib}.

(** A call of [feed] in the body that [Block.feed] raises from. *)
Lemma Funyu_feed_body_raise (self : Funyu) (line : str) (e : exn) :
  ended (metadata self) = true -> ~ In Py.LF line ->
  Blocks.Block_feed (Blocks.feed funyu.String_init) (level self) (elements self)
    line = (elements self, Raise e) ->
  Funyu_feed self line
  = (counted self,
     Raise match e with
           | SyntaxError message _ _ =>
               SyntaxError message (Some (line_number self + 1)) (Some line)
           | _ => e
           end).
Proof.
  intros Hended Hlf Hfeed. apply contains_char_false in Hlf.
  unfold Funyu_feed, Funyu_feed_line. rewrite Hlf.
  cbn [metadata elements level line_number]. rewrite Hended, Hfeed.
  destruct self; destruct e; reflexivity.
Qed.

Lemma startswith_other (line p q : str) (c d : ascii) :
  c <> d -> Py.startswith line (c :: p) = true ->
  Py.startswith line (d :: q) = false.
Proof.
  intros Hcd Hp. destruct line as [|a line]; [discriminate|].
  simpl in Hp. apply andb_true_iff in Hp. destruct Hp as [Ha _].
  apply Ascii.eqb_eq in Ha. subst a. now apply startswith_head.
Qed.

(** X17: where no block is open to take it, a line that starts with the
    marker of a postscript has the rest of it, stripped, read as a date:
    with a date [Block.feed] appends an open postscript of the next level
    (an [AssertionError] if that level is below 1); a malformed date
    leaves [feed] as the [ValueError] of the library, without line number,
    and nothing changes but the line counter. *)
Theorem postscript_header (self : Funyu) (line : str) :
  ended (metadata self) = true ->
  Blocks.last_is_open_child (elements self) = false ->
  ~ In Py.LF line -> Py.startswith line "p.s. " = true ->
  Funyu_feed self line
  = match strptime_date (Py.strip (skipn 5 line)) with
    | inr message => (counted self, Raise (ValueError message))
    | inl d =>
        if (1 <=? level self + 1)%Z then
          (advanced self 1
             (elements self ++ [PostScript false (level self + 1) d []]),
           Return)
        else (counted self, Raise AssertionError)
    end.
Proof.
  intros Hended Hlast Hlf Hps.
  assert (Hs : Py.startswith line "-- " = false)
    by (eapply startswith_other; [|exact Hps]; discriminate).
  assert (Hc : Py.startswith line "```" = false)
    by (eapply startswith_other; [|exact Hps]; discriminate).
  assert (Hfeed :
    Blocks.Block_feed (Blocks.feed funyu.String_init) (level self)
      (elements self) line
    = match strptime_date (Py.strip (skipn 5 line)) with
      | inr message => (elements self, Raise (ValueError message))
      | inl d =>
          if (1 <=? level self + 1)%Z then
            (elements self ++ [PostScript false (level self + 1) d []], Return)
          else (elements self, Raise AssertionError)
      end).
  { unfold Blocks.Block_feed. rewrite Hlast. unfold Blocks.Block_feed_new.
    now rewrite Hs, Hc, Hps. }
  destruct (strptime_date (Py.strip (skipn 5 line))) as [d|message].
  - destruct (1 <=? level self + 1)%Z.
    + now apply Funyu_feed_body.
    + now rewrite (@Funyu_feed_body_raise self line _ Hended Hlf Hfeed).
  - now rewrite (@Funyu_feed_body_raise self line _ Hended Hlf Hfeed).
Qed.

(** X18: where no block is open to take it, a line that starts with the
    marker of a section opens a section of the next level, its title the
    rest of the line, stripped; when that level is below 1, which an
    initial level below 1 makes it at the top, [feed] raises an
    [AssertionError] and nothing changes but the line counter. *)
Theorem section_header (self : Funyu) (line : str) :
  ended (metadata self) = true ->
  Blocks.last_is_open_child (elements self) = false ->
  ~ In Py.LF line -> Py.startswith line "-- " = true ->
  Funyu_feed self line
  = if (1 <=? level self + 1)%Z then
      (advanced self 1
         (elements self
          ++ [Section false (level self + 1) (Py.strip (skipn 3 line)) []]),
       Return)
    else (counted self, Raise AssertionError).
Proof.
  intros Hended Hlast Hlf Hs.
  assert (Hfeed :
    Blocks.Block_feed (Blocks.feed funyu.String_init) (level self)
      (elements self) line
    = if (1 <=? level self + 1)%Z then
        (elements self
         ++ [Section false (level self + 1) (Py.strip (skipn 3 line)) []], Return)
      else (elements self, Raise AssertionError)).
  { unfold Blocks.Block_feed. rewrite Hlast. unfold Blocks.Block_feed_new.
    now rewrite Hs. }
  destruct (1 <=? level self + 1)%Z.
  - now apply Funyu_feed_body.
  - now rewrite (@Funyu_feed_body_raise self line _ Hended Hlf Hfeed).
Qed.

(** X19: an open block of embedded HTML is closed by any line that
    starts with three closing parentheses, and what follows them on the
    line is dropped; an open code block is closed by the line of three
    backquotes alone, and a line with anything after them is a syntax
    error that changes nothing but the line counter. *)
Theorem closing_lines (self : Funyu) (before : list block) (rest : str) :
  ended (metadata self) = true -> ~ In Py.LF rest ->
  (forall acc,
     elements self = before ++ [EmbeddedHTML false acc] ->
     Funyu_feed self (")))" ++ rest)
     = (advanced self 1 (before ++ [EmbeddedHTML true acc]), Return))
  /\ (forall type acc,
        elements self = before ++ [CodeBlock false type acc] ->
        Funyu_feed self "```"
        = (advanced self 1 (before ++ [CodeBlock true type acc]), Return)
        /\ (rest <> [] ->
            Funyu_feed self ("```" ++ rest)
            = (counted self,
               Raise (SyntaxError code_tab_message
                        (Some (line_number self + 1)) (Some ("```" ++ rest)))))).
Proof.
  intros Hended Hlf.
  assert (Hin : forall p : str, ~ In Py.LF p -> ~ In Py.LF (p ++ rest)).
  { intros p Hp Hx. apply in_app_or in Hx. tauto. }
  assert (Hp3 : ~ In Py.LF (")))" : str))
    by (intros Hx; simpl in Hx; intuition discriminate).
  assert (Hb3 : ~ In Py.LF ("```" : str))
    by (intros Hx; simpl in Hx; intuition discriminate).
  split.
  - intros acc Hels. apply Funyu_feed_body; [exact Hended|now apply Hin|].
    rewrite Hels. apply Block_feed_html_end.
  - intros type acc Hels. split.
    + apply Funyu_feed_body; [exact Hended|exact Hb3|].
      rewrite Hels. unfold Blocks.Block_feed.
      rewrite last_is_open_child_app. cbn [is_Paragraph negb].
      now rewrite feed_last_app, feed_CodeBlock.
    + intros Hrest.
      rewrite (@Funyu_feed_body_raise self ("```" ++ rest)
                 (syntax_error code_tab_message) Hended (Hin _ Hb3));
        [reflexivity|].
      rewrite Hels. unfold Blocks.Block_feed.
      rewrite last_is_open_child_app. cbn [is_Paragraph negb].
      rewrite feed_last_app, feed_CodeBlock. unfold Blocks.CodeBlock_feed.
      destruct rest as [|c rest]; [congruence|]. reflexivity.
Qed.

End Markers.

Lemma postscript_header_witness :
  let self := {| level := 0; elements := [];
                 metadata := {| ended := true; items := [] |};
                 line_number := 1 |} in
  Funyu_feed (H := example_lib) self "p.s. 2015-13-01"
  = (counted self, Raise (ValueError "malformed date")).
Proof.
  intros self.
  apply (@postscript_header example_lib self "p.s. 2015-13-01"); try reflexivity.
  intros Hin. simpl in Hin. intuition discriminate.
Defined.

Lemma section_header_witness :
  Funyu_feed (H := example_lib)
    {| level := -1; elements := []; metadata := {| ended := true; items := [] |};
       line_number := 1 |} "-- first section"
  = (counted {| level := -1; elements := [];
                metadata := {| ended := true; items := [] |};
                line_number := 1 |}, Raise AssertionError)
  /\ Funyu_feed (H := example_lib)
       {| level := 0; elements := []; metadata := {| ended := true; items := [] |};
          line_number := 1 |} "-- first section"
     = (advanced {| level := 0; elements := [];
                    metadata := {| ended := true; items := [] |};
                    line_number := 1 |} 1
          [Section false 1 "first section" []], Return).
Proof.
  assert (Hlf : ~ In Py.LF ("-- first section" : str))
    by (intros Hin; simpl in Hin; intuition discriminate).
  split.
  - apply (@section_header example_lib
             {| level := -1; elements := [];
                metadata := {| ended := true; items := [] |}; line_number := 1 |}
             "-- first section"); try reflexivity; exact Hlf.
  - apply (@section_header example_lib
             {| level := 0; elements := [];
                metadata := {| ended := true; items := [] |}; line_number := 1 |}
             "-- first section"); try reflexivity; exact Hlf.
Defined.

Lemma closing_lines_witness :
  let self := {| level := 0; elements := [] ++ [EmbeddedHTML false ["<hr>"]];
                 metadata := {| ended := true; items := [] |};
                 line_number := 4 |} in
  Funyu_feed (H := example_lib) self (")))" ++ " trailing text")
  = (advanced self 1 ([] ++ [EmbeddedHTML true ["<hr>"]]), Return).
Proof.
  intros self.
  assert (Hlf : ~ In Py.LF (" trailing text" : str))
    by (intros Hin; simpl in Hin; intuition discriminate).
  exact (proj1 (@closing_lines example_lib self [] " trailing text" eq_refl Hlf)
           ["<hr>"] eq_refl).
Defined.

(** ** Sections and postscripts *)

Section Containers.

Context `{PyLib}.
Variable String_init : str -> result (list elem).
Hypothesis String_init_raises :
  forall s e, String_init s = Raise e -> is_signal e = false.

Lemma Block_feed_feed_no_signal (level : Z) (elements : list block) (line : str) :
  no_signal (snd (Blocks.Block_feed (Blocks.feed String_init) level elements line)).
Proof.
  apply Block_feed_no_signal.
  - intros l Hl. unfold Blocks.feed. now apply feed_fuel_new_paragraph.
  - intros b l. unfold Blocks.feed. now apply feed_fuel_no_IndexError.
Qed.

Variable mk : bool -> list block -> block.
Variable lv : Z.
Hypothesis mk_container :
  (exists title, forall en els, mk en els = Section en lv title els)
  \/ (exists d, forall en els, mk en els = PostScript en lv d els).

Lemma feed_container (ended : bool) (elements : list block) (line : str) :
  Blocks.feed String_init (mk ended elements) line
  = (let '(ended', elements', o) :=
       Blocks.container_feed (Blocks.feed String_init) ended lv elements line in
     (mk ended' elements', o)).
Proof.
  rewrite (feed_equation String_init String_init_raises).
  destruct mk_container as [[t Hmk]|[d Hmk]]; rewrite Hmk; cbn [Blocks.feed_body];
    destruct (Blocks.container_feed _ _ _ _ _) as [[en' els'] o];
    now rewrite Hmk.
Qed.

Lemma mk_not_Paragraph (ended : bool) (elements : list block) :
  is_Paragraph (mk ended elements) = false.
Proof. destruct mk_container as [[t Hmk]|[d Hmk]]; now rewrite Hmk. Qed.

(** X20: an open section, or an open postscript, at the end of the
    elements takes every line that starts with a tab and every blank
    line: it feeds the line less its first character to its own elements
    and stays open, and its parent gets no new element.  Any other line
    ends it, and the parent goes on to the markers of the blocks with that
    line. *)
Theorem section_takes_indented_lines (level : Z) (before elements : list block)
    (line : str) :
  (blank line \/ Py.startswith line [Py.TAB] = true ->
     Blocks.Block_feed (Blocks.feed String_init) level
       (before ++ [mk false elements]) line
     = (before
        ++ [mk false
              (fst (Blocks.Block_feed (Blocks.feed String_init) lv elements
                      (skipn 1 line)))],
        snd (Blocks.Block_feed (Blocks.feed String_init) lv elements
               (skipn 1 line))))
  /\ (~ blank line -> Py.startswith line [Py.TAB] = false ->
      Blocks.Block_feed (Blocks.feed String_init) level
        (before ++ [mk false elements]) line
      = Blocks.Block_feed_new (Blocks.feed String_init) level
          (before ++ [mk true elements]) line).
Proof.
  split.
  - intros Hline. unfold Blocks.Block_feed at 1.
    rewrite last_is_open_child_app, mk_not_Paragraph. cbn [negb].
    rewrite feed_last_app, feed_container. unfold Blocks.container_feed.
    assert (Hcond : negb (Py.eqb (Py.strip line) "")
                    && negb (Py.startswith line [Py.TAB]) || false = false).
    { destruct Hline as [Hb|Htab].
      - apply strip_nil_iff in Hb. now rewrite Hb.
      - rewrite Htab. now rewrite andb_false_r. }
    rewrite Hcond.
    pose proof (Block_feed_feed_no_signal lv elements (skipn 1 line)) as Hno.
    destruct (Blocks.Block_feed (Blocks.feed String_init) lv elements
                (skipn 1 line)) as [els' o].
    cbn [fst snd] in *. destruct o as [[]|e]; [reflexivity|].
    destruct e as [m l s|r|m| |]; try reflexivity; discriminate.
  - intros Hline Htab. unfold Blocks.Block_feed at 1.
    rewrite last_is_open_child_app, mk_not_Paragraph. cbn [negb].
    rewrite feed_last_app, feed_container. unfold Blocks.container_feed.
    assert (Hnb : Py.eqb (Py.strip line) "" = false).
    { apply eqb_neq. now rewrite strip_nil_iff. }
    rewrite Hnb, Htab. reflexivity.
Qed.

End Containers.

Lemma funyu_String_init_no_signal (s : str) (e : exn) :
  funyu.String_init s = Raise e -> is_signal e = false.
Proof.
  intros Hs. apply funyu_String_init_raises in Hs. now destruct Hs as [m ->].
Qed.

Lemma section_takes_indented_lines_witness :
  Blocks.Block_feed (H := example_lib) (Blocks.feed funyu.String_init) 0
    ([] ++ [Section false 1 "first section" []]) ([Py.TAB] ++ "-- inner")
  = ([] ++ [Section false 1 "first section" [Section false 2 "inner" []]], Return).
Proof.
  assert (Hmk : (exists title, forall en els,
                   Section en 1 "first section" els = Section en 1 title els)
                \/ (exists d, forall en els,
                      Section en 1 "first section" els = PostScript en 1 d els)).
  { left. now exists "first section". }
  exact (proj1 (@section_takes_indented_lines example_lib funyu.String_init
                  funyu_String_init_no_signal
                  (fun en els => Section en 1 "first section" els) 1%Z Hmk
                  0%Z [] [] ([Py.TAB] ++ "-- inner"))
           (or_intror eq_refl)).
Defined.

(** ** The text of a syntax error *)

(** X21: the text of a syntax error [Funyu.feed] lets out starts with
    the number of the line, counted from the first call: it is
    [line N: message], [N] written in decimal digits. *)
Theorem syntax_error_names_its_line `{PyLib} (self self' : Funyu)
    (line message : str) (ln : option nat) (ls : option str) :
  Funyu_feed self line = (self', Raise (SyntaxError message ln ls)) ->
  FunyuSyntaxError_str message ln
  = "line " ++ str_of_nat (line_number self + 1) ++ ": " ++ message.
Proof.
  intros Hfeed. apply Funyu_feed_syntax_error in Hfeed.
  destruct Hfeed as [-> _]. reflexivity.
Qed.

Lemma syntax_error_names_its_line_witness :
  FunyuSyntaxError_str key_required_message (Some 1) = "line 1: key is required.".
Proof.
  exact (@syntax_error_names_its_line example_lib (Funyu_init 1)
           (counted (Funyu_init 1)) ":invalid syntax" key_required_message
           (Some 1) (Some ":invalid syntax") eq_refl).
Defined.

(** ** Code blocks read back *)

Lemma code_as_markup (Line_as_markup : list elem -> str) (ended : bool)
    (type : option str) (lines : list str) :
  Forall nolb lines -> nolb (type_text type) ->
  Py.splitlines (Render.as_markup Line_as_markup (CodeBlock ended type lines))
  = ("```" ++ type_text type) :: map indented (embedded_lines lines) ++ ["```"].
Proof.
  intros Hall Htype. cbn [Render.as_markup]. fold (type_text type).
  assert (Hsplit : Py.split Py.LF (Py.join [Py.LF] lines) = embedded_lines lines).
  { destruct lines as [|l lines]; [reflexivity|]. apply split_join.
    revert Hall. apply Forall_impl. intros a. apply nolb_no_LF. }
  rewrite indent_join, Hsplit.
  assert (Hnolb : Forall nolb (("```" ++ type_text type)
                               :: map indented (embedded_lines lines) ++ ["```"])).
  { constructor; [apply nolb_app; split; [now repeat constructor|exact Htype]|].
    apply Forall_app. split; [|now repeat constructor].
    apply Forall_map.
    assert (Hlines : Forall nolb (embedded_lines lines)).
    { destruct lines; [now repeat constructor|exact Hall]. }
    revert Hlines. apply Forall_impl. intros [|c l] Hl; [constructor|].
    now constructor. }
  etransitivity; [|exact (splitlines_join Hnolb)]. f_equal.
  change (("```" ++ type_text type) :: map indented (embedded_lines lines) ++ ["```"])
    with ((("```" ++ type_text type) :: map indented (embedded_lines lines))
          ++ ["```"]).
  rewrite join_snoc.
  assert (Hne : map indented (embedded_lines lines) <> []).
  { destruct lines; discriminate. }
  rewrite join_cons by exact Hne.
  now rewrite <- !app_assoc.
Qed.

Section CodeFeed.

Context `{PyLib}.
Variable String_init : str -> result (list elem).

Lemma Block_feed_code_start (level : Z) (before : list block) (type : option str) :
  Blocks.last_is_open_child before = false ->
  Blocks.Block_feed (Blocks.feed String_init) level before
    ("```" ++ type_text type)
  = (before ++ [CodeBlock false (reread_type type) []], Return).
Proof.
  intros Hlast. unfold Blocks.Block_feed. rewrite Hlast.
  unfold Blocks.Block_feed_new.
  change (Py.startswith ("```" ++ type_text type) "-- ") with false.
  change (Py.startswith ("```" ++ type_text type) "```") with true. cbv iota.
  now destruct type.
Qed.

Lemma Block_feed_code_line (level : Z) (before : list block) (type : option str)
    (acc : list str) (l : str) :
  Blocks.Block_feed (Blocks.feed String_init) level
    (before ++ [CodeBlock false type acc]) (indented l)
  = (before ++ [CodeBlock false type (acc ++ [flat_map html_escape l])], Return).
Proof.
  unfold Blocks.Block_feed. rewrite last_is_open_child_app. cbn [is_Paragraph negb].
  rewrite feed_last_app, feed_CodeBlock.
  destruct l as [|c l]; [reflexivity|].
  unfold Blocks.CodeBlock_feed, indented.
  change (Py.eqb (Py.TAB :: c :: l) "```") with false.
  change (Py.startswith (Py.TAB :: c :: l) [Py.TAB]) with true.
  cbn [negb andb skipn fst snd]. now rewrite replace_html_escape.
Qed.

Lemma Block_feed_code_end (level : Z) (before : list block) (type : option str)
    (acc : list str) :
  Blocks.Block_feed (Blocks.feed String_init) level
    (before ++ [CodeBlock false type acc]) "```"
  = (before ++ [CodeBlock true type acc], Return).
Proof.
  unfold Blocks.Block_feed. rewrite last_is_open_child_app. cbn [is_Paragraph negb].
  now rewrite feed_last_app, feed_CodeBlock.
Qed.

End CodeFeed.

Section CodeReread.

Context `{PyLib}.

Lemma Funyu_feed_all_code (lines : list str) :
  forall (self : Funyu) (before : list block) (type : option str)
    (acc : list str),
  ended (metadata self) = true ->
  elements self = before ++ [CodeBlock false type acc] ->
  Forall nolb lines ->
  Funyu_feed_all self (map indented lines ++ ["```"])
  = (advanced self (length lines + 1)
       (before ++ [CodeBlock true type (acc ++ map (flat_map html_escape) lines)]),
     Return).
Proof.
  induction lines as [|l lines IH]; intros self before type acc Hended Hels Hall.
  - cbn [map app Funyu_feed_all].
    rewrite (@Funyu_feed_body _ self "```" (before ++ [CodeBlock true type acc])).
    + now rewrite app_nil_r.
    + exact Hended.
    + intros Hin. simpl in Hin. intuition discriminate.
    + rewrite Hels. apply Block_feed_code_end.
  - inversion Hall as [|? ? Hl Hrest]; subst.
    cbn [map app Funyu_feed_all].
    rewrite (@Funyu_feed_body _ self (indented l)
               (before ++ [CodeBlock false type (acc ++ [flat_map html_escape l])])).
    + rewrite (IH _ before type (acc ++ [flat_map html_escape l]));
        try assumption; try reflexivity.
      rewrite advanced_advanced, <- app_assoc. cbn [length app]. f_equal.
    + exact Hended.
    + apply indented_no_LF. now apply nolb_no_LF.
    + rewrite Hels. apply Block_feed_code_line.
Qed.

Lemma Hunyu_feed_all_code (lines : list str) :
  forall (self : Hunyu) (before : list block) (type : option str)
    (acc : list str),
  ended (h_metadata self) = true ->
  h_elements self = before ++ [CodeBlock false type acc] ->
  Forall nolb lines ->
  Hunyu_feed_all self (map indented lines ++ ["```"])
  = (h_with_elements self
       (before ++ [CodeBlock true type (acc ++ map (flat_map html_escape) lines)]),
     Return).
Proof.
  induction lines as [|l lines IH]; intros self before type acc Hended Hels Hall.
  - cbn [map app Hunyu_feed_all].
    rewrite (@Hunyu_feed_body _ self "```" (before ++ [CodeBlock true type acc])).
    + now rewrite app_nil_r.
    + exact Hended.
    + intros Hin. simpl in Hin. intuition discriminate.
    + rewrite Hels. apply Block_feed_code_end.
  - inversion Hall as [|? ? Hl Hrest]; subst.
    cbn [map app Hunyu_feed_all].
    rewrite (@Hunyu_feed_body _ self (indented l)
               (before ++ [CodeBlock false type (acc ++ [flat_map html_escape l])])).
    + rewrite (IH _ before type (acc ++ [flat_map html_escape l]));
        try assumption; try reflexivity.
      now rewrite <- app_assoc.
    + exact Hended.
    + apply indented_no_LF. now apply nolb_no_LF.
    + rewrite Hels. apply Block_feed_code_line.
Qed.

(** X22: the markup [as_funyu] writes for a code block is read back as
    a code block, ended, whose lines are escaped once more: each
    ampersand, also that of an entity the block had stored, and each angle
    bracket comes back as an entity.  The type comes back stripped, and as
    no type if nothing is left of it; a block without lines comes back
    with one empty line. *)
Theorem code_block_is_escaped_again (type : option str) (lines : list str)
    (ended_ : bool) :
  Forall nolb lines -> nolb (type_text type) ->
  (forall self : Funyu,
     ended (metadata self) = true ->
     Blocks.last_is_open_child (elements self) = false ->
     Funyu_parse self
       (Render.as_markup funyu.Line_as_funyu (CodeBlock ended_ type lines))
     = (advanced self (length (embedded_lines lines) + 2)
          (elements self
           ++ [CodeBlock true (reread_type type)
                 (map (flat_map html_escape) (embedded_lines lines))]),
        Return))
  /\ (forall self : Hunyu,
        ended (h_metadata self) = true ->
        Blocks.last_is_open_child (h_elements self) = false ->
        Hunyu_parse self
          (Render.as_markup hunyu.Line_as_hunyu (CodeBlock ended_ type lines))
        = (h_with_elements self
             (h_elements self
              ++ [CodeBlock true (reread_type type)
                    (map (flat_map html_escape) (embedded_lines lines))]),
           Return)).
Proof.
  intros Hall Htype.
  assert (Hlines : Forall nolb (embedded_lines lines)).
  { destruct lines; [now repeat constructor|exact Hall]. }
  assert (Hopen : ~ In Py.LF ("```" ++ type_text type)).
  { apply nolb_no_LF. apply nolb_app. split; [now repeat constructor|exact Htype]. }
  split; intros self Hended Hlast.
  - unfold Funyu_parse. rewrite code_as_markup by assumption.
    cbn [Funyu_feed_all].
    rewrite (@Funyu_feed_body _ self ("```" ++ type_text type)
               (elements self ++ [CodeBlock false (reread_type type) []]))
      by (try assumption; now apply Block_feed_code_start).
    rewrite (@Funyu_feed_all_code _ _ (elements self) (reread_type type) []);
      try assumption; try reflexivity.
    rewrite advanced_advanced. cbn [app]. f_equal. f_equal. lia.
  - unfold Hunyu_parse. rewrite code_as_markup by assumption.
    cbn [Hunyu_feed_all].
    rewrite (@Hunyu_feed_body _ self ("```" ++ type_text type)
               (h_elements self ++ [CodeBlock false (reread_type type) []]))
      by (try assumption; now apply Block_feed_code_start).
    rewrite (@Hunyu_feed_all_code _ _ (h_elements self) (reread_type type) []);
      try assumption; try reflexivity.
Qed.

End CodeReread.

Lemma code_block_is_escaped_again_witness :
  let self := {| level := 0; elements := [];
                 metadata := {| ended := true; items := [] |};
                 line_number := 1 |} in
  Funyu_parse (H := example_lib) self
    (Render.as_markup funyu.Line_as_funyu
       (CodeBlock true (Some "html") ["a &lt; b"; ""]))
  = (advanced self 4 [CodeBlock true (Some "html") ["a &amp;lt; b"; ""]], Return).
Proof.
  intros self.
  assert (Hall : Forall nolb ["a &lt; b"; "" : str]) by (repeat constructor).
  assert (Htype : nolb (type_text (Some "html"))) by (repeat constructor).
  exact (proj1 (@code_block_is_escaped_again example_lib (Some "html")
                  ["a &lt; b"; ""] true Hall Htype) self eq_refl eq_refl).
Defined.

(** ** Paragraphs read and written *)

Lemma join_unlines (l : str) (lines : list str) :
  Py.join [Py.LF] (l :: lines) ++ [Py.LF] = unlines (l :: lines).
Proof.
  unfold unlines. revert l; induction lines as [|l' lines IH]; intros l.
  - simpl. now rewrite app_nil_r.
  - rewrite join_cons by discriminate.
    change (concat (map (fun l => l ++ [Py.LF]) (l :: l' :: lines)))
      with ((l ++ [Py.LF])
            ++ concat (map (fun l => l ++ [Py.LF]) (l' :: lines))).
    rewrite <- IH. now rewrite <- !app_assoc.
Qed.

Lemma splitlines_unlines (lines : list str) :
  Forall nolb lines -> Py.splitlines (unlines lines) = lines.
Proof.
  destruct lines as [|l lines]; [reflexivity|]. intros Hall.
  rewrite <- join_unlines. now apply splitlines_join.
Qed.

Lemma funyu_String_init_round_trip (s : str) (elements : list elem) :
  Re.search funyu.link s = None -> funyu.String_init s = Ok elements ->
  funyu.String_as_funyu elements = s.
Proof. intros Hno. now apply funyu_String_fuel_round_trip. Qed.

Lemma hunyu_String_init_round_trip (s : str) (elements : list elem) :
  Re.search funyu.link s = None -> hunyu.String_init s = Ok elements ->
  hunyu.String_as_hunyu elements = s.
Proof. intros Hno. now apply hunyu_String_fuel_round_trip. Qed.

Section ParagraphRoundTrip.

Context `{PyLib}.

Lemma Funyu_feed_all_paragraph (lines : list str) :
  forall (self : Funyu) (before : list block) (acc : list Line),
  ended (metadata self) = true ->
  elements self = before ++ [Paragraph false acc] ->
  Forall text_line lines ->
  Forall (fun l => exists els, funyu.String_init l = Ok els) lines ->
  exists scanned,
    Funyu_feed_all self lines
    = (advanced self (length lines) (before ++ [Paragraph false (acc ++ scanned)]),
       Return)
    /\ concat (map funyu.Line_as_funyu scanned) = unlines lines.
Proof.
  induction lines as [|l lines IH]; intros self before acc Hended Hels Hall Hok.
  - exists []. split; [|reflexivity]. simpl. rewrite app_nil_r, <- Hels.
    unfold advanced. rewrite Nat.add_0_r. now destruct self.
  - inversion Hall as [|? ? (Hnolb & Htext & Hline & Hno) Hrest]; subst.
    inversion Hok as [|? ? [els Hs] Hok']; subst.
    cbn [Funyu_feed_all].
    rewrite (@Funyu_feed_body _ self l (before ++ [Paragraph false (acc ++ [els])]));
      [|exact Hended|now apply nolb_no_LF
       |rewrite Hels; now apply Block_feed_paragraph_text].
    destruct (IH (advanced self 1 (before ++ [Paragraph false (acc ++ [els])]))
                before (acc ++ [els]) Hended eq_refl Hrest Hok')
      as (scanned & Hfeed & Hmarkup).
    exists (els :: scanned). split.
    + rewrite Hfeed, advanced_advanced, <- app_assoc. reflexivity.
    + cbn [map concat]. rewrite Hmarkup. unfold unlines. cbn [map concat].
      unfold funyu.Line_as_funyu.
      now rewrite (@funyu_String_init_round_trip _ _ Hno Hs).
Qed.

Lemma Hunyu_feed_all_paragraph (lines : list str) :
  forall (self : Hunyu) (before : list block) (acc : list Line),
  ended (h_metadata self) = true ->
  h_elements self = before ++ [Paragraph false acc] ->
  Forall text_line lines ->
  exists scanned,
    Hunyu_feed_all self lines
    = (h_with_elements self (before ++ [Paragraph false (acc ++ scanned)]), Return)
    /\ concat (map hunyu.Line_as_hunyu scanned) = unlines lines.
Proof.
  induction lines as [|l lines IH]; intros self before acc Hended Hels Hall.
  - exists []. split; [|reflexivity]. simpl. rewrite app_nil_r, <- Hels.
    now destruct self.
  - inversion Hall as [|? ? (Hnolb & Htext & Hline & Hno) Hrest]; subst.
    destruct (hunyu_String_init_total l) as [els Hs].
    cbn [Hunyu_feed_all].
    rewrite (@Hunyu_feed_body _ self l (before ++ [Paragraph false (acc ++ [els])]));
      [|exact Hended|now apply nolb_no_LF
       |rewrite Hels; now apply Block_feed_paragraph_text].
    destruct (IH (h_with_elements self (before ++ [Paragraph false (acc ++ [els])]))
                before (acc ++ [els]) Hended eq_refl Hrest)
      as (scanned & Hfeed & Hmarkup).
    exists (els :: scanned). split.
    + rewrite Hfeed, <- app_assoc. reflexivity.
    + cbn [map concat]. rewrite Hmarkup. unfold unlines. cbn [map concat].
      unfold hunyu.Line_as_hunyu.
      now rewrite (@hunyu_String_init_round_trip _ _ Hno Hs).
Qed.

(** X23: a run of lines of text without link is read as one paragraph
    and written back as it was.  Parsed in the body where no paragraph is
    open, lines that open no block, none of them blank, make one open
    paragraph appended to the elements, and [as_funyu] of that paragraph
    is the text: each line followed by a line feed.  (funyu needs the
    inline scanner to accept the lines; hunyu's accepts every line.) *)
Theorem paragraph_markup_round_trip (l : str) (lines : list str) :
  Forall text_line (l :: lines) ->
  (forall self : Funyu,
     ended (metadata self) = true ->
     (elements self = []
      \/ exists before ls, elements self = before ++ [Paragraph true ls]) ->
     Forall (fun l => exists els, funyu.String_init l = Ok els) (l :: lines) ->
     exists scanned,
       Funyu_parse self (unlines (l :: lines))
       = (advanced self (length (l :: lines))
            (elements self ++ [Paragraph false scanned]), Return)
       /\ Render.as_markup funyu.Line_as_funyu (Paragraph false scanned)
          = unlines (l :: lines))
  /\ (forall self : Hunyu,
        ended (h_metadata self) = true ->
        (h_elements self = []
         \/ exists before ls, h_elements self = before ++ [Paragraph true ls]) ->
        exists scanned,
          Hunyu_parse self (unlines (l :: lines))
          = (h_with_elements self (h_elements self ++ [Paragraph false scanned]),
             Return)
          /\ Render.as_markup hunyu.Line_as_hunyu (Paragraph false scanned)
             = unlines (l :: lines)).
Proof.
  intros Hall.
  assert (Hnolb : Forall nolb (l :: lines)).
  { revert Hall. apply Forall_impl. now intros a [Ha _]. }
  inversion Hall as [|? ? (Hl & Htext & Hline & Hno) Hrest]; subst.
  split.
  - intros self Hended Hlast Hok.
    inversion Hok as [|? ? [els Hs] Hok']; subst.
    unfold Funyu_parse. rewrite splitlines_unlines by exact Hnolb.
    cbn [Funyu_feed_all].
    rewrite (@Funyu_feed_body _ self l (elements self ++ [Paragraph false [els]]));
      [|exact Hended|now apply nolb_no_LF|].
    + destruct (@Funyu_feed_all_paragraph lines
                  (advanced self 1 (elements self ++ [Paragraph false [els]]))
                  (elements self) [els] Hended eq_refl Hrest Hok')
        as (scanned & Hfeed & Hmarkup).
      exists (els :: scanned). split.
      * rewrite Hfeed, advanced_advanced. reflexivity.
      * cbn [Render.as_markup map concat]. rewrite Hmarkup.
        unfold unlines. cbn [map concat]. unfold funyu.Line_as_funyu.
        now rewrite (@funyu_String_init_round_trip _ _ Hno Hs).
    + rewrite (Block_feed_text_new funyu.String_init (level self) Htext Hline Hlast).
      now rewrite (Paragraph_feed_text funyu.String_init [] Hline Hs).
  - intros self Hended Hlast.
    destruct (hunyu_String_init_total l) as [els Hs].
    unfold Hunyu_parse. rewrite splitlines_unlines by exact Hnolb.
    cbn [Hunyu_feed_all].
    rewrite (@Hunyu_feed_body _ self l (h_elements self ++ [Paragraph false [els]]));
      [|exact Hended|now apply nolb_no_LF|].
    + destruct (@Hunyu_feed_all_paragraph lines
                  (h_with_elements self (h_elements self ++ [Paragraph false [els]]))
                  (h_elements self) [els] Hended eq_refl Hrest)
        as (scanned & Hfeed & Hmarkup).
      exists (els :: scanned). split.
      * rewrite Hfeed. reflexivity.
      * cbn [Render.as_markup map concat]. rewrite Hmarkup.
        unfold unlines. cbn [map concat]. unfold hunyu.Line_as_hunyu.
        now rewrite (@hunyu_String_init_round_trip _ _ Hno Hs).
    + rewrite (Block_feed_text_new hunyu.String_init (h_level self) Htext Hline
                 Hlast).
      now rewrite (Paragraph_feed_text hunyu.String_init [] Hline Hs).
Qed.

End ParagraphRoundTrip.

Lemma paragraph_markup_round_trip_witness :
  let self := {| level := 0; elements := [];
                 metadata := {| ended := true; items := [] |};
                 line_number := 1 |} in
  exists scanned,
    Funyu_parse (H := example_lib) self
      (unlines ["hello, <<world>>!"; "this is [[test]]."])
    = (advanced self 2 ([] ++ [Paragraph false scanned]), Return)
    /\ Render.as_markup funyu.Line_as_funyu (Paragraph false scanned)
       = unlines ["hello, <<world>>!"; "this is [[test]]."].
Proof.
  intros self.
  assert (Hall : Forall text_line ["hello, <<world>>!"; "this is [[test]]." : str]).
  { repeat constructor; try discriminate;
      intros Hb; inversion Hb as [|? ? Hc _]; discriminate. }
  destruct (@paragraph_markup_round_trip example_lib _ _ Hall) as [Hfunyu _].
  apply (Hfunyu self); [reflexivity|now left|].
  repeat constructor; eexists; reflexivity.
Defined.

(** ** The HTML of a link in hunyu *)

(** X24: in hunyu the text of a link is written into the HTML as its
    markup, not as HTML: for a text without link in it, the HTML of the
    link built from it holds the text as it was, inline markup included. *)
Theorem hunyu_link_text_is_written_as_markup `{PyLib} (text uri : str)
    (elements : list elem) :
  Re.search funyu.link text = None ->
  hunyu.String_init text = Ok elements ->
  hunyu.as_html (Link elements uri)
  = match urlparse_scheme uri with
    | [] => "<a href=" ++ quoted uri ++ ">" ++ text ++ "</a>"
    | _ => "<a href=" ++ quoted uri ++ " target=" ++ quoted "_blank" ++ ">"
           ++ text ++ "</a>"
    end.
Proof.
  intros Hno Hs. cbn [hunyu.as_html].
  change (concat (map hunyu.as_hunyu elements))
    with (hunyu.String_as_hunyu elements).
  now rewrite (@hunyu_String_init_round_trip _ _ Hno Hs).
Qed.

Lemma hunyu_link_text_is_written_as_markup_witness :
  hunyu.as_html (H := example_lib) (Link [Text ""; Keyword [Text "k"]; Text " x"] "u")
  = "<a href=" ++ quoted "u" ++ ">" ++ "[[k]] x" ++ "</a>".
Proof.
  apply (@hunyu_link_text_is_written_as_markup example_lib "[[k]] x" "u");
    reflexivity.
Defined.

(** ** The markup of a section *)

Lemma split_from_app (sep : ascii) (x y : str) :
  forall cur,
  Py.split_from sep (x ++ sep :: y) cur
  = Py.split_from sep x cur ++ Py.split_from sep y [].
Proof.
  induction x as [|c x IH]; intros cur; simpl.
  - now rewrite Ascii.eqb_refl.
  - destruct (Ascii.eqb c sep); [now rewrite IH|apply IH].
Qed.

Lemma split_indent (s : str) :
  Py.split Py.LF (indent s) = map indented (Py.split Py.LF s).
Proof.
  rewrite indent_join.
  pose proof (@split_from_no_sep Py.LF s [] (fun H => H)) as Hfree.
  pose proof (split_from_not_nil Py.LF s []) as Hne.
  unfold Py.split at 2 3.
  destruct (Py.split_from Py.LF s []) as [|l items]; [congruence|].
  cbn [map]. apply split_join.
  change (indented l :: map indented items) with (map indented (l :: items)).
  apply Forall_map. revert Hfree. apply Forall_impl.
  intros a. apply indented_no_LF.
Qed.

(** A text in which a line feed, a tab and a line feed follow one another
    has a line that is a tab alone. *)
Lemma tab_line (s : str) (n : nat) :
  Py.startswith (skipn n s) [Py.LF; Py.TAB; Py.LF] = true ->
  In [Py.TAB] (Py.split Py.LF s).
Proof.
  intros Hs. apply startswith_inv in Hs. destruct Hs as [rest Hrest].
  rewrite <- (firstn_skipn n s), Hrest. unfold Py.split.
  change ([Py.LF; Py.TAB; Py.LF] ++ rest) with (Py.LF :: Py.TAB :: Py.LF :: rest).
  rewrite split_from_app. apply in_or_app. right.
  change (Py.TAB :: Py.LF :: rest) with ([Py.TAB] ++ Py.LF :: rest).
  rewrite split_from_app. apply in_or_app. left. now left.
Qed.

Lemma replace_from_absent (old new : str) (s : str) :
  (forall n, Py.startswith (skipn n s) old = false) ->
  replace_from old new s 0 = s.
Proof.
  induction s as [|c s IH]; intros Habs; [reflexivity|].
  cbn [replace_from]. pose proof (Habs 0) as H0. cbn [skipn] in H0.
  rewrite H0. f_equal.
  apply IH. intros n. exact (Habs (S n)).
Qed.

(** X25: the replacement [Section.as_funyu] ends with finds nothing to
    replace: no line of what [indent] gives is a tab alone, so that the
    markup of a section whose title holds no line feed is the line of its
    title and the indented markup of its elements. *)
Theorem section_markup_needs_no_replace (Line_as_markup : list elem -> str)
    (ended : bool) (level : Z) (title : str) (elements : list block) :
  ~ In Py.LF title ->
  Render.as_markup Line_as_markup (Section ended level title elements)
  = "-- " ++ title ++ [Py.LF]
    ++ indent (concat (map (Render.as_markup Line_as_markup) elements)).
Proof.
  intros Htitle. cbn [Render.as_markup]. unfold replace_str.
  apply replace_from_absent. intros n.
  destruct (Py.startswith _ [Py.LF; Py.TAB; Py.LF]) eqn:Hs; [|reflexivity].
  exfalso. apply tab_line in Hs. revert Hs. unfold Py.split.
  change ("-- " ++ title ++ [Py.LF] ++ indent (concat (map (Render.as_markup Line_as_markup) elements)))
    with (("-- " ++ title) ++ Py.LF :: indent (concat (map (Render.as_markup Line_as_markup) elements))).
  rewrite split_from_app, split_from_single.
  - intros [Heq|Hin]; [discriminate|].
    change (Py.split_from Py.LF ?x []) with (Py.split Py.LF x) in Hin.
    rewrite split_indent in Hin.
    apply in_map_iff in Hin. destruct Hin as (x & Hx & _).
    destruct x as [|c x]; discriminate.
  - intros Hin. apply in_app_or in Hin. destruct Hin as [Hin|Hin]; [|tauto].
    simpl in Hin. intuition discriminate.
Qed.

Lemma section_markup_needs_no_replace_witness :
  Render.as_markup funyu.Line_as_funyu
    (Section true 1 "t"
       [Paragraph true [[Text "a"]]; CodeBlock false (Some "x") [""; [Py.TAB]]])
  = "-- " ++ "t" ++ [Py.LF]
    ++ indent (concat (map (Render.as_markup funyu.Line_as_funyu)
                         [Paragraph true [[Text "a"]];
                          CodeBlock false (Some "x") [""; [Py.TAB]]])).
Proof.
  apply section_markup_needs_no_replace.
  intros Hin. simpl in Hin. intuition discriminate.
Defined.

(** ** The two files on text without inline markup *)

Lemma no_opener_skipn (s : str) (n : nat) : no_opener s -> no_opener (skipn n s).
Proof.
  unfold no_opener. rewrite !Forall_forall. intros Hs c Hc.
  apply Hs. eapply in_skipn. exact Hc.
Qed.

Section PlainLines.

Context `{PyLib}.

Lemma Paragraph_feed_plain (ended : bool) (elements : list Line) (line : str) :
  no_opener line ->
  Blocks.Paragraph_feed funyu.String_init ended elements line
  = Blocks.Paragraph_feed hunyu.String_init ended elements line.
Proof.
  intros Hline. unfold Blocks.Paragraph_feed.
  destruct (Py.eqb (Py.strip line) "" || ended) eqn:Hb; [reflexivity|].
  unfold funyu.String_init, hunyu.String_init.
  rewrite funyu_String_fuel_no_opener, hunyu_String_fuel_no_opener by exact Hline.
  destruct line as [|c line]; [discriminate|reflexivity].
Qed.

Section Children.

Variables feed1 feed2 : block -> str -> block * outcome.
Variable line : str.
Hypothesis feed_agree : forall c, feed1 c line = feed2 c line.

Lemma feed_last_agree (elements : list block) :
  Blocks.feed_last feed1 elements line = Blocks.feed_last feed2 elements line.
Proof.
  induction elements as [|b elements IH]; [reflexivity|]. simpl.
  destruct elements as [|b2 elements]; [now rewrite feed_agree|now rewrite IH].
Qed.

Lemma Block_feed_new_agree (level : Z) (elements : list block) :
  Blocks.Block_feed_new feed1 level elements line
  = Blocks.Block_feed_new feed2 level elements line.
Proof.
  unfold Blocks.Block_feed_new. rewrite feed_last_agree.
  destruct (Blocks.feed_last feed2 elements line) as [elements' o].
  now rewrite feed_last_agree.
Qed.

Lemma Block_feed_agree (level : Z) (elements : list block) :
  Blocks.Block_feed feed1 level elements line
  = Blocks.Block_feed feed2 level elements line.
Proof.
  unfold Blocks.Block_feed. rewrite feed_last_agree.
  destruct (Blocks.feed_last feed2 elements line) as [elements' o].
  now rewrite !Block_feed_new_agree.
Qed.

End Children.

Lemma feed_fuel_plain (fuel : nat) :
  forall (b : block) (line : str),
  no_opener line ->
  Blocks.feed_fuel funyu.String_init fuel b line
  = Blocks.feed_fuel hunyu.String_init fuel b line.
Proof.
  assert (Hbody : forall feed1 feed2 b line,
    no_opener line ->
    (forall c, feed1 c (skipn 1 line) = feed2 c (skipn 1 line)) ->
    Blocks.feed_body funyu.String_init feed1 b line
    = Blocks.feed_body hunyu.String_init feed2 b line).
  { intros feed1 feed2 b line Hline Hfeed.
    destruct b as [en els|en lv t els|en lv d els|en ty els|en els];
      cbn [Blocks.feed_body]; try reflexivity.
    - now apply Paragraph_feed_plain.
    - unfold Blocks.container_feed.
      now rewrite (@Block_feed_agree feed1 feed2 (skipn 1 line) Hfeed).
    - unfold Blocks.container_feed.
      now rewrite (@Block_feed_agree feed1 feed2 (skipn 1 line) Hfeed). }
  induction fuel as [|fuel IH]; intros b line Hline; simpl; apply Hbody;
    try exact Hline; [reflexivity|].
  intros c. apply IH. now apply no_opener_skipn.
Qed.

Lemma Block_feed_plain (level : Z) (elements : list block) (line : str) :
  no_opener line ->
  Blocks.Block_feed (Blocks.feed funyu.String_init) level elements line
  = Blocks.Block_feed (Blocks.feed hunyu.String_init) level elements line.
Proof.
  intros Hline. apply Block_feed_agree. intros c.
  unfold Blocks.feed. now apply feed_fuel_plain.
Qed.

Lemma feed_plain (f : Funyu) (h : Hunyu) (line : str) :
  no_opener line -> same_document f h ->
  same_document (fst (Funyu_feed f line)) (fst (Hunyu_feed h line))
  /\ erase_line (snd (Funyu_feed f line)) = erase_line (snd (Hunyu_feed h line)).
Proof.
  intros Hline (Hlevel & Hels & Hmeta). unfold Funyu_feed, Funyu_feed_line, Hunyu_feed.
  destruct (Py.contains [Py.LF] line); [now repeat split|].
  cbn [metadata elements level line_number].
  rewrite <- Hmeta, <- Hels, <- Hlevel.
  destruct (ended (metadata f)).
  - rewrite (@Block_feed_plain (level f) (elements f) line Hline).
    destruct (Blocks.Block_feed _ _ _ _) as [els [u|e]]; [now repeat split|].
    destruct e; now repeat split.
  - destruct (Blocks.MetaData_feed (metadata f) line) as [m [u|e]];
      [now repeat split|].
    destruct e; now repeat split.
Qed.

Lemma feed_all_plain (lines : list str) :
  forall (f : Funyu) (h : Hunyu),
  Forall no_opener lines -> same_document f h ->
  same_document (fst (Funyu_feed_all f lines)) (fst (Hunyu_feed_all h lines))
  /\ erase_line (snd (Funyu_feed_all f lines))
     = erase_line (snd (Hunyu_feed_all h lines)).
Proof.
  induction lines as [|l lines IH]; intros f h Hall Hsame; [now split|].
  inversion Hall as [|? ? Hl Hrest]; subst. cbn [Funyu_feed_all Hunyu_feed_all].
  destruct (@feed_plain f h l Hl Hsame) as [Hsame' Hout].
  destruct (Funyu_feed f l) as [f1 [u|e]], (Hunyu_feed h l) as [h1 [u'|e']];
    cbn [fst snd] in *.
  - now apply IH.
  - destruct e'; discriminate.
  - destruct e; discriminate.
  - now split.
Qed.

Lemma splitlines_from_no_opener (s cur : str) (after_cr : bool) :
  no_opener s -> no_opener cur ->
  Forall no_opener (Py.splitlines_from s cur after_cr).
Proof.
  revert cur after_cr; induction s as [|c s IH]; intros cur after_cr Hs Hcur; simpl.
  - destruct cur; constructor; [exact Hcur|constructor].
  - inversion Hs as [|? ? Hc Hs']; subst.
    destruct (after_cr && Ascii.eqb c Py.LF); [apply IH; [exact Hs'|constructor]|].
    destruct (Py.islinebreak c).
    + constructor; [exact Hcur|]. apply IH; [exact Hs'|constructor].
    + apply IH; [exact Hs'|]. apply Forall_app. split; [exact Hcur|].
      now repeat constructor.
Qed.

(** X26: on a text that holds none of the characters that open inline
    markup (an opening square bracket, an opening angle bracket, an
    opening brace), the two files build the same document: [parse] leaves
    funyu and hunyu with the same elements and the same metadata, and
    raises the same in both, but for the line a syntax error of funyu
    carries. *)
Theorem drivers_agree_without_markup (initial_level : Z) (text : str) :
  no_opener text ->
  same_document (fst (Funyu_parse (Funyu_init initial_level) text))
    (fst (Hunyu_parse (Hunyu_init initial_level) text))
  /\ erase_line (snd (Funyu_parse (Funyu_init initial_level) text))
     = erase_line (snd (Hunyu_parse (Hunyu_init initial_level) text)).
Proof.
  intros Htext. apply feed_all_plain.
  - apply splitlines_from_no_opener; [exact Htext|constructor].
  - now repeat split.
Qed.

End PlainLines.

Lemma drivers_agree_without_markup_witness :
  let text := "title: test" ++ [Py.LF] ++ [Py.LF] ++ "-- s" ++ [Py.LF]
              ++ [Py.TAB] ++ "hello" ++ [Py.LF] ++ "``` py" ++ [Py.LF] ++ "x" in
  same_document (fst (Funyu_parse (H := example_lib) (Funyu_init 1) text))
    (fst (Hunyu_parse (H := example_lib) (Hunyu_init 1) text))
  /\ erase_line (snd (Funyu_parse (H := example_lib) (Funyu_init 1) text))
     = erase_line (snd (Hunyu_parse (H := example_lib) (Hunyu_init 1) text)).
Proof.
  intros text. apply (@drivers_agree_without_markup example_lib 1%Z text).
  repeat constructor.
Defined.

(** ** A document read and written *)

Lemma unlines_app (a b : list str) : unlines (a ++ b) = unlines a ++ unlines b.
Proof. unfold unlines. now rewrite map_app, concat_app. Qed.

Lemma document_text_lines (its : list (str * str)) (lines : list str) :
  Forall item_ok its -> Forall nolb lines ->
  Py.splitlines (document_text its lines) = map item_line its ++ [] :: lines.
Proof.
  intros Hits Hlines.
  assert (Htext : document_text its lines
                  = unlines (map item_line its ++ [] :: lines)).
  { unfold document_text. rewrite unlines_app.
    change ([] :: lines) with ([[]] ++ lines). now rewrite unlines_app. }
  rewrite Htext. apply splitlines_unlines.
  apply Forall_app. split.
  - apply Forall_map. revert Hits. apply Forall_impl. intros a. apply item_line_nolb.
  - constructor; [constructor|exact Hlines].
Qed.

Lemma item_line_not_blank (kv : str * str) : item_ok kv -> ~ blank (item_line kv).
Proof.
  intros (Hne & Hk & _). unfold item_line. now apply trimmed_not_blank.
Qed.

Section DocumentRoundTrip.

Context `{PyLib}.

Lemma Funyu_feed_all_app (a b : list str) :
  forall self : Funyu,
  Funyu_feed_all self (a ++ b)
  = match Funyu_feed_all self a with
    | (self', Ok _) => Funyu_feed_all self' b
    | (self', Raise e) => (self', Raise e)
    end.
Proof.
  induction a as [|l a IH]; intros self; [reflexivity|]. cbn [app Funyu_feed_all].
  destruct (Funyu_feed self l) as [s1 [u|e]]; [apply IH|reflexivity].
Qed.

Lemma Hunyu_feed_all_app (a b : list str) :
  forall self : Hunyu,
  Hunyu_feed_all self (a ++ b)
  = match Hunyu_feed_all self a with
    | (self', Ok _) => Hunyu_feed_all self' b
    | (self', Raise e) => (self', Raise e)
    end.
Proof.
  induction a as [|l a IH]; intros self; [reflexivity|]. cbn [app Hunyu_feed_all].
  destruct (Hunyu_feed self l) as [s1 [u|e]]; [apply IH|reflexivity].
Qed.

(** The blank line that ends the metadata block. *)
Lemma Funyu_feed_end_of_header (self : Funyu) :
  ended (metadata self) = false ->
  Funyu_feed self ""
  = ({| level := level self; elements := elements self;
        metadata := {| ended := true; items := items (metadata self) |};
        line_number := line_number self + 1 |}, Return).
Proof.
  intros Hended. unfold Funyu_feed, Funyu_feed_line.
  change (Py.contains [Py.LF] "") with false. cbv iota.
  cbn [metadata elements level line_number]. rewrite Hended.
  unfold Blocks.MetaData_feed. rewrite Hended. reflexivity.
Qed.

Lemma Hunyu_feed_end_of_header (self : Hunyu) :
  ended (h_metadata self) = false ->
  Hunyu_feed self ""
  = ({| h_level := h_level self; h_elements := h_elements self;
        h_metadata := {| ended := true; items := items (h_metadata self) |} |},
     Return).
Proof.
  intros Hended. unfold Hunyu_feed.
  change (Py.contains [Py.LF] "") with false. cbv iota. rewrite Hended.
  unfold Blocks.MetaData_feed. rewrite Hended. reflexivity.
Qed.

(** The lines of a paragraph where the body is empty. *)
Lemma Funyu_feed_all_text (l : str) (lines : list str) (self : Funyu) :
  ended (metadata self) = true -> elements self = [] ->
  Forall text_line (l :: lines) ->
  Forall (fun l => exists els, funyu.String_init l = Ok els) (l :: lines) ->
  exists doc scanned,
    Funyu_feed_all self (l :: lines) = (doc, Return)
    /\ metadata doc = metadata self
    /\ elements doc = [Paragraph false scanned]
    /\ concat (map funyu.Line_as_funyu scanned) = unlines (l :: lines).
Proof.
  intros Hended Hels Hall Hok.
  inversion Hall as [|? ? (Hl & Htext & Hline & Hno) Hrest]; subst.
  inversion Hok as [|? ? [els Hs] Hok']; subst.
  cbn [Funyu_feed_all].
  rewrite (@Funyu_feed_body _ self l (elements self ++ [Paragraph false [els]]));
    [|exact Hended|now apply nolb_no_LF|].
  - destruct (@Funyu_feed_all_paragraph _ lines
                (advanced self 1 (elements self ++ [Paragraph false [els]]))
                (elements self) [els] Hended eq_refl Hrest Hok')
      as (scanned & Hfeed & Hmarkup).
    eexists _, (els :: scanned). split; [exact Hfeed|].
    split; [reflexivity|]. split; [cbn; now rewrite Hels|].
    cbn [map concat]. rewrite Hmarkup. unfold unlines. cbn [map concat].
    unfold funyu.Line_as_funyu.
    now rewrite (@funyu_String_init_round_trip _ _ Hno Hs).
  - rewrite (Block_feed_text_new funyu.String_init (level self) Htext Hline
               (or_introl Hels)).
    now rewrite (Paragraph_feed_text funyu.String_init [] Hline Hs).
Qed.

Lemma Hunyu_feed_all_text (l : str) (lines : list str) (self : Hunyu) :
  ended (h_metadata self) = true -> h_elements self = [] ->
  Forall text_line (l :: lines) ->
  exists doc scanned,
    Hunyu_feed_all self (l :: lines) = (doc, Return)
    /\ h_metadata doc = h_metadata self
    /\ h_elements doc = [Paragraph false scanned]
    /\ concat (map hunyu.Line_as_hunyu scanned) = unlines (l :: lines).
Proof.
  intros Hended Hels Hall.
  inversion Hall as [|? ? (Hl & Htext & Hline & Hno) Hrest]; subst.
  destruct (hunyu_String_init_total l) as [els Hs].
  cbn [Hunyu_feed_all].
  rewrite (@Hunyu_feed_body _ self l (h_elements self ++ [Paragraph false [els]]));
    [|exact Hended|now apply nolb_no_LF|].
  - destruct (@Hunyu_feed_all_paragraph _ lines
                (h_with_elements self (h_elements self ++ [Paragraph false [els]]))
                (h_elements self) [els] Hended eq_refl Hrest)
      as (scanned & Hfeed & Hmarkup).
    eexists _, (els :: scanned). split; [exact Hfeed|].
    split; [reflexivity|]. split; [cbn; now rewrite Hels|].
    cbn [map concat]. rewrite Hmarkup. unfold unlines. cbn [map concat].
    unfold hunyu.Line_as_hunyu.
    now rewrite (@hunyu_String_init_round_trip _ _ Hno Hs).
  - rewrite (Block_feed_text_new hunyu.String_init (h_level self) Htext Hline
               (or_introl Hels)).
    now rewrite (Paragraph_feed_text hunyu.String_init [] Hline Hs).
Qed.

Lemma MetaData_as_funyu_unlines (ended_ : bool) (kv : str * str)
    (its : list (str * str)) :
  Blocks.MetaData_as_funyu {| ended := ended_; items := kv :: its |}
  = unlines (map item_line (kv :: its)).
Proof.
  unfold Blocks.MetaData_as_funyu.
  change (fun kv : str * str => fst kv ++ ": " ++ snd kv) with item_line.
  cbn [items map]. apply join_unlines.
Qed.

(** X27: a document made of the lines of its metadata, each a key, a
    colon, a blank and a value, the keys different from one another, of a
    blank line, and of one paragraph of lines of text without link, is
    read by [parse] without error and written back by [as_funyu] as it
    was; the metadata are the entries of the lines, in their order. *)
Theorem document_round_trip (initial_level : Z) (kv : str * str)
    (its : list (str * str)) (l : str) (lines : list str) :
  Forall item_ok (kv :: its) -> NoDup (map fst (kv :: its)) ->
  Forall text_line (l :: lines) ->
  (Forall (fun l => exists els, funyu.String_init l = Ok els) (l :: lines) ->
   exists doc : Funyu,
     Funyu_parse (Funyu_init initial_level) (document_text (kv :: its) (l :: lines))
     = (doc, Return)
     /\ items (metadata doc) = kv :: its
     /\ Funyu_as_funyu doc = document_text (kv :: its) (l :: lines))
  /\ (exists doc : Hunyu,
        Hunyu_parse (Hunyu_init initial_level)
          (document_text (kv :: its) (l :: lines)) = (doc, Return)
        /\ items (h_metadata doc) = kv :: its
        /\ Hunyu_as_hunyu doc = document_text (kv :: its) (l :: lines)).
Proof.
  intros Hits Hnd Hall.
  assert (Hnolb : Forall nolb (l :: lines)).
  { revert Hall. apply Forall_impl. now intros a [Ha _]. }
  assert (Hnb : Forall (fun l => ~ blank l) (map item_line (kv :: its))).
  { apply Forall_map. revert Hits. apply Forall_impl.
    intros a. apply item_line_not_blank. }
  split.
  - intros Hok. unfold Funyu_parse.
    rewrite document_text_lines by assumption. rewrite Funyu_feed_all_app.
    destruct (@Funyu_feed_all_item_lines _ (kv :: its) (Funyu_init initial_level)
                eq_refl Hits Hnd) as (doc1 & Hrun & Hitems & Hopen).
    destruct (@Funyu_feed_all_open _ (map item_line (kv :: its))
                (Funyu_init initial_level) eq_refl Hnb) as [Hels _].
    rewrite Hrun in *. cbn [fst] in Hels. simpl in Hitems.
    change (Funyu_feed_all doc1 ([] :: l :: lines))
      with (match Funyu_feed doc1 [] with
            | (self', Ok _) => Funyu_feed_all self' (l :: lines)
            | (self', Raise e) => (self', Raise e)
            end).
    rewrite (Funyu_feed_end_of_header doc1 Hopen).
    edestruct (@Funyu_feed_all_text l lines) as (doc & scanned & Hfeed & Hmeta
                                                  & Hdoc & Hmarkup);
      [| |exact Hall|exact Hok|].
    3: { exists doc. split; [exact Hfeed|]. rewrite Hmeta. cbn [metadata items].
         split; [exact Hitems|].
         unfold Funyu_as_funyu. rewrite Hmeta, Hdoc. cbn [metadata].
         rewrite Hitems. rewrite MetaData_as_funyu_unlines.
         cbn [map concat Render.as_markup]. rewrite Hmarkup, app_nil_r.
         reflexivity. }
    + reflexivity.
    + exact Hels.
  - unfold Hunyu_parse.
    rewrite document_text_lines by assumption. rewrite Hunyu_feed_all_app.
    destruct (@Hunyu_feed_all_item_lines _ (kv :: its) (Hunyu_init initial_level)
                eq_refl Hits Hnd) as (doc1 & Hrun & Hitems & Hopen).
    destruct (@Hunyu_feed_all_open _ (map item_line (kv :: its))
                (Hunyu_init initial_level) eq_refl Hnb) as [Hels _].
    rewrite Hrun in *. cbn [fst] in Hels. simpl in Hitems.
    change (Hunyu_feed_all doc1 ([] :: l :: lines))
      with (match Hunyu_feed doc1 [] with
            | (self', Ok _) => Hunyu_feed_all self' (l :: lines)
            | (self', Raise e) => (self', Raise e)
            end).
    rewrite (Hunyu_feed_end_of_header doc1 Hopen).
    edestruct (@Hunyu_feed_all_text l lines) as (doc & scanned & Hfeed & Hmeta
                                                  & Hdoc & Hmarkup);
      [| |exact Hall|].
    3: { exists doc. split; [exact Hfeed|]. rewrite Hmeta. cbn [h_metadata items].
         split; [exact Hitems|].
         unfold Hunyu_as_hunyu. rewrite Hmeta, Hdoc. cbn [h_metadata].
         rewrite Hitems. rewrite MetaData_as_funyu_unlines.
         cbn [map concat Render.as_markup]. rewrite Hmarkup, app_nil_r.
         reflexivity. }
    + reflexivity.
    + exact Hels.
Qed.

End DocumentRoundTrip.

Lemma document_round_trip_witness :
  exists doc : Funyu,
    Funyu_parse (H := example_lib) (Funyu_init 1)
      (document_text [("title", "test of funyu"); ("author", "MacRat")]
         ["hello, <<world>>!"; "this is [[test]]."])
    = (doc, Return)
    /\ items (metadata doc) = [("title", "test of funyu"); ("author", "MacRat")]
    /\ Funyu_as_funyu doc
       = document_text [("title", "test of funyu"); ("author", "MacRat")]
           ["hello, <<world>>!"; "this is [[test]]."].
Proof.
  assert (Hits : Forall item_ok
                   [("title", "test of funyu"); ("author", "MacRat") : str * str]).
  { repeat constructor; try discriminate;
      intros Hin; simpl in Hin; intuition discriminate. }
  assert (Hnd : NoDup (map fst
                   [("title", "test of funyu"); ("author", "MacRat") : str * str])).
  { repeat constructor; intros Hin; simpl in Hin; intuition discriminate. }
  assert (Hall : Forall text_line ["hello, <<world>>!"; "this is [[test]]." : str]).
  { repeat constructor; try discriminate;
      intros Hb; inversion Hb as [|? ? Hc _]; discriminate. }
  apply (proj1 (@document_round_trip example_lib 1%Z _ _ _ _ Hits Hnd Hall)).
  repeat constructor; eexists; reflexivity.
Defined.

(** ** A span right after a span *)

Section SpanAfterSpan.

Variable String_ : str -> result (list elem).
Hypothesis String_plain :
  forall s, no_opener s -> String_ s = Ok (text_elements s).

(** [procStr] on a line with one span: after the span the loop passes
    over one character, whatever it is. *)
Lemma funyu_procStr_span_then (pre : str) (b : bracket) (body post : str) :
  plain pre -> plain body ->
  (forall j, 1 <= j -> funyu.bracket_of (Py.slice post j (j + 2)) = None) ->
  funyu.procStr String_ (span_line pre b body post) []
  = Ok ([Text pre; funyu_span b body] ++ text_elements post).
Proof.
  intros Hpre Hbody Hpost. unfold funyu.procStr.
  set (line := span_line pre b body post).
  assert (Hlen : length line = length pre + S (S (length body + (2 + length post))))
    by (unfold line; rewrite span_line_length; lia).
  rewrite Hlen, procStr_while_skip.
  - rewrite (@procStr_while_bracket String_ line b).
    + change (0 + length pre) with (length pre). unfold line.
      rewrite span_line_after_open, findClose_plain by exact Hbody.
      cbn [bind].
      rewrite span_line_body, (funyu_span_plain String_ String_plain) by exact Hbody.
      cbn [bind].
      rewrite procStr_while_tail.
      * unfold funyu.procStr_remain.
        rewrite span_line_after_span, span_line_pre.
        now destruct post.
      * intros j Hj.
        replace j with (length pre + 2 + length body + 2
                        + (j - (length pre + 2 + length body + 2))) by lia.
        unfold Py.slice. rewrite span_line_skip_span.
        replace (length pre + 2 + length body + 2
                 + (j - (length pre + 2 + length body + 2)) + 2
                 - (length pre + 2 + length body + 2
                    + (j - (length pre + 2 + length body + 2))))
          with (j - (length pre + 2 + length body + 2) + 2
                - (j - (length pre + 2 + length body + 2))) by lia.
        apply Hpost. lia.
    + lia.
    + change (0 + length pre) with (length pre). unfold line, span_line.
      replace (length pre + 2) with (length pre + length (opening b))
        by (now destruct b).
      now rewrite slice_middle, bracket_of_opening.
  - lia.
  - intros j Hj. apply bracket_of_no_opener.
    apply no_opener_prefix; [now apply plain_no_opener|lia].
Qed.

End SpanAfterSpan.

Lemma no_key_after_opening (b : bracket) (tail : str) :
  no_opener tail ->
  forall j, 1 <= j ->
  funyu.bracket_of (Py.slice (opening b ++ tail) j (j + 2)) = None.
Proof.
  intros Htail [|[|j]] Hj; [lia| |].
  - unfold Py.slice. replace (1 + 2 - 1) with 2 by lia.
    destruct tail as [|c tail]; [now destruct b|].
    inversion Htail as [|? ? Hc _]; subst.
    unfold is_opener in Hc. apply orb_false_iff in Hc. destruct Hc as [Hc Hbrace].
    apply orb_false_iff in Hc. destruct Hc as [Hsquare Hangle].
    destruct b; cbn [opening app skipn firstn]; unfold funyu.bracket_of; simpl;
      rewrite ?Hsquare, ?Hangle, ?Hbrace; reflexivity.
  - apply bracket_of_no_opener.
    replace (opening b ++ tail) with ([hd " "%char (opening b)]
                                      ++ [hd " "%char (tl (opening b))] ++ tail)
      by now destruct b.
    cbn [app skipn]. now apply no_opener_suffix.
Qed.

(** X28: in funyu an opening delimiter that stands right after the
    closing delimiter of a span opens no span: the loop of [procStr]
    passes over the character that follows a span.  On a line made of a
    plain text, a span with plain content, an opening delimiter and a rest
    that holds no opening square bracket, angle bracket or brace and no
    opening parenthesis, the scanner gives the text, the span, and one
    text made of the second delimiter and the rest, whether the rest
    holds a closing delimiter or not. *)
Theorem funyu_skips_span_after_span (pre : str) (b b2 : bracket) (body tail : str) :
  plain pre -> plain body -> no_opener tail -> ~ In "("%char tail ->
  funyu.String_init (span_line pre b body (opening b2 ++ tail))
  = Ok [Text pre; funyu_span b body; Text (opening b2 ++ tail)].
Proof.
  intros Hpre Hbody Htail Hparen. unfold funyu.String_init.
  destruct (length (span_line pre b body (opening b2 ++ tail))) as [|fuel] eqn:Hlen;
    [rewrite span_line_length in Hlen; lia|].
  simpl funyu.String_fuel. unfold funyu.String_body.
  rewrite finditer_none.
  - cbn [funyu.String_for skipn].
    rewrite (@funyu_procStr_span_then (funyu.String_fuel fuel)).
    + now destruct b2.
    + intros s Hs. now apply funyu_String_fuel_no_opener.
    + exact Hpre.
    + exact Hbody.
    + now apply no_key_after_opening.
  - apply search_link_no_paren. intros Hin. unfold span_line in Hin.
    repeat (apply in_app_or in Hin; destruct Hin as [Hin|Hin]).
    + exact (@plain_not_in pre "(" Hpre eq_refl Hin).
    + destruct b; simpl in Hin; intuition discriminate.
    + exact (@plain_not_in body "(" Hbody eq_refl Hin).
    + destruct b; simpl in Hin; intuition discriminate.
    + destruct b2; simpl in Hin; intuition discriminate.
    + tauto.
Qed.

Lemma funyu_skips_span_after_span_witness :
  funyu.String_init (span_line "" BKeyword "a" (opening BKeyword ++ "b]]"))
  = Ok [Text ""; funyu_span BKeyword "a"; Text (opening BKeyword ++ "b]]")].
Proof.
  apply funyu_skips_span_after_span; try (repeat constructor).
  intros Hin. simpl in Hin. intuition discriminate.
Defined.
